(** * TalkIntel batch transcription utility: a shallow embedding

    The development follows [transcribe_audio_sippulse.py]: the class
    [TalkIntelTranscriber] (audio normalisation through FFmpeg, the upload to
    the transcription API, de-duplication of audio files by base name, the
    batch loop, the webhook forwarder) and the command-line entry point
    [main].

    Conventions.
    - A Python [str] is a [string] holding its UTF-8 bytes.  Comparing two
      such strings byte by byte is comparing them code point by code point,
      which is the order [list.sort] uses on [str].
    - The outside world (file system, clock, FFmpeg, the two HTTP services)
      is a record of the files that exist plus a trace of the effects
      performed so far; what the outside world answers is given by oracle
      functions of that trace, so it may differ from call to call.
    - A Python exception is a [Raise] result; [try]/[except] is
      [try_except]. *)

From stdpp Require Import base gmap strings list sorting pretty.
From Stdlib Require Import ZArith Lia Ascii.

Local Open Scope Z_scope.
Local Open Scope nat_scope.

(** ** Python built-ins used by the program *)

Module Py.

(** [str.lower] on the characters that matter for the comparison with the
    ASCII extension list: an upper-case ASCII letter is moved to lower
    case, every other byte is kept. *)
Definition lower_char (c : ascii) : ascii :=
  let n := nat_of_ascii c in
  if (65 <=? n) && (n <=? 90) then ascii_of_nat (n + 32) else c.

Fixpoint lower (s : string) : string :=
  match s with
  | EmptyString => EmptyString
  | String c s' => String (lower_char c) (lower s')
  end.

(** [s.rfind(c)]: index of the last occurrence of [c]; [None] is Python's
    [-1]. *)
Fixpoint rfind (c : ascii) (s : string) : option nat :=
  match s with
  | EmptyString => None
  | String a s' =>
      match rfind c s' with
      | Some i => Some (S i)
      | None => if Ascii.eqb a c then Some 0 else None
      end
  end.

(** [s[i:]] and [s[:i]] for [0 <= i]. *)
Definition slice_from (i : nat) (s : string) : string :=
  String.substring i (String.length s - i) s.
Definition slice_to (i : nat) (s : string) : string :=
  String.substring 0 i s.

(** [s.endswith(suffix)]. *)
Definition endswith (s suffix : string) : bool :=
  let n := String.length s in
  let k := String.length suffix in
  (k <=? n) && String.eqb (slice_from (n - k) s) suffix.

(** [l[:k]] for a Python [int] [k]: a negative bound counts from the
    end. *)
Definition slice_to_Z {A} (k : Z) (l : list A) : list A :=
  if (0 <=? k)%Z then take (Z.to_nat k) l
  else take (length l - Z.to_nat (- k)) l.

(** [list.sort] is stable: an element is inserted in front of the first
    element of the already sorted tail that is not smaller. *)
Section Sort.
Context {A : Type} (leb : A → A → bool).

Fixpoint insert_sorted (x : A) (l : list A) : list A :=
  match l with
  | [] => [x]
  | y :: l' => if leb x y then x :: y :: l' else y :: insert_sorted x l'
  end.

Fixpoint sort (l : list A) : list A :=
  match l with
  | [] => []
  | x :: l' => insert_sorted x (sort l')
  end.
End Sort.

(** [l.sort(key=f)] with integer keys. *)
Definition sort_by_key {A} (key : A → nat) : list A → list A :=
  sort (λ x y, key x <=? key y).

(** A [dict] keeps its keys in insertion order. *)
Module Dict.
Definition t (V : Type) : Type := list (string * V).

Fixpoint get {V} (k : string) (d : t V) : option V :=
  match d with
  | [] => None
  | (k', v) :: d' => if String.eqb k' k then Some v else get k d'
  end.

Definition contains {V} (k : string) (d : t V) : bool :=
  match get k d with Some _ => true | None => false end.

(** [d[k] = v]: an existing key keeps its place, a new one goes last. *)
Fixpoint set {V} (k : string) (v : V) (d : t V) : t V :=
  match d with
  | [] => [(k, v)]
  | (k', v') :: d' =>
      if String.eqb k' k then (k', v) :: d' else (k', v') :: set k v d'
  end.

(** In-place update of the value stored under [k], as in
    [d[k].append(x)]. *)
Fixpoint alter {V} (f : V → V) (k : string) (d : t V) : t V :=
  match d with
  | [] => []
  | (k', v') :: d' =>
      if String.eqb k' k then (k', f v') :: d' else (k', v') :: alter f k d'
  end.

Definition keys {V} (d : t V) : list string := d.*1.
End Dict.

End Py.

(** ** [pathlib]: name, suffix and stem of a path *)

Module Path.

(** Final path component. *)
Definition name (p : string) : string :=
  match Py.rfind "/"%char p with
  | Some i => Py.slice_from (S i) p
  | None => p
  end.

(** [PurePath.suffix]: from the last dot of the name on, unless that dot
    is the first or the last character of the name. *)
Definition suffix (p : string) : string :=
  let n := name p in
  match Py.rfind "."%char n with
  | Some i =>
      if (0 <? i) && (i <? String.length n - 1)
      then Py.slice_from i n else ""
  | None => ""
  end.

(** [PurePath.stem]: the name without its suffix. *)
Definition stem (p : string) : string :=
  let n := name p in
  match Py.rfind "."%char n with
  | Some i =>
      if (0 <? i) && (i <? String.length n - 1)
      then Py.slice_to i n else n
  | None => n
  end.

End Path.

(** What [Path.rglob] yields: a path and whether it is a regular file. *)
Record DirEntry := { entry_path : string; entry_is_file : bool }.

(** The dictionaries stored in [file_groups]. *)
Record FileInfo := {
  fi_path : string;
  fi_extension : string;
  fi_priority : nat
}.

Definition audio_extensions : list string :=
  [".mp3"; ".wav"; ".flac"; ".m4a"; ".ogg"; ".wma"].

(** [{ext: i for i, ext in enumerate(audio_extensions)}] *)
Definition extension_priority : gmap string nat :=
  foldl (λ m '(i, ext), <[ext := i]> m) ∅ (imap pair audio_extensions).

Definition is_audio_extension (ext : string) : bool :=
  bool_decide (ext ∈ audio_extensions).

(** ** JSON values and [json.dumps] *)

(** A JSON document as Python holds it after [response.json()].  Numbers are
    integers here; the program never looks inside a number. *)
#[warnings="-register-all"]
Inductive Json :=
| JNull
| JBool (b : bool)
| JInt (z : Z)
| JStr (s : string)
| JList (l : list Json)
| JDict (d : list (string * Json)).

Module PyJson.

(** Python truthiness: [if x:]. *)
Definition truthy (j : Json) : bool :=
  match j with
  | JNull => false
  | JBool b => b
  | JInt z => negb (z =? 0)%Z
  | JStr s => negb (String.eqb s "")
  | JList l => negb (bool_decide (length l = 0))
  | JDict d => negb (bool_decide (length d = 0))
  end.

(** [d.get(k, dflt)]: only a dictionary has the method, every other value
    raises [AttributeError] ([None] here). *)
Definition get (k : string) (dflt : Json) (j : Json) : option Json :=
  match j with
  | JDict d => Some (default dflt (Py.Dict.get k d))
  | _ => None
  end.

(** The character [U+0022]. *)
Definition dquote : ascii := ascii_of_nat 34.

(** Code points of a UTF-8 string. *)
Fixpoint code_points (s : string) : list N :=
  match s with
  | EmptyString => []
  | String c0 s0 =>
      let b0 := N_of_ascii c0 in
      if (b0 <? 128)%N then b0 :: code_points s0 else
      match s0 with
      | EmptyString => [b0]
      | String c1 s1 =>
          let b1 := (N_of_ascii c1 mod 64)%N in
          if (b0 <? 224)%N then ((b0 mod 32) * 64 + b1)%N :: code_points s1 else
          match s1 with
          | EmptyString => [b0]
          | String c2 s2 =>
              let b2 := (N_of_ascii c2 mod 64)%N in
              if (b0 <? 240)%N
              then ((b0 mod 16) * 4096 + b1 * 64 + b2)%N :: code_points s2 else
              match s2 with
              | EmptyString => [b0]
              | String c3 s3 =>
                  let b3 := (N_of_ascii c3 mod 64)%N in
                  ((b0 mod 8) * 262144 + b1 * 4096 + b2 * 64 + b3)%N
                    :: code_points s3
              end
          end
      end
  end.

Definition hex_digit_lower (n : N) : ascii :=
  if (n <? 10)%N then ascii_of_N (48 + n) else ascii_of_N (87 + n).

(** ['\\u{0:04x}'.format(n)] *)
Definition u_escape (n : N) : string :=
  String "\" (String "u"
    (String (hex_digit_lower (n / 4096 mod 16))
    (String (hex_digit_lower (n / 256 mod 16))
    (String (hex_digit_lower (n / 16 mod 16))
    (String (hex_digit_lower (n mod 16)) ""))))).

(** One character of a string literal, [ensure_ascii=True]. *)
Definition escape_code_point (n : N) : string :=
  if (n =? 92)%N then "\\"
  else if (n =? 34)%N then String "\" (String dquote "")
  else if (n =? 8)%N then "\b"
  else if (n =? 12)%N then "\f"
  else if (n =? 10)%N then "\n"
  else if (n =? 13)%N then "\r"
  else if (n =? 9)%N then "\t"
  else if (32 <=? n)%N && (n <=? 126)%N then String (ascii_of_N n) ""
  else if (n <? 65536)%N then u_escape n
  else
    let m := (n - 65536)%N in
    u_escape (55296 + (m / 1024) mod 1024) +:+ u_escape (56320 + m mod 1024).

Definition quote_char : string := String dquote "".

Definition dumps_str (s : string) : string :=
  quote_char +:+ foldr (λ n acc, escape_code_point n +:+ acc) "" (code_points s)
    +:+ quote_char.

(** [', '.join(items)] *)
Fixpoint join (sep : string) (items : list string) : string :=
  match items with
  | [] => ""
  | [x] => x
  | x :: rest => x +:+ sep +:+ join sep rest
  end.

(** [json.dumps(obj)] with the default separators [", "] and [": "]. *)
Fixpoint dumps (j : Json) : string :=
  match j with
  | JNull => "null"
  | JBool true => "true"
  | JBool false => "false"
  | JInt z => pretty z
  | JStr s => dumps_str s
  | JList l => "[" +:+ join ", " (map dumps l) +:+ "]"
  | JDict d =>
      "{" +:+ join ", " (map (λ kv, dumps_str kv.1 +:+ ": " +:+ dumps kv.2) d)
        +:+ "}"
  end.

End PyJson.

(** ** [urllib.parse]: percent-encoding and its decoder *)

Module Urllib.

Definition is_alnum (c : ascii) : bool :=
  let n := nat_of_ascii c in
  ((48 <=? n) && (n <=? 57)) || ((65 <=? n) && (n <=? 90))
  || ((97 <=? n) && (n <=? 122)).

(** Characters [quote] never encodes: letters, digits and [_.-~]. *)
Definition always_safe (c : ascii) : bool :=
  is_alnum c || bool_decide (c ∈ ["_"; "."; "-"; "~"]%char).

Definition hex_digit_upper (n : nat) : ascii :=
  if n <? 10 then ascii_of_nat (48 + n) else ascii_of_nat (55 + n).

Definition percent_encode (c : ascii) : string :=
  let n := nat_of_ascii c in
  String "%" (String (hex_digit_upper (n / 16))
    (String (hex_digit_upper (n mod 16)) "")).

Fixpoint mem_char (c : ascii) (s : string) : bool :=
  match s with
  | EmptyString => false
  | String a s' => Ascii.eqb a c || mem_char c s'
  end.

(** [quote(s, safe)] *)
Fixpoint quote (safe : string) (s : string) : string :=
  match s with
  | EmptyString => EmptyString
  | String c s' =>
      (if always_safe c || mem_char c safe then String c "" else percent_encode c)
        +:+ quote safe s'
  end.

(** [s.replace(a, b)] for single characters. *)
Fixpoint replace_char (a b : ascii) (s : string) : string :=
  match s with
  | EmptyString => EmptyString
  | String c s' => String (if Ascii.eqb c a then b else c) (replace_char a b s')
  end.

(** [quote_plus(s, safe)] *)
Definition quote_plus (safe : string) (s : string) : string :=
  if mem_char " " s
  then replace_char " " "+" (quote (safe +:+ " ") s)
  else quote safe s.

Fixpoint join (sep : string) (items : list string) : string :=
  match items with
  | [] => ""
  | [x] => x
  | x :: rest => x +:+ sep +:+ join sep rest
  end.

(** [urlencode(pairs, doseq=True)] on string values. *)
Definition urlencode (query : list (string * string)) : string :=
  join "&" (map (λ kv, quote_plus "" kv.1 +:+ "=" +:+ quote_plus "" kv.2) query).

Definition hex_value (c : ascii) : option nat :=
  let n := nat_of_ascii c in
  if (48 <=? n) && (n <=? 57) then Some (n - 48)
  else if (65 <=? n) && (n <=? 70) then Some (n - 55)
  else if (97 <=? n) && (n <=? 102) then Some (n - 87)
  else None.

(** [unquote(s)]: a percent sign followed by two hexadecimal digits is the
    byte they denote, any other percent sign is kept. *)
Fixpoint unquote (s : string) : string :=
  match s with
  | EmptyString => EmptyString
  | String c s' =>
      if Ascii.eqb c "%" then
        match s' with
        | String h1 (String h2 s'') =>
            match hex_value h1, hex_value h2 with
            | Some a, Some b => String (ascii_of_nat (16 * a + b)) (unquote s'')
            | _, _ => String c (unquote s')
            end
        | _ => String c (unquote s')
        end
      else String c (unquote s')
  end.

(** [s.split(sep)] on a single character. *)
Fixpoint split (sep : ascii) (s : string) : list string :=
  match s with
  | EmptyString => [""]
  | String c s' =>
      if Ascii.eqb c sep then "" :: split sep s'
      else match split sep s' with
           | [] => [String c ""]
           | w :: ws => String c w :: ws
           end
  end.

(** [s.split(sep, 1)]: [None] when [sep] does not occur. *)
Fixpoint split_once (sep : ascii) (s : string) : option (string * string) :=
  match s with
  | EmptyString => None
  | String c s' =>
      if Ascii.eqb c sep then Some ("", s')
      else match split_once sep s' with
           | Some (a, b) => Some (String c a, b)
           | None => None
           end
  end.

(** [parse_qsl(qs)] with its defaults: fields without [=] and fields with
    an empty value are skipped, [+] is a space. *)
Definition parse_qsl (qs : string) : list (string * string) :=
  omap (λ name_value,
          match split_once "=" name_value with
          | Some (n, v) =>
              if String.eqb v "" then None
              else Some (unquote (replace_char "+" " " n),
                         unquote (replace_char "+" " " v))
          | None => None
          end)
       (split "&" qs).

End Urllib.

(** ** [requests]: what is sent and how the URL is prepared *)

(** One part of a multipart body: form field, file name, the path whose
    bytes are read, content type. *)
Record FilePart := {
  part_field : string;
  part_filename : string;
  part_source : string;
  part_content_type : string
}.

(** The arguments of [session.post]; [req_api_key] is the [api-key] header
    of the session. *)
Record Request := {
  req_api_key : option string;
  req_url : string;
  req_params : option (list (string * string));
  req_files : list FilePart;
  req_timeout : nat
}.

(** What the server gets once the query string is decoded. *)
Record EffectiveRequest := {
  eff_endpoint : string;
  eff_params : list (string * string);
  eff_files : list FilePart
}.

Module Requests.

Definition unreserved (c : ascii) : bool :=
  Urllib.is_alnum c || bool_decide (c ∈ ["-"; "."; "_"; "~"]%char).

(** [unquote_unreserved]: percent escapes of unreserved characters are
    undone; [None] is [InvalidURL]. *)
Fixpoint unquote_unreserved (s : string) : option string :=
  match s with
  | EmptyString => Some EmptyString
  | String c s' =>
      if Ascii.eqb c "%" then
        match s' with
        | String h1 (String h2 s'') =>
            if Urllib.is_alnum h1 && Urllib.is_alnum h2 then
              match Urllib.hex_value h1, Urllib.hex_value h2 with
              | Some a, Some b =>
                  let ch := ascii_of_nat (16 * a + b) in
                  if unreserved ch then String ch <$> unquote_unreserved s''
                  else String c <$> unquote_unreserved s'
              | _, _ => None
              end
            else String c <$> unquote_unreserved s'
        | _ => String c <$> unquote_unreserved s'
        end
      else String c <$> unquote_unreserved s'
  end.

Definition safe_with_percent : string := "!#$%&'()*+,/:;=?@[]~".
Definition safe_without_percent : string := "!#$&'()*+,/:;=?@[]~".

Definition requote_uri (uri : string) : string :=
  match unquote_unreserved uri with
  | Some u => Urllib.quote safe_with_percent u
  | None => Urllib.quote safe_without_percent uri
  end.

(** A URL cut at its first question mark. *)
Definition split_query (url : string) : string * string :=
  match Urllib.split_once "?" url with
  | Some (head, query) => (head, query)
  | None => (url, "")
  end.

(** [PreparedRequest.prepare_url] for a URL with a path and no fragment:
    the encoded [params] are appended to the query. *)
Definition prepare_url (url : string) (params : option (list (string * string)))
  : string :=
  let enc_params := Urllib.urlencode (default [] params) in
  let '(head, query) := split_query url in
  let query :=
    if String.eqb enc_params "" then query
    else if String.eqb query "" then enc_params
    else query +:+ "&" +:+ enc_params in
  requote_uri (if String.eqb query "" then head else head +:+ "?" +:+ query).

(** The request as the remote service sees it. *)
Definition effective (r : Request) : EffectiveRequest :=
  let url := prepare_url (req_url r) (req_params r) in
  {| eff_endpoint := (split_query url).1;
     eff_params := Urllib.parse_qsl (split_query url).2;
     eff_files := req_files r |}.

End Requests.

(** ** Exceptions *)

(** The exception classes the handlers of the program tell apart;
    [OtherError] is any other subclass of [Exception]. *)
Inductive Exn :=
| TimeoutExpired
| FileNotFoundError
| RequestException
| IndexError
| AttributeError
| OtherError.

(** How a statement ends: with a value, or with an exception. *)
Inductive Res (A : Type) :=
| Ok (a : A)
| Raise (e : Exn).
Arguments Ok {A} a.
Arguments Raise {A} e.

(** An HTTP response: status code and what [response.json()] gives. *)
Record Response := {
  status_code : Z;
  response_json : Res Json
}.

(** The JSON body posted to the webhook. *)
Record WebhookPayload := {
  wp_transcription : Json;
  wp_diarization : Json;
  wp_insights : Json;
  wp_processed_at : Z;
  wp_source : string
}.

(** One element of the list [process_directory] returns. *)
Record ResultEntry := { re_file : string; re_transcription : Json }.

(** ** Console output *)

(** The lines the program prints, with the values they show.  Rules made of
    [=] signs and the sample of the result printed in test mode are left
    out. *)
Inductive Msg :=
| MsgConverting (name : string)
| MsgConverted
| MsgFfmpegFailed (returncode : Z)
| MsgFfmpegTimedOut
| MsgFfmpegNotFound
| MsgConvertError (e : Exn)
| MsgFileNotFound (path : string)
| MsgConvertFailed (path : string)
| MsgProcessing (name : string) (size : nat)
| MsgSending (url : string) (params : option (list (string * string)))
| MsgResponseStatus (code : Z)
| MsgTranscribed
| MsgApiError (code : Z)
| MsgRequestFailed (e : Exn)
| MsgUnexpected (e : Exn)
| MsgDirNotFound (path : string)
| MsgDuplicates (base_name : string) (dropped : list string) (used : string)
| MsgNoUniqueFiles (path : string)
| MsgFound (n : nat)
| MsgProcessingFirst (n : nat)
| MsgProcessingUnique (i n : nat)
| MsgFile (name : string)
| MsgWaiting
| MsgComplete (ok n : nat)
| MsgWebhookSending (endpoint : string)
| MsgWebhookOk
| MsgWebhookFailed (code : Z)
| MsgWebhookError (e : Exn)
| MsgScanning
| MsgListed (i : nat) (name : string)
| MsgTestMode
| MsgTestingWith (path : string)
| MsgTestOk
| MsgTestFailed
| MsgNoAudioFiles (path : string)
| MsgSaved (path : string).

(** ** Effects *)

(** What the program does to the outside world. *)
Inductive Event :=
| EvPrint (m : Msg)
| EvCreate (path : string)
| EvUnlink (path : string)
| EvRun (cmd : list string) (timeout : nat)
| EvPost (r : Request)
| EvWebhook (endpoint : string) (payload : WebhookPayload) (timeout : nat)
| EvSleep (seconds : nat)
| EvWrite (path : string) (results : list ResultEntry).

(** The regular files on disk, and the effects so far, oldest first. *)
Record World := {
  files : gset string;
  trace : list Event
}.

(** The answers of the outside world, each a function of what has happened
    so far. *)
Record Env := {
  (** [Path(d).rglob('*')], or [None] when [os.path.exists(d)] is false *)
  env_rglob : list Event → string → option (list DirEntry);
  (** the name [tempfile.NamedTemporaryFile] picks, or its exception *)
  env_mkstemp : list Event → Res string;
  (** [subprocess.run]: the return code, or the exception it raises
      ([TimeoutExpired]; [FileNotFoundError] when the executable is
      missing) *)
  env_run : list Event → list string → Res Z;
  env_getsize : list Event → string → nat;
  (** the transcription service *)
  env_api : list Event → Request → Res Response;
  (** the webhook endpoint *)
  env_webhook : list Event → string → WebhookPayload → Res Response;
  (** [time.time()], in whole seconds *)
  env_time : list Event → Z
}.

(** A statement: it changes the world and ends with a value or with an
    exception; the effects made before an exception stay. *)
Definition M (A : Type) : Type := World → Res A * World.

Definition ret {A} (a : A) : M A := λ w, (Ok a, w).
Definition raise {A} (e : Exn) : M A := λ w, (Raise e, w).
Definition bind {A B} (m : M A) (k : A → M B) : M B :=
  λ w, match m w with
       | (Ok a, w') => k a w'
       | (Raise e, w') => (Raise e, w')
       end.

(** [try: body except Exception as e: handler e] *)
Definition try_except {A} (body : M A) (handler : Exn → M A) : M A :=
  λ w, match body w with
       | (Ok a, w') => (Ok a, w')
       | (Raise e, w') => handler e w'
       end.

(** The outcome of a statement as a value: used where the handlers need to
    know how far the [try] body got. *)
Definition attempt {A} (m : M A) : M (Res A) :=
  λ w, let '(r, w') := m w in (Ok r, w').

Definition lift {A} (r : Res A) : M A := λ w, (r, w).

Declare Scope prog_scope.
Delimit Scope prog_scope with prog.
Bind Scope prog_scope with M.
Notation "x ← m ; k" := (bind m (λ x, k))
  (at level 20, m at level 100, k at level 200, only parsing) : prog_scope.
Notation "m ;; k" := (bind m (λ _, k))
  (at level 100, k at level 200, only parsing, right associativity) : prog_scope.
Local Open Scope prog_scope.

Definition emit (ev : Event) : M unit :=
  λ w, (Ok (), {| files := files w; trace := trace w ++ [ev] |}).

Definition print (m : Msg) : M unit := emit (EvPrint m).

(** Ask the outside world, given the history. *)
Definition ask {A} (f : list Event → A) : M A := λ w, (Ok (f (trace w)), w).

Definition when (b : bool) (m : M unit) : M unit := if b then m else ret ().

Module Os.

(** [os.path.basename] *)
Definition basename (p : string) : string := Path.name p.

(** [os.path.exists] on a regular file. *)
Definition path_exists (p : string) : M bool :=
  λ w, (Ok (bool_decide (p ∈ files w)), w).

(** [os.unlink] *)
Definition unlink (p : string) : M unit :=
  λ w, if bool_decide (p ∈ files w)
       then (Ok (), {| files := files w ∖ {[p]}; trace := trace w ++ [EvUnlink p] |})
       else (Raise FileNotFoundError, w).

(** [os.path.getsize] *)
Definition getsize (env : Env) (p : string) : M nat :=
  λ w, if bool_decide (p ∈ files w)
       then (Ok (env_getsize env (trace w) p), w)
       else (Raise FileNotFoundError, w).

(** [open(p, 'rb')] *)
Definition open_rb (p : string) : M unit :=
  λ w, if bool_decide (p ∈ files w) then (Ok (), w)
       else (Raise FileNotFoundError, w).

(** [tempfile.NamedTemporaryFile(suffix=..., delete=False)]: the file is
    created and stays on disk when the [with] block is left. *)
Definition named_temporary_file (env : Env) : M string :=
  λ w, match env_mkstemp env (trace w) with
       | Ok p => (Ok p, {| files := files w ∪ {[p]};
                           trace := trace w ++ [EvCreate p] |})
       | Raise e => (Raise e, w)
       end.

(** [subprocess.run(cmd, timeout=...)]: the transcoder writes its output
    path and nothing else. *)
Definition subprocess_run (env : Env) (cmd : list string) (timeout : nat) : M Z :=
  emit (EvRun cmd timeout);; r ← ask (λ tr, env_run env tr cmd); lift r.

(** [time.sleep] *)
Definition sleep (seconds : nat) : M unit := emit (EvSleep seconds).

End Os.

(** ** class [TalkIntelTranscriber] *)

Record TalkIntelTranscriber := {
  api_key : option string;
  base_url : string
}.

(** [__init__] *)
Definition new_transcriber (key : option string) : TalkIntelTranscriber :=
  {| api_key := key; base_url := "https://api.sippulse.ai" |}.

(** The analysis configuration; both branches of [transcribe_file] bind the
    same two literals. *)
Definition insights : Json :=
  JDict [
    ("summarization", JBool true);
    ("topic_detection", JDict [("topics", JList [])]);
    ("sentiment_analysis", JDict [
       ("sentiments", JList (JStr <$> [
          "alegria"; "confiança"; "medo"; "surpresa"; "tristeza"; "repugnância";
          "raiva"; "antecipação"; "neutro"; "frustração"; "satisfação";
          "empolgação"; "decepção"; "curiosidade"; "amor"; "ódio"; "tédio";
          "confusão"; "constrangimento"; "culpa"]))]);
    ("custom", JList [
       JDict [("type", JStr "string");
              ("title", JStr "agent");
              ("description",
               JStr "Identifique o nome do agente se houver sido falado.")];
       JDict [("type", JStr "string");
              ("title", JStr "client");
              ("description",
               JStr "Identifique o nome do cliente se tiver sido falado")];
       JDict [("type", JStr "boolean");
              ("title", JStr "resolution");
              ("description", JStr "O problema foi resolvido?")]])
  ].

Definition anonymize : Json :=
  JDict [
    ("sequence", JInt 3);
    ("entities", JList (JStr <$> ["CNPJ"; "CPF"; "CREDIT_CARD"; "LOCATION"]))
  ].

(** The [url] and [params] that [transcribe_file] prepares. *)
Definition request_shape (self : TalkIntelTranscriber) (use_preset : bool)
  : string * option (list (string * string)) :=
  if use_preset then
    let insights_encoded := Urllib.quote "/" (PyJson.dumps insights) in
    let anonymize_encoded := Urllib.quote "/" (PyJson.dumps anonymize) in
    (base_url self
       +:+ "/asr/transcribe?model=pulse-precision&language=pt&response_format=diarization&insights="
       +:+ insights_encoded +:+ "&anonymize=" +:+ anonymize_encoded,
     None)
  else
    (base_url self +:+ "/asr/transcribe",
     Some [("model", "pulse-precision");
           ("language", "pt");
           ("response_format", "diarization");
           ("insights", PyJson.dumps insights);
           ("anonymize", PyJson.dumps anonymize)]).

(** [if params:] on an optional dictionary. *)
Definition params_truthy (params : option (list (string * string))) : bool :=
  match params with
  | Some (_ :: _) => true
  | _ => false
  end.

(** The call of [session.post] made by [transcribe_file]. *)
Definition upload_request (self : TalkIntelTranscriber) (use_preset : bool)
    (file_name actual_file_path : string) : Request :=
  let '(url, params) := request_shape self use_preset in
  {| req_api_key := api_key self;
     req_url := url;
     req_params := if params_truthy params then params else None;
     req_files := [{| part_field := "file";
                      part_filename := file_name;
                      part_source := actual_file_path;
                      part_content_type := "audio/mpeg" |}];
     req_timeout := 300 |}.

(** [if s:] on an optional string. *)
Definition str_truthy (s : option string) : bool :=
  match s with
  | Some s => negb (String.eqb s "")
  | None => false
  end.

(** [if result:] on what [transcribe_file] returns. *)
Definition result_truthy (r : option Json) : bool :=
  match r with
  | Some j => PyJson.truthy j
  | None => false
  end.

(** [if max_files:] *)
Definition int_truthy (n : option Z) : bool :=
  match n with
  | Some k => negb (k =? 0)%Z
  | None => false
  end.

(** The body of the first loop of [get_unique_files]. *)
Definition add_file (file_groups : Py.Dict.t (list FileInfo)) (file_path : DirEntry)
  : Py.Dict.t (list FileInfo) :=
  let extension := Py.lower (Path.suffix (entry_path file_path)) in
  if entry_is_file file_path && is_audio_extension extension then
    let base_name := Path.stem (entry_path file_path) in
    let file_groups :=
      if negb (Py.Dict.contains base_name file_groups)
      then Py.Dict.set base_name [] file_groups else file_groups in
    Py.Dict.alter
      (λ l, l ++ [{| fi_path := entry_path file_path;
                     fi_extension := extension;
                     fi_priority := default 999 (extension_priority !! extension) |}])
      base_name file_groups
  else file_groups.

(** The second loop of [get_unique_files]; [files[0]] on an empty list is an
    [IndexError]. *)
Fixpoint select_best (groups : Py.Dict.t (list FileInfo)) (unique_files : list string)
  : M (list string) :=
  match groups with
  | [] => ret unique_files
  | (base_name, files) :: rest =>
      let files := Py.sort_by_key fi_priority files in
      match files with
      | [] => raise IndexError
      | best_file :: others =>
          when (1 <? length files)
            (print (MsgDuplicates base_name (fi_extension <$> others)
                      (fi_extension best_file)));;
          select_best rest (unique_files ++ [fi_path best_file])
      end
  end.

Section Transcriber.

Context (env : Env) (self : TalkIntelTranscriber).

(** The clean-up that follows every failure report. *)
Definition remove_if_exists (p : string) : M unit :=
  b ← Os.path_exists p; when b (Os.unlink p).

Definition ffmpeg_cmd (input_file output_file : string) : list string :=
  ["ffmpeg"; "-i"; input_file; "-acodec"; "libmp3lame"; "-ab"; "128k";
   "-ar"; "16000"; "-ac"; "1"; "-y"; output_file].

(** The [try] body of [convert_audio_with_ffmpeg] once [output_file] is
    bound. *)
Definition convert_try (input_file output_file : string) : M (option string) :=
  print (MsgConverting (Os.basename input_file));;
  returncode ← Os.subprocess_run env (ffmpeg_cmd input_file output_file) 60;
  if (returncode =? 0)%Z then
    print MsgConverted;;
    ret (Some output_file)
  else
    print (MsgFfmpegFailed returncode);;
    remove_if_exists output_file;;
    ret None.

(** The three [except] clauses; [output_file] is [None] while the name is
    not in [locals()]. *)
Definition convert_except (output_file : option string) (e : Exn)
  : M (option string) :=
  match e with
  | TimeoutExpired =>
      print MsgFfmpegTimedOut;;
      match output_file with Some p => remove_if_exists p | None => ret () end;;
      ret None
  | FileNotFoundError =>
      print MsgFfmpegNotFound;;
      ret None
  | _ =>
      print (MsgConvertError e);;
      match output_file with Some p => remove_if_exists p | None => ret () end;;
      ret None
  end.

Definition convert_audio_with_ffmpeg (input_file : string) : M (option string) :=
  created ← attempt (Os.named_temporary_file env);
  match created with
  | Raise e => convert_except None e
  | Ok output_file =>
      try_except (convert_try input_file output_file)
                 (convert_except (Some output_file))
  end.

(** The [try] body of [transcribe_file]. *)
Definition upload_try (use_preset : bool) (file_name converted_file : string)
  : M (option Json) :=
  Os.open_rb converted_file;;
  let r := upload_request self use_preset file_name converted_file in
  print (MsgSending (req_url r) (request_shape self use_preset).2);;
  emit (EvPost r);;
  posted ← ask (λ tr, env_api env tr r);
  response ← lift posted;
  print (MsgResponseStatus (status_code response));;
  if (status_code response =? 200)%Z then
    result ← lift (response_json response);
    print MsgTranscribed;;
    remove_if_exists converted_file;;
    ret (Some result)
  else
    print (MsgApiError (status_code response));;
    remove_if_exists converted_file;;
    ret None.

Definition upload_except (converted_file : string) (e : Exn) : M (option Json) :=
  match e with
  | RequestException =>
      print (MsgRequestFailed e);;
      remove_if_exists converted_file;;
      ret None
  | _ =>
      print (MsgUnexpected e);;
      remove_if_exists converted_file;;
      ret None
  end.

Definition transcribe_file (audio_file_path : string) (use_preset : bool)
  : M (option Json) :=
  found ← Os.path_exists audio_file_path;
  if negb found then
    print (MsgFileNotFound audio_file_path);;
    ret None
  else
    converted ← convert_audio_with_ffmpeg audio_file_path;
    if negb (str_truthy converted) then
      print (MsgConvertFailed audio_file_path);;
      ret None
    else
      let converted_file := default "" converted in
      let file_name := Os.basename audio_file_path in
      file_size ← Os.getsize env converted_file;
      print (MsgProcessing file_name file_size);;
      try_except (upload_try use_preset file_name converted_file)
                 (upload_except converted_file).

Definition get_unique_files (directory_path : string) : M (list string) :=
  listing ← ask (λ tr, env_rglob env tr directory_path);
  match listing with
  | None =>
      print (MsgDirNotFound directory_path);;
      ret []
  | Some entries =>
      let file_groups := foldl add_file [] entries in
      unique_files ← select_best file_groups [];
      ret (Py.sort String.leb unique_files)
  end.

Definition send_to_webhook (transcription_data : Json) (webhook_endpoint : string)
  : M bool :=
  try_except
    (print (MsgWebhookSending webhook_endpoint);;
     let field k dflt :=
       match PyJson.get k dflt transcription_data with
       | Some v => ret v
       | None => raise AttributeError
       end in
     transcript ← field "transcript" (JStr "");
     diarization ← field "diarization" (JList []);
     insights ← field "insights" (JDict []);
     now ← ask (env_time env);
     let webhook_payload :=
       {| wp_transcription := transcript;
          wp_diarization := diarization;
          wp_insights := insights;
          wp_processed_at := now;
          wp_source := "sippulse_ai_batch_processor" |} in
     emit (EvWebhook webhook_endpoint webhook_payload 30);;
     posted ← ask (λ tr, env_webhook env tr webhook_endpoint webhook_payload);
     response ← lift posted;
     if (status_code response =? 200)%Z then
       print MsgWebhookOk;;
       ret true
     else
       print (MsgWebhookFailed (status_code response));;
       ret false)
    (λ e, print (MsgWebhookError e);; ret false).

(** One round of the loop of [process_directory]; [i] counts from 1 and
    [n] is [len(unique_files)]. *)
Definition process_file (webhook_endpoint : option string) (i n : nat)
    (audio_file : string) (results : list ResultEntry) : M (list ResultEntry) :=
  print (MsgProcessingUnique i n);;
  print (MsgFile (Os.basename audio_file));;
  result ← transcribe_file audio_file true;
  results ←
    (if result_truthy result then
       let results :=
         results ++ [{| re_file := audio_file;
                        re_transcription := default JNull result |}] in
       (if str_truthy webhook_endpoint
        then send_to_webhook (default JNull result) (default "" webhook_endpoint);;
             ret ()
        else ret ());;
       ret results
     else ret results);
  when (i <? n) (print MsgWaiting;; Os.sleep 2);;
  ret results.

Fixpoint process_loop (webhook_endpoint : option string) (i n : nat)
    (unique_files : list string) (results : list ResultEntry)
  : M (list ResultEntry) :=
  match unique_files with
  | [] => ret results
  | audio_file :: rest =>
      results ← process_file webhook_endpoint i n audio_file results;
      process_loop webhook_endpoint (S i) n rest results
  end.

Definition process_directory (directory_path : string)
    (webhook_endpoint : option string) (max_files : option Z)
  : M (list ResultEntry) :=
  unique_files ← get_unique_files directory_path;
  match unique_files with
  | [] =>
      print (MsgNoUniqueFiles directory_path);;
      ret []
  | _ :: _ =>
      print (MsgFound (length unique_files));;
      unique_files ←
        (if int_truthy max_files then
           let unique_files := Py.slice_to_Z (default 0%Z max_files) unique_files in
           print (MsgProcessingFirst (length unique_files));;
           ret unique_files
         else ret unique_files);
      results ← process_loop webhook_endpoint 1 (length unique_files) unique_files [];
      print (MsgComplete (length results) (length unique_files));;
      ret results
  end.

End Transcriber.

(** ** The command line *)

Record Args := {
  arg_directory : string;
  arg_api_key : option string;
  arg_webhook : option string;
  arg_max_files : option Z;
  arg_test : bool;
  arg_no_preset : bool;
  arg_list_files : bool
}.

(** [key=lambda x: (0 if x.endswith('.mp3') else 1, x)] as a comparison. *)
Definition test_key_leb (x y : string) : bool :=
  let kx := if Py.endswith x ".mp3" then 0 else 1 in
  let ky := if Py.endswith y ".mp3" then 0 else 1 in
  (kx <? ky) || ((kx =? ky) && String.leb x y).

(** [with open(output_file, 'w') as f: json.dump(results, f, ...)] *)
Definition write_results (path : string) (results : list ResultEntry) : M unit :=
  λ w, (Ok (), {| files := files w ∪ {[path]};
                   trace := trace w ++ [EvWrite path results] |}).

Fixpoint print_listing (i : nat) (unique_files : list string) : M unit :=
  match unique_files with
  | [] => ret ()
  | file_path :: rest =>
      print (MsgListed i (Os.basename file_path));;
      print_listing (S i) rest
  end.

Definition main (env : Env) (args : Args) : M unit :=
  let transcriber := new_transcriber (arg_api_key args) in
  if arg_list_files args then
    print MsgScanning;;
    unique_files ← get_unique_files env (arg_directory args);
    match unique_files with
    | [] => print (MsgNoUniqueFiles (arg_directory args))
    | _ :: _ =>
        print (MsgFound (length unique_files));;
        print_listing 1 unique_files
    end
  else if arg_test args then
    print MsgTestMode;;
    listing ← ask (λ tr, env_rglob env tr (arg_directory args));
    let test_file :=
      match listing with
      | None => None
      | Some entries =>
          let audio_files :=
            entry_path <$>
              filter (λ e, entry_is_file e
                           && is_audio_extension (Py.lower (Path.suffix (entry_path e))))
                     entries in
          head (Py.sort test_key_leb audio_files)
      end in
    if str_truthy test_file then
      let test_file := default "" test_file in
      print (MsgTestingWith test_file);;
      result ← transcribe_file env transcriber test_file (negb (arg_no_preset args));
      if result_truthy result then print MsgTestOk else print MsgTestFailed
    else print (MsgNoAudioFiles (arg_directory args))
  else
    results ← process_directory env transcriber (arg_directory args)
                (arg_webhook args) (arg_max_files args);
    match results with
    | [] => ret ()
    | _ :: _ =>
        now ← ask (env_time env);
        let output_file := "transcription_results_" +:+ pretty now +:+ ".json" in
        write_results output_file results;;
        print (MsgSaved output_file)
    end.

(** ** A concrete outside world, for running the model

    The directory [calls] holds [a.wav], [a.flac], [a.mp3], [b.ogg] and a
    sub-directory; temporary files are numbered by the length of the history;
    FFmpeg and both services answer as the fields say. *)

Definition demo_listing : list DirEntry :=
  [ {| entry_path := "calls/a.wav"; entry_is_file := true |};
    {| entry_path := "calls/sub"; entry_is_file := false |};
    {| entry_path := "calls/a.flac"; entry_is_file := true |};
    {| entry_path := "calls/sub/notes.txt"; entry_is_file := true |};
    {| entry_path := "calls/b.OGG"; entry_is_file := true |};
    {| entry_path := "calls/a.mp3"; entry_is_file := true |} ].

Definition demo_transcript : Json :=
  JDict [("transcript", JStr "bom dia"); ("diarization", JList [])].

Definition demo_env (run : Res Z) (api webhook : Res Response) : Env :=
  {| env_rglob := λ _ d, if String.eqb d "calls" then Some demo_listing else None;
     env_mkstemp := λ tr, Ok ("/tmp/tmp" +:+ pretty (length tr) +:+ ".mp3");
     env_run := λ _ _, run;
     env_getsize := λ _ _, 4096;
     env_api := λ _ _, api;
     env_webhook := λ _ _ _, webhook;
     env_time := λ tr, (1700000000 + Z.of_nat (length tr))%Z |}.

Definition demo_ok : Res Response :=
  Ok {| status_code := 200; response_json := Ok demo_transcript |}.

Definition demo_world : World :=
  {| files := {[ "calls/a.wav"; "calls/a.flac"; "calls/a.mp3"; "calls/b.OGG";
                 "calls/sub/notes.txt" ]};
     trace := [] |}.

Definition demo_args : Args :=
  {| arg_directory := "calls"; arg_api_key := Some "k"; arg_webhook := None;
     arg_max_files := None; arg_test := false; arg_no_preset := false;
     arg_list_files := false |}.

(** A second directory, [batch], with five recordings and no duplicates. *)
Definition batch_listing : list DirEntry :=
  (λ p, {| entry_path := p; entry_is_file := true |})
    <$> ["batch/c3.wav"; "batch/c1.mp3"; "batch/c5.ogg"; "batch/c2.mp3";
         "batch/c4.flac"].

Definition batch_env (run : Res Z) (api webhook : Res Response) : Env :=
  {| env_rglob := λ _ d, if String.eqb d "batch" then Some batch_listing else None;
     env_mkstemp := λ tr, Ok ("/tmp/tmp" +:+ pretty (length tr) +:+ ".mp3");
     env_run := λ _ _, run;
     env_getsize := λ _ _, 4096;
     env_api := λ _ _, api;
     env_webhook := λ _ _ _, webhook;
     env_time := λ tr, (1700000000 + Z.of_nat (length tr))%Z |}.

Definition batch_world : World :=
  {| files := {[ "batch/c1.mp3"; "batch/c2.mp3"; "batch/c3.wav"; "batch/c4.flac";
                 "batch/c5.ogg" ]};
     trace := [] |}.

Definition demo_self : TalkIntelTranscriber := new_transcriber (Some "k").

Definition demo_server_error : Res Response :=
  Ok {| status_code := 500; response_json := Raise OtherError |}.

(** * Vocabulary of the statements

    Functions and predicates used to state and prove the properties: the
    records behind [get_unique_files], views of the trace, and what it means
    for a computation to return or to emit. *)

(** ** Discovery *)

(** The element [l.sort(key=...)] puts first: the earliest one among those
    with the least key. *)
Fixpoint first_min {A} (key : A → nat) (l : list A) : option A :=
  match l with
  | [] => None
  | x :: l' =>
      match first_min key l' with
      | None => Some x
      | Some m => if key x <=? key m then Some x else Some m
      end
  end.

(** The record the first loop of [get_unique_files] builds for a file. *)
Definition info_of (e : DirEntry) : FileInfo :=
  let extension := Py.lower (Path.suffix (entry_path e)) in
  {| fi_path := entry_path e;
     fi_extension := extension;
     fi_priority := default 999 (extension_priority !! extension) |}.

(** The entries the loop keeps: regular files with an audio extension. *)
Definition is_audio_file (e : DirEntry) : bool :=
  entry_is_file e && is_audio_extension (Py.lower (Path.suffix (entry_path e))).

(** What the first loop files for an entry: its stem and its record. *)
Definition candidate (e : DirEntry) : option (string * FileInfo) :=
  if is_audio_file e then Some (Path.stem (entry_path e), info_of e) else None.

(** The records of the audio files of a listing, in the order of the walk. *)
Definition candidates (entries : list DirEntry) : list (string * FileInfo) :=
  omap candidate entries.

(** Adding one record to its group. *)
Definition push (g : Py.Dict.t (list FileInfo)) (kv : string * FileInfo)
  : Py.Dict.t (list FileInfo) :=
  Py.Dict.alter (λ l, l ++ [kv.2]) kv.1
    (if negb (Py.Dict.contains kv.1 g) then Py.Dict.set kv.1 [] g else g).

(** The records filed under [k]. *)
Definition members (k : string) (kvs : list (string * FileInfo)) : list FileInfo :=
  (filter (λ kv, kv.1 = k) kvs).*2.

(** [file_groups] when the first loop is over. *)
Definition file_groups_of (entries : list DirEntry) : Py.Dict.t (list FileInfo) :=
  foldl push [] (candidates entries).

(** The path chosen for a group. *)
Definition best_path (kv : string * list FileInfo) : string :=
  match Py.sort_by_key fi_priority kv.2 with
  | best_file :: _ => fi_path best_file
  | [] => ""
  end.

(** The duplicate report printed for a group, if any. *)
Definition dup_report (kv : string * list FileInfo) : list Event :=
  match Py.sort_by_key fi_priority kv.2 with
  | best_file :: (_ :: _) as others =>
      [EvPrint (MsgDuplicates kv.1 (fi_extension <$> others) (fi_extension best_file))]
  | _ => []
  end.

(** [extension_priority.get(extension, 999)] *)
Definition priority_of (extension : string) : nat :=
  default 999 (extension_priority !! extension).

(** A regular file of the walk with stem [s] and lower-cased suffix [ext]. *)
Definition audio_file_with (s ext : string) (e : DirEntry) : Prop :=
  entry_is_file e = true ∧
  Path.stem (entry_path e) = s ∧
  Py.lower (Path.suffix (entry_path e)) = ext.

(** The audio files of the walk whose stem is [s], in the order of the
    walk. *)
Definition same_stem_files (s : string) (entries : list DirEntry) : list DirEntry :=
  filter (λ e, is_audio_file e = true ∧ Path.stem (entry_path e) = s) entries.

(** ** Worlds and traces *)

(** The world after some more effects. *)
Definition log (evs : list Event) (w : World) : World :=
  {| files := files w; trace := trace w ++ evs |}.

(** The world once [p] has been unlinked. *)
Definition unlinked (p : string) (w : World) : World :=
  {| files := files w ∖ {[p]}; trace := trace w ++ [EvUnlink p] |}.

(** [emits P m]: whatever the world and however [m] ends, [m] only appends
    to the trace, and every event it appends satisfies [P]. *)
Definition emits {A} (P : Event → Prop) (m : M A) : Prop :=
  ∀ w, ∃ evs, trace (m w).2 = trace w ++ evs ∧ Forall P evs.

(** [returns m]: from every world, [m] ends normally. *)
Definition returns {A} (m : M A) : Prop := ∀ w, ∃ a w', m w = (Ok a, w').

(** [ev] unlinks [p]. *)
Definition is_unlink (p : string) (ev : Event) : bool :=
  match ev with EvUnlink q => String.eqb q p | _ => false end.

(** [ev] writes a results file. *)
Definition is_write (ev : Event) : bool :=
  match ev with EvWrite _ _ => true | _ => false end.

(** How many times [p] is unlinked in a stretch of the trace. *)
Definition deletions (p : string) (evs : list Event) : nat :=
  length (filter (λ ev, is_unlink p ev = true) evs).

(** The requests posted to the transcription service. *)
Definition posts (evs : list Event) : list Request :=
  omap (λ ev, match ev with EvPost r => Some r | _ => None end) evs.

(** ** The batch loop *)

(** What the batch loop itself does: the progress lines, and the pauses. *)
Inductive BatchStep :=
| Progress (i n : nat)
| File (name : string)
| Slept (seconds : nat).

(** The step of the loop an event shows, if any. *)
Definition batch_step (ev : Event) : option BatchStep :=
  match ev with
  | EvPrint (MsgProcessingUnique i n) => Some (Progress i n)
  | EvPrint (MsgFile name) => Some (File name)
  | EvSleep seconds => Some (Slept seconds)
  | _ => None
  end.

(** A stretch of the trace as the steps of the loop. *)
Definition batch_view (evs : list Event) : list BatchStep := omap batch_step evs.

(** Events that belong to the processing of one file. *)
Definition inner_event (ev : Event) : Prop :=
  batch_step ev = None ∧ is_write ev = false.

(** What the loop shows for the files it is given, counting from [i]. *)
Fixpoint loop_view (i n : nat) (unique_files : list string) : list BatchStep :=
  match unique_files with
  | [] => []
  | audio_file :: rest =>
      [Progress i n; File (Os.basename audio_file)]
        ++ (if i <? n then [Slept 2] else [])
        ++ loop_view (S i) n rest
  end.

(** The names shown by the loop. *)
Definition files_shown (steps : list BatchStep) : list string :=
  omap (λ s, match s with File name => Some name | _ => None end) steps.

(** One call of [transcribe_file] made by the loop: the file, what the call
    returned, and the worlds before and after it. *)
Record Call := {
  call_file : string;
  call_result : option Json;
  call_before : World;
  call_after : World
}.

(** The call is a run of [transcribe_file] in batch mode. *)
Definition call_ok (env : Env) (self : TalkIntelTranscriber) (c : Call) : Prop :=
  transcribe_file env self (call_file c) true (call_before c)
  = (Ok (call_result c), call_after c).

(** What the loop appends to its result list after a call. *)
Definition kept (c : Call) : list ResultEntry :=
  if result_truthy (call_result c)
  then [{| re_file := call_file c; re_transcription := default JNull (call_result c) |}]
  else [].

(** The calls happen one after the other between the traces [tr] and [tr']:
    each starts after the previous one has ended. *)
Fixpoint sequenced (tr : list Event) (calls : list Call) (tr' : list Event) : Prop :=
  match calls with
  | [] => tr `prefix_of` tr'
  | c :: rest =>
      tr `prefix_of` trace (call_before c) ∧
      trace (call_before c) `prefix_of` trace (call_after c) ∧
      sequenced (trace (call_after c)) rest tr'
  end.

(** An entry of the result list that stands for a successful call of
    [transcribe_file]. *)
Definition succeeded (env : Env) (self : TalkIntelTranscriber) (entry : ResultEntry)
  : Prop :=
  ∃ wa wb,
    transcribe_file env self (re_file entry) true wa
    = (Ok (Some (re_transcription entry)), wb) ∧
    PyJson.truthy (re_transcription entry) = true.

(** ** Requests *)

(** The parameters the service is meant to get. *)
Definition intended_params : list (string * string) :=
  [("model", "pulse-precision"); ("language", "pt");
   ("response_format", "diarization");
   ("insights", PyJson.dumps insights); ("anonymize", PyJson.dumps anonymize)].

(** ** Outcomes of a call *)

(** The line [convert_audio_with_ffmpeg] prints for an exception. *)
Definition convert_message (e : Exn) : Msg :=
  match e with
  | TimeoutExpired => MsgFfmpegTimedOut
  | FileNotFoundError => MsgFfmpegNotFound
  | _ => MsgConvertError e
  end.

(** The line [transcribe_file] prints for an exception of the upload. *)
Definition upload_message (e : Exn) : Msg :=
  match e with
  | RequestException => MsgRequestFailed e
  | _ => MsgUnexpected e
  end.

(** The world in which the transcoder is started: the temporary file is on
    disk and the command has been issued. *)
Definition transcoding (input_file output_file : string) (w : World) : World :=
  {| files := files w ∪ {[output_file]};
     trace := trace w ++ [EvCreate output_file;
                          EvPrint (MsgConverting (Os.basename input_file));
                          EvRun (ffmpeg_cmd input_file output_file) 60] |}.

(** The world in which the upload is answered. *)
Definition uploading (self : TalkIntelTranscriber) (env : Env) (use_preset : bool)
    (audio_file_path converted_file : string) (w1 : World) : World :=
  let r := upload_request self use_preset (Os.basename audio_file_path) converted_file in
  log [EvPrint (MsgProcessing (Os.basename audio_file_path)
                  (env_getsize env (trace w1) converted_file));
       EvPrint (MsgSending (req_url r) (request_shape self use_preset).2);
       EvPost r] w1.

(** Views of a stretch of the trace. *)
Definition sleeps (evs : list Event) : list nat :=
  omap (λ ev, match ev with EvSleep s => Some s | _ => None end) evs.

Definition webhook_posts (evs : list Event) : list (string * WebhookPayload * nat) :=
  omap (λ ev, match ev with EvWebhook ep p t => Some (ep, p, t) | _ => None end) evs.

Definition is_print (ev : Event) : bool :=
  match ev with EvPrint _ => true | _ => false end.

Definition is_webhook (ev : Event) : bool :=
  match ev with EvWebhook _ _ _ => true | _ => false end.

Definition is_sleep (ev : Event) : bool :=
  match ev with EvSleep _ => true | _ => false end.

(** The payload [send_to_webhook] builds from the object [d] when the
    history is [tr]. *)
Definition webhook_payload_of (env : Env) (d : Py.Dict.t Json) (tr : list Event)
  : WebhookPayload :=
  {| wp_transcription := default (JStr "") (Py.Dict.get "transcript" d);
     wp_diarization := default (JList []) (Py.Dict.get "diarization" d);
     wp_insights := default (JDict []) (Py.Dict.get "insights" d);
     wp_processed_at := env_time env tr;
     wp_source := "sippulse_ai_batch_processor" |}.

(** The world after the pause of round [i] of [n]. *)
Definition paused (i n : nat) (w : World) : World :=
  if i <? n then log [EvPrint MsgWaiting; EvSleep 2] w else w.

(** What the webhook is sent as transcript for an entry of the result
    list: only an object is forwarded. *)
Definition forwarded (entry : ResultEntry) : option Json :=
  match re_transcription entry with
  | JDict d => Some (default (JStr "") (Py.Dict.get "transcript" d))
  | _ => None
  end.

(** The pauses among the steps of the loop. *)
Definition pauses (steps : list BatchStep) : list nat :=
  omap (λ s, match s with Slept seconds => Some seconds | _ => None end) steps.

(** What [process_directory] does with a truthy result once it is in the
    list, between the worlds [w] and [w']: a call of [send_to_webhook] when
    an endpoint is given, nothing otherwise. *)
Definition forwards (env : Env) (webhook_endpoint : option string)
    (transcription_data : Json) (w w' : World) : Prop :=
  if str_truthy webhook_endpoint
  then ∃ ok, send_to_webhook env transcription_data (default "" webhook_endpoint) w
             = (Ok ok, w')
  else w' = w.

(** The lines [--list-files] prints for the files, numbered from [i]. *)
Fixpoint listing (i : nat) (unique_files : list string) : list Event :=
  match unique_files with
  | [] => []
  | file_path :: rest =>
      EvPrint (MsgListed i (Os.basename file_path)) :: listing (S i) rest
  end.

(** The numbered names shown in a stretch of the trace. *)
Definition listed (evs : list Event) : list (nat * string) :=
  omap (λ ev, match ev with EvPrint (MsgListed i name) => Some (i, name) | _ => None end)
       evs.

(** The file [--test] picks from a walk, if any. *)
Definition test_file_of (entries : list DirEntry) : option string :=
  head (Py.sort test_key_leb
          (entry_path <$>
             filter (λ e, entry_is_file e
                          && is_audio_extension (Py.lower (Path.suffix (entry_path e))))
                    entries)).

(** ** The calls of a batch, tied to its worlds *)

(** The world in which the loop goes on after a call: the result has been
    forwarded when it is truthy and an endpoint is given. *)
Definition after_forwarding (env : Env) (webhook_endpoint : option string) (c : Call)
  : World :=
  if result_truthy (call_result c) && str_truthy webhook_endpoint
  then (send_to_webhook env (default JNull (call_result c))
          (default "" webhook_endpoint) (call_after c)).2
  else call_after c.

(** [chained env self webhook_endpoint i n w calls w_end]: from the world
    [w], the rounds [i], [i+1], ... of a loop over [n] files are exactly
    the calls [calls], and the last round ends in [w_end].  Each call is made
    in the world left by the previous round, right after the two lines that
    announce its file; each is a run of [transcribe_file]; after it the
    result is forwarded and the loop pauses. *)
Fixpoint chained (env : Env) (self : TalkIntelTranscriber)
    (webhook_endpoint : option string) (i n : nat) (w : World) (calls : list Call)
    (w_end : World) : Prop :=
  match calls with
  | [] => w_end = w
  | c :: rest =>
      call_before c
      = log [EvPrint (MsgProcessingUnique i n);
             EvPrint (MsgFile (Os.basename (call_file c)))] w ∧
      call_ok env self c ∧
      chained env self webhook_endpoint (S i) n
        (paused i n (after_forwarding env webhook_endpoint c)) rest w_end
  end.

(** The commands given to the transcoder in a stretch of the trace. *)
Definition runs (evs : list Event) : list (list string) :=
  omap (λ ev, match ev with EvRun cmd _ => Some cmd | _ => None end) evs.

(** The events of a call. *)
Definition call_events (c : Call) : list Event :=
  drop (length (trace (call_before c))) (trace (call_after c)).

(** The transcoder is started at most once in a call, on the file of the
    call; at most one request is posted, for that file. *)
Definition call_work (self : TalkIntelTranscriber) (c : Call) : Prop :=
  (runs (call_events c) = [] ∨
   ∃ output_file, runs (call_events c) = [ffmpeg_cmd (call_file c) output_file]) ∧
  (posts (call_events c) = [] ∨
   ∃ converted_file,
     posts (call_events c)
     = [upload_request self true (Os.basename (call_file c)) converted_file]).

(** The world after [main] has saved a non-empty result list: the file is
    named after the time at which the batch ended. *)
Definition saved (env : Env) (results : list ResultEntry) (w1 : World) : World :=
  let output_file :=
    "transcription_results_" +:+ pretty (env_time env (trace w1)) +:+ ".json" in
  log [EvPrint (MsgSaved output_file)]
    {| files := files w1 ∪ {[output_file]};
       trace := trace w1 ++ [EvWrite output_file results] |}.

(** * Properties *)

(** ** The model on small inputs *)

Example suffix_upper : Py.lower (Path.suffix "calls/2024/Rec.01.MP3") = ".mp3".
Proof. reflexivity. Qed.
Example stem_nested : Path.stem "calls/2024/Rec.01.MP3" = "Rec.01".
Proof. reflexivity. Qed.
Example suffix_hidden : Path.suffix "calls/.mp3" = "".
Proof. reflexivity. Qed.
Example extension_priority_flac : default 999 (extension_priority !! ".flac") = 2.
Proof. reflexivity. Qed.
Example slice_negative : Py.slice_to_Z (-1) [1; 2; 3] = [1; 2].
Proof. reflexivity. Qed.

Example dumps_accent :
  PyJson.dumps (JDict [("s", JList [JStr "ódio"; JBool true; JInt 3])])
  = "{" +:+ PyJson.quote_char +:+ "s" +:+ PyJson.quote_char +:+ ": ["
      +:+ PyJson.quote_char +:+ "\u00f3dio" +:+ PyJson.quote_char
      +:+ ", true, 3]}".
Proof. vm_compute. reflexivity. Qed.

Example quote_space : Urllib.quote "/" "a b/c?" = "a%20b/c%3F".
Proof. reflexivity. Qed.
Example quote_plus_space : Urllib.quote_plus "" "a b/c?" = "a+b%2Fc%3F".
Proof. reflexivity. Qed.
Example parse_qsl_two :
  Urllib.parse_qsl "language=pt&x=a+b%2Fc%3f&empty=&flag"
  = [("language", "pt"); ("x", "a b/c?")].
Proof. reflexivity. Qed.

(** ** Sorting *)

Section SortFacts.
Context {A : Type} (leb : A → A → bool).

Lemma insert_sorted_Permutation x l : Py.insert_sorted leb x l ≡ₚ x :: l.
Proof.
  induction l as [|y l IH]; simpl; [done|].
  destruct (leb x y); [done|].
  rewrite IH. apply Permutation_swap.
Qed.

Lemma sort_Permutation l : Py.sort leb l ≡ₚ l.
Proof.
  induction l as [|x l IH]; simpl; [done|].
  by rewrite insert_sorted_Permutation, IH.
Qed.

Lemma sort_elem_of x l : x ∈ Py.sort leb l ↔ x ∈ l.
Proof. by rewrite sort_Permutation. Qed.

Lemma sort_length l : length (Py.sort leb l) = length l.
Proof. by rewrite sort_Permutation. Qed.

Context (leb_total : ∀ x y, leb x y = true ∨ leb y x = true)
        (leb_trans : ∀ x y z, leb x y = true → leb y z = true → leb x z = true).

Lemma insert_sorted_StronglySorted x l :
  StronglySorted (λ a b, leb a b = true) l →
  StronglySorted (λ a b, leb a b = true) (Py.insert_sorted leb x l).
Proof.
  induction 1 as [|y l Hsorted IH Hall]; simpl.
  - repeat constructor.
  - destruct (leb x y) eqn:Hxy.
    + constructor; [by constructor|].
      constructor; [done|].
      eapply Forall_impl; [exact Hall|]. intros z Hz. by eapply leb_trans.
    + constructor; [done|].
      rewrite insert_sorted_Permutation. constructor; [|done].
      destruct (leb_total x y); congruence.
Qed.

Lemma sort_StronglySorted l :
  StronglySorted (λ a b, leb a b = true) (Py.sort leb l).
Proof.
  induction l; simpl; [constructor|]. by apply insert_sorted_StronglySorted.
Qed.
End SortFacts.

Lemma StronglySorted_impl {A} (R1 R2 : A → A → Prop) (l : list A) :
  (∀ a b, R1 a b → R2 a b) → StronglySorted R1 l → StronglySorted R2 l.
Proof.
  intros HR. induction 1 as [|x l _ IH Hall]; constructor; [done|].
  eapply Forall_impl; [exact Hall|]. auto.
Qed.

Lemma sort_by_key_head {A} (key : A → nat) (l : list A) :
  head (Py.sort_by_key key l) = first_min key l.
Proof.
  unfold Py.sort_by_key. induction l as [|x l IH]; simpl; [done|].
  rewrite <-IH. destruct (Py.sort _ l) as [|y l']; simpl; [done|].
  by destruct (key x <=? key y).
Qed.

Lemma sort_by_key_StronglySorted {A} (key : A → nat) (l : list A) :
  StronglySorted (λ a b, key a ≤ key b) (Py.sort_by_key key l).
Proof.
  unfold Py.sort_by_key.
  eapply (StronglySorted_impl (λ a b, (key a <=? key b) = true)).
  - intros a b. apply Nat.leb_le.
  - apply sort_StronglySorted.
    + intros x y. rewrite !Nat.leb_le. lia.
    + intros x y z. rewrite !Nat.leb_le. lia.
Qed.

Lemma sort_by_key_Permutation {A} (key : A → nat) (l : list A) :
  Py.sort_by_key key l ≡ₚ l.
Proof. apply sort_Permutation. Qed.

Lemma sort_strings_StronglySorted (l : list string) :
  StronglySorted String.le (Py.sort String.leb l).
Proof.
  eapply (StronglySorted_impl (λ a b, String.leb a b = true)).
  - intros a b H. unfold String.le. by rewrite H.
  - apply sort_StronglySorted.
    + apply String.leb_total.
    + intros x y z Hxy Hyz.
      assert (String.le x z) as Hxz.
      { transitivity y; unfold String.le; [by rewrite Hxy | by rewrite Hyz]. }
      unfold String.le in Hxz. by destruct (String.leb x z).
Qed.

(** ** Insertion-ordered dictionaries *)

Section DictFacts.
Context {V : Type}.
Implicit Types (d : Py.Dict.t V) (k : string) (v : V).

Lemma dict_get_set k k' v d :
  Py.Dict.get k (Py.Dict.set k' v d)
  = if String.eqb k' k then Some v else Py.Dict.get k d.
Proof.
  induction d as [|[k0 v0] d IH]; simpl.
  - destruct (String.eqb_spec k' k); done.
  - destruct (String.eqb_spec k0 k') as [->|Hne]; simpl.
    + destruct (String.eqb_spec k' k); done.
    + destruct (String.eqb_spec k0 k) as [->|]; [|done].
      destruct (String.eqb_spec k' k); congruence.
Qed.

Lemma dict_get_alter (f : V → V) k k' d :
  Py.Dict.get k (Py.Dict.alter f k' d)
  = if String.eqb k' k then f <$> Py.Dict.get k d else Py.Dict.get k d.
Proof.
  induction d as [|[k0 v0] d IH]; simpl.
  - destruct (String.eqb k' k); done.
  - destruct (String.eqb_spec k0 k') as [->|Hne]; simpl.
    + destruct (String.eqb_spec k' k); done.
    + destruct (String.eqb_spec k0 k) as [->|]; [|done].
      destruct (String.eqb_spec k' k); [by destruct Hne|done].
Qed.

Lemma dict_keys_cons k v d : Py.Dict.keys ((k, v) :: d) = k :: Py.Dict.keys d.
Proof. reflexivity. Qed.

Lemma dict_keys_alter (f : V → V) k d :
  Py.Dict.keys (Py.Dict.alter f k d) = Py.Dict.keys d.
Proof.
  induction d as [|[k0 v0] d IH]; [done|].
  cbn [Py.Dict.alter]. destruct (String.eqb k0 k); [done|].
  by rewrite !dict_keys_cons, IH.
Qed.

Lemma dict_get_None k d : Py.Dict.get k d = None ↔ k ∉ Py.Dict.keys d.
Proof.
  induction d as [|[k0 v0] d IH].
  - split; [intros _; apply not_elem_of_nil | done].
  - cbn [Py.Dict.get]. rewrite dict_keys_cons, not_elem_of_cons.
    destruct (String.eqb_spec k0 k) as [->|Hne].
    + split; [done|]. by intros [? _].
    + rewrite IH. split; [by split|]. by intros [_ ?].
Qed.

Lemma dict_keys_set_new k v d :
  Py.Dict.get k d = None → Py.Dict.keys (Py.Dict.set k v d) = Py.Dict.keys d ++ [k].
Proof.
  induction d as [|[k0 v0] d IH]; [done|].
  cbn [Py.Dict.get Py.Dict.set].
  destruct (String.eqb_spec k0 k) as [->|Hne]; [done|].
  intros H. by rewrite !dict_keys_cons, IH.
Qed.

Lemma dict_get_elem_of k v d : Py.Dict.get k d = Some v → (k, v) ∈ d.
Proof.
  induction d as [|[k0 v0] d IH]; simpl; [done|].
  destruct (String.eqb_spec k0 k) as [->|Hne].
  - intros [= ->]. left.
  - intros H. right. auto.
Qed.

Lemma dict_elem_of_get k v d :
  NoDup (Py.Dict.keys d) → (k, v) ∈ d → Py.Dict.get k d = Some v.
Proof.
  induction d as [|[k0 v0] d IH].
  - intros _ H. by apply elem_of_nil in H.
  - cbn [Py.Dict.get]. rewrite dict_keys_cons, NoDup_cons.
    intros [Hk0 Hnd] [[= -> ->]|Hin]%elem_of_cons.
    + by rewrite String.eqb_refl.
    + destruct (String.eqb_spec k0 k) as [->|Hne]; [|auto].
      exfalso. apply Hk0. apply list_elem_of_fmap. by exists (k, v).
Qed.
End DictFacts.

(** ** Grouping by stem *)

Lemma add_file_push g e :
  add_file g e = match candidate e with Some kv => push g kv | None => g end.
Proof.
  unfold add_file, candidate, is_audio_file, push.
  destruct (entry_is_file e && is_audio_extension _); done.
Qed.

Lemma foldl_add_file g es : foldl add_file g es = foldl push g (omap candidate es).
Proof.
  revert g. induction es as [|e es IH]; intros g; simpl; [done|].
  rewrite IH, add_file_push. by destruct (candidate e).
Qed.

Lemma get_push k g kv :
  Py.Dict.get k (push g kv)
  = if String.eqb kv.1 k then Some (default [] (Py.Dict.get k g) ++ [kv.2])
    else Py.Dict.get k g.
Proof.
  unfold push, Py.Dict.contains. rewrite dict_get_alter.
  destruct (String.eqb_spec kv.1 k) as [<-|Hne].
  - destruct (Py.Dict.get kv.1 g) eqn:Hg; simpl.
    + by rewrite Hg.
    + by rewrite dict_get_set, String.eqb_refl.
  - destruct (Py.Dict.get kv.1 g) eqn:Hg; simpl; [done|].
    rewrite dict_get_set. by destruct (String.eqb_spec kv.1 k).
Qed.

Lemma keys_push g kv :
  Py.Dict.keys (push g kv)
  = if Py.Dict.contains kv.1 g then Py.Dict.keys g else Py.Dict.keys g ++ [kv.1].
Proof.
  unfold push, Py.Dict.contains. rewrite dict_keys_alter.
  destruct (Py.Dict.get kv.1 g) eqn:Hg; simpl; [done|].
  by apply dict_keys_set_new.
Qed.

Lemma keys_push_NoDup g kv :
  NoDup (Py.Dict.keys g) → NoDup (Py.Dict.keys (push g kv)).
Proof.
  rewrite keys_push. unfold Py.Dict.contains.
  destruct (Py.Dict.get kv.1 g) eqn:Hg; [done|].
  intros Hnd. apply NoDup_app. split_and!; [done| |apply NoDup_singleton].
  intros x Hx ->%list_elem_of_singleton. by apply dict_get_None in Hg.
Qed.

Lemma keys_foldl_push_NoDup g kvs :
  NoDup (Py.Dict.keys g) → NoDup (Py.Dict.keys (foldl push g kvs)).
Proof.
  revert g. induction kvs as [|kv kvs IH]; intros g Hg; simpl; [done|].
  apply IH. by apply keys_push_NoDup.
Qed.

Lemma get_foldl_push k g kvs :
  Py.Dict.get k (foldl push g kvs)
  = match members k kvs with
    | [] => Py.Dict.get k g
    | vs => Some (default [] (Py.Dict.get k g) ++ vs)
    end.
Proof.
  unfold members. revert g. induction kvs as [|kv kvs IH]; intros g; simpl; [done|].
  rewrite IH, get_push. rewrite filter_cons.
  destruct (decide (kv.1 = k)) as [Heq|Hne].
  - rewrite fmap_cons, Heq, String.eqb_refl.
    destruct ((filter _ kvs).*2) as [|v vs]; [done|].
    simpl. by rewrite <-app_assoc.
  - destruct (String.eqb_spec kv.1 k); done.
Qed.

(** Every group built by the first loop is non-empty and holds exactly the
    records of its stem, in the order of the walk. *)
Lemma groups_spec k fs kvs :
  (k, fs) ∈ foldl push [] kvs → fs = members k kvs ∧ fs ≠ [].
Proof.
  intros Hin.
  apply dict_elem_of_get in Hin; [|apply keys_foldl_push_NoDup, NoDup_nil_2].
  rewrite get_foldl_push in Hin. simpl in Hin.
  destruct (members k kvs) as [|v vs]; [done|].
  by injection Hin as <-.
Qed.

Lemma groups_lookup k kvs :
  members k kvs ≠ [] → (k, members k kvs) ∈ foldl push [] kvs.
Proof.
  intros Hne. apply dict_get_elem_of. rewrite get_foldl_push. simpl.
  by destruct (members k kvs).
Qed.

(** ** Running the model *)

Lemma log_nil w : log [] w = w.
Proof. destruct w. unfold log. simpl. by rewrite app_nil_r. Qed.

Lemma log_log evs1 evs2 w : log evs2 (log evs1 w) = log (evs1 ++ evs2) w.
Proof. unfold log. simpl. by rewrite app_assoc. Qed.

Lemma files_log evs w : files (log evs w) = files w.
Proof. reflexivity. Qed.

Lemma trace_log evs w : trace (log evs w) = trace w ++ evs.
Proof. reflexivity. Qed.

Lemma emit_run ev w : emit ev w = (Ok (), log [ev] w).
Proof. reflexivity. Qed.

Lemma print_run m w : print m w = (Ok (), log [EvPrint m] w).
Proof. reflexivity. Qed.

(** ** [get_unique_files] as a function of the directory listing *)

Lemma select_best_run groups acc w :
  Forall (λ kv : string * list FileInfo, kv.2 ≠ []) groups →
  select_best groups acc w
  = (Ok (acc ++ (best_path <$> groups)), log (concat (dup_report <$> groups)) w).
Proof.
  intros Hne. revert acc w.
  induction Hne as [|[k fs] groups Hfs _ IH]; intros acc w.
  - simpl. by rewrite app_nil_r, log_nil.
  - cbn [select_best]. unfold best_path at 1, dup_report at 1.
    rewrite !fmap_cons. cbn [concat snd fst].
    pose proof (sort_length (λ x y, fi_priority x <=? fi_priority y) fs) as Hlen.
    fold (Py.sort_by_key fi_priority fs) in Hlen.
    destruct (Py.sort_by_key fi_priority fs) as [|b others].
    { destruct fs; [done|discriminate]. }
    unfold bind at 1. destruct others as [|o others].
    + cbn. rewrite IH. by rewrite <-app_assoc.
    + cbn. rewrite IH. unfold log. cbn. by rewrite <-!app_assoc.
Qed.

Lemma file_groups_nonempty entries :
  Forall (λ kv : string * list FileInfo, kv.2 ≠ []) (file_groups_of entries).
Proof.
  apply Forall_forall. intros [k fs] Hin. by apply groups_spec in Hin as [_ ?].
Qed.

Lemma get_unique_files_run env directory_path w :
  get_unique_files env directory_path w
  = match env_rglob env (trace w) directory_path with
    | None => (Ok [], log [EvPrint (MsgDirNotFound directory_path)] w)
    | Some entries =>
        (Ok (Py.sort String.leb (best_path <$> file_groups_of entries)),
         log (concat (dup_report <$> file_groups_of entries)) w)
    end.
Proof.
  unfold get_unique_files, bind, ask.
  destruct (env_rglob env (trace w) directory_path) as [entries|]; [|done].
  rewrite foldl_add_file. fold (candidates entries). fold (file_groups_of entries).
  rewrite select_best_run by apply file_groups_nonempty. done.
Qed.

(** Every record filed by the walk carries the stem of its own path, an
    audio extension and the rank of that extension. *)
Lemma candidates_spec k f entries :
  (k, f) ∈ candidates entries →
  ∃ e, e ∈ entries ∧ candidate e = Some (k, f).
Proof.
  unfold candidates. rewrite list_elem_of_omap. intros (e & ? & ?). eauto.
Qed.

Lemma candidate_Some e k f :
  candidate e = Some (k, f) →
  is_audio_file e = true ∧ k = Path.stem (entry_path e) ∧ f = info_of e.
Proof.
  unfold candidate. destruct (is_audio_file e); [|done]. by intros [= <- <-].
Qed.

Lemma is_audio_file_spec e :
  is_audio_file e = true ↔
  entry_is_file e = true ∧ Py.lower (Path.suffix (entry_path e)) ∈ audio_extensions.
Proof.
  unfold is_audio_file, is_audio_extension.
  rewrite andb_true_iff, bool_decide_eq_true. done.
Qed.

Lemma members_elem_of k f kvs : f ∈ members k kvs ↔ (k, f) ∈ kvs.
Proof.
  unfold members. rewrite list_elem_of_fmap. split.
  - intros ([k' f'] & -> & Hin). apply list_elem_of_filter in Hin as [Hk Hin].
    simpl in Hk. by subst.
  - intros Hin. exists (k, f). split; [done|]. by apply list_elem_of_filter.
Qed.

Lemma best_path_elem_of k fs :
  fs ≠ [] → ∃ b, b ∈ fs ∧ head (Py.sort_by_key fi_priority fs) = Some b
                  ∧ best_path (k, fs) = fi_path b.
Proof.
  intros Hne. unfold best_path. simpl.
  pose proof (sort_by_key_Permutation fi_priority fs) as Hperm.
  destruct (Py.sort_by_key fi_priority fs) as [|b others].
  - apply Permutation_nil_l in Hperm. by subst.
  - exists b. split_and!; [|done|done]. rewrite <-Hperm. left.
Qed.

Lemma stem_best_path entries kv :
  kv ∈ file_groups_of entries → Path.stem (best_path kv) = kv.1.
Proof.
  destruct kv as [k fs]. intros Hin.
  apply groups_spec in Hin as [-> Hne].
  destruct (best_path_elem_of k _ Hne) as (b & Hb & _ & ->).
  apply members_elem_of, candidates_spec in Hb as (e & _ & He).
  by apply candidate_Some in He as (_ & -> & ->).
Qed.

Lemma stems_of_best_paths entries :
  Path.stem <$> (best_path <$> file_groups_of entries)
  = Py.Dict.keys (file_groups_of entries).
Proof.
  unfold Py.Dict.keys. rewrite <-list_fmap_compose.
  apply list_fmap_ext. intros i kv Hkv. simpl.
  eapply stem_best_path, list_elem_of_lookup_2, Hkv.
Qed.

Lemma file_groups_keys_NoDup entries : NoDup (Py.Dict.keys (file_groups_of entries)).
Proof. apply keys_foldl_push_NoDup, NoDup_nil_2. Qed.

(** C6.  Whatever the directory holds, [get_unique_files] returns, and the
    list it returns is sorted in the order of [list.sort] on strings and has
    no two paths with the same stem, wherever in the tree they were found. *)
Theorem get_unique_files_sorted_distinct_stems env directory_path w :
  ∃ unique_files w',
    get_unique_files env directory_path w = (Ok unique_files, w') ∧
    StronglySorted String.le unique_files ∧
    NoDup (Path.stem <$> unique_files).
Proof.
  rewrite get_unique_files_run.
  destruct (env_rglob env (trace w) directory_path) as [entries|].
  - eexists _, _. split_and!; [done| |].
    + apply sort_strings_StronglySorted.
    + rewrite (sort_Permutation String.leb), stems_of_best_paths.
      apply file_groups_keys_NoDup.
  - eexists _, _. split_and!; [done|constructor|constructor].
Qed.

(** ** Format priority *)

Lemma priority_mp3 : priority_of ".mp3" = 0.
Proof. reflexivity. Qed.
Lemma priority_wav : priority_of ".wav" = 1.
Proof. reflexivity. Qed.
Lemma priority_flac : priority_of ".flac" = 2.
Proof. reflexivity. Qed.

Lemma priority_zero_mp3 extension :
  extension ∈ audio_extensions → priority_of extension = 0 → extension = ".mp3".
Proof.
  unfold audio_extensions. intros Hin Hp.
  repeat (apply elem_of_cons in Hin as [->|Hin]; [first [done | by vm_compute in Hp]|]).
  by apply elem_of_nil in Hin.
Qed.

Lemma members_candidates s entries :
  members s (candidates entries) = info_of <$> same_stem_files s entries.
Proof.
  unfold members, candidates, same_stem_files.
  induction entries as [|e entries IH]; [done|].
  cbn [omap list_omap]. unfold candidate at 1. rewrite (filter_cons _ e).
  destruct (is_audio_file e) eqn:He.
  - rewrite filter_cons. cbn [fst].
    destruct (decide (Path.stem (entry_path e) = s)) as [Hs|Hs].
    + rewrite decide_True by done. rewrite !fmap_cons. cbn [snd]. by f_equal.
    + rewrite decide_False by (by intros [_ ?]). done.
  - rewrite decide_False by (by intros [? _]). done.
Qed.

Lemma audio_file_with_candidate s ext e entries :
  e ∈ entries → audio_file_with s ext e → ext ∈ audio_extensions →
  info_of e ∈ members s (candidates entries).
Proof.
  intros Hin (Hfile & Hstem & Hext) Haudio.
  rewrite members_candidates. apply list_elem_of_fmap. exists e. split; [done|].
  apply list_elem_of_filter. split_and!; [|done|done].
  apply is_audio_file_spec. by rewrite Hext.
Qed.

Lemma sorted_head_least {A} (key : A → nat) b others x :
  StronglySorted (λ a c, key a ≤ key c) (b :: others) → x ∈ b :: others →
  key b ≤ key x.
Proof.
  intros Hs Hx. apply StronglySorted_inv in Hs as [_ Hall].
  apply elem_of_cons in Hx as [->|Hx]; [done|].
  by eapply Forall_forall in Hall.
Qed.

(** C1.  When the walk yields a regular [.mp3], [.wav] and [.flac] file of
    one stem [s], [get_unique_files] returns exactly one path of stem [s];
    that path is an [.mp3] file of the walk with that stem; and the
    duplicate report printed for [s] names [.mp3] as the format used and
    lists [.wav] and [.flac] among the dropped ones.  When these three are
    all the audio files of that stem, the path is the one of the [.mp3]
    file and the dropped formats are [.wav], [.flac], in this order. *)
Theorem get_unique_files_prefers_mp3
    env directory_path w entries s e_mp3 e_wav e_flac :
  env_rglob env (trace w) directory_path = Some entries →
  e_mp3 ∈ entries → e_wav ∈ entries → e_flac ∈ entries →
  audio_file_with s ".mp3" e_mp3 →
  audio_file_with s ".wav" e_wav →
  audio_file_with s ".flac" e_flac →
  ∃ unique_files w' p dropped evs,
    get_unique_files env directory_path w = (Ok unique_files, w') ∧
    p ∈ unique_files ∧
    (∀ q, q ∈ unique_files → Path.stem q = s → q = p) ∧
    (∃ e, e ∈ entries ∧ audio_file_with s ".mp3" e ∧ entry_path e = p) ∧
    trace w' = trace w ++ evs ∧
    EvPrint (MsgDuplicates s dropped ".mp3") ∈ evs ∧
    ".wav" ∈ dropped ∧ ".flac" ∈ dropped ∧
    (same_stem_files s entries ≡ₚ [e_mp3; e_wav; e_flac] →
     p = entry_path e_mp3 ∧ dropped = [".wav"; ".flac"]).
Proof.
  intros Hls Hin1 Hin2 Hin3 H1 H2 H3.
  rewrite get_unique_files_run, Hls.
  set (fs := members s (candidates entries)).
  assert (info_of e_mp3 ∈ fs) as Hm1.
  { eapply audio_file_with_candidate; [done..|]. unfold audio_extensions; rewrite !elem_of_cons; auto 10. }
  assert (info_of e_wav ∈ fs) as Hm2.
  { eapply audio_file_with_candidate; [done..|]. unfold audio_extensions; rewrite !elem_of_cons; auto 10. }
  assert (info_of e_flac ∈ fs) as Hm3.
  { eapply audio_file_with_candidate; [done..|]. unfold audio_extensions; rewrite !elem_of_cons; auto 10. }
  assert (fs ≠ []) as Hne by (intros Hnil; rewrite Hnil in Hm1; by apply elem_of_nil in Hm1).
  assert ((s, fs) ∈ file_groups_of entries) as Hgroup by (by apply groups_lookup).
  pose proof (sort_by_key_Permutation fi_priority fs) as Hperm.
  pose proof (sort_by_key_StronglySorted fi_priority fs) as Hsorted.
  destruct (Py.sort_by_key fi_priority fs) as [|b others] eqn:Hsort.
  { apply Permutation_nil_l in Hperm. by subst. }
  assert (∀ e ext, audio_file_with s ext e → fi_extension (info_of e) = ext
                   ∧ fi_priority (info_of e) = priority_of ext) as Hinfo.
  { intros e ext (_ & _ & Hext). unfold info_of, priority_of. simpl. by rewrite Hext. }
  destruct (Hinfo _ _ H1) as [Hx1 Hp1], (Hinfo _ _ H2) as [Hx2 Hp2],
    (Hinfo _ _ H3) as [Hx3 Hp3].
  (* the chosen record is an mp3 file of the walk *)
  assert (b ∈ fs) as Hb by (rewrite <-Hperm; left).
  apply members_elem_of, candidates_spec in Hb as (e & He & Hcand).
  apply candidate_Some in Hcand as (Haudio & Hstem & ->).
  apply is_audio_file_spec in Haudio as [Hfile Hext].
  assert (fi_priority (info_of e) = 0) as Hp0.
  { rewrite <-Hperm in Hm1.
    pose proof (sorted_head_least fi_priority _ _ _ Hsorted Hm1) as Hle.
    rewrite Hp1, priority_mp3 in Hle. lia. }
  assert (fi_extension (info_of e) = ".mp3") as Hmp3.
  { by apply priority_zero_mp3. }
  assert (∀ i, i ∈ fs → fi_extension i ≠ ".mp3" → i ∈ others) as Hother.
  { intros i Hi Hx. rewrite <-Hperm in Hi.
    apply elem_of_cons in Hi as [->|Hi]; [by destruct Hx|done]. }
  assert (info_of e_wav ∈ others) as Ho2 by (apply Hother; [done|by rewrite Hx2]).
  assert (info_of e_flac ∈ others) as Ho3 by (apply Hother; [done|by rewrite Hx3]).
  exists (Py.sort String.leb (best_path <$> file_groups_of entries)),
    (log (concat (dup_report <$> file_groups_of entries)) w),
    (entry_path e), (fi_extension <$> others),
    (concat (dup_report <$> file_groups_of entries)).
  assert (best_path (s, fs) = entry_path e) as Hbest.
  { unfold best_path. cbn [snd]. fold fs. by rewrite Hsort. }
  split_and!.
  - done.
  - apply sort_elem_of. rewrite <-Hbest. apply list_elem_of_fmap. by exists (s, fs).
  - intros q Hq Hqs. apply sort_elem_of, list_elem_of_fmap in Hq as ([k fs'] & -> & Hkv).
    rewrite (stem_best_path entries) in Hqs by done. simpl in Hqs. subst k.
    pose proof (file_groups_keys_NoDup entries) as Hnd.
    apply (dict_elem_of_get _ _ _ Hnd) in Hkv, Hgroup.
    rewrite Hkv in Hgroup. injection Hgroup as ->. done.
  - exists e. split_and!; [done| |done]. split_and!; [done|done|done].
  - reflexivity.
  - apply list_elem_of_In, in_concat. eexists. split.
    + apply list_elem_of_In, list_elem_of_fmap. by exists (s, fs).
    + unfold dup_report. cbn [snd fst]. fold fs. rewrite Hsort.
      destruct others as [|o others']; [by apply elem_of_nil in Ho2|].
      rewrite Hmp3. apply list_elem_of_In. left.
  - rewrite <-Hx2. apply list_elem_of_fmap. eauto.
  - rewrite <-Hx3. apply list_elem_of_fmap. eauto.
  - intros Hthree.
    assert (info_of e :: others ≡ₚ info_of <$> [e_mp3; e_wav; e_flac]) as Hperm3.
    { rewrite Hperm. unfold fs. rewrite members_candidates. by rewrite Hthree. }
    assert (info_of e :: others = info_of <$> [e_mp3; e_wav; e_flac]) as Heq.
    { symmetry. apply (StronglySorted_unique_strong (λ a c, fi_priority a ≤ fi_priority c)).
      - intros x1 x2 Hx1' Hx2' Hle1 Hle2. rewrite Hperm3 in Hx2'.
        assert (fi_priority x1 = fi_priority x2) as Hpe by lia.
        clear -Hx1' Hx2' Hpe Hp1 Hp2 Hp3.
        cbn in Hx1', Hx2'.
        repeat (apply elem_of_cons in Hx1' as [->|Hx1']);
          [..|by apply elem_of_nil in Hx1'];
          (repeat (apply elem_of_cons in Hx2' as [->|Hx2']);
             [..|by apply elem_of_nil in Hx2']);
          first [done | by rewrite ?Hp1, ?Hp2, ?Hp3, ?priority_mp3, ?priority_wav,
                             ?priority_flac in Hpe].
      - cbn. repeat constructor;
          rewrite ?Hp1, ?Hp2, ?Hp3, ?priority_mp3, ?priority_wav, ?priority_flac; lia.
      - done.
      - done. }
    pose proof (f_equal (λ l, fi_path <$> head l) Heq) as Hb'.
    pose proof (f_equal tail Heq) as Ho. cbn [tail fmap list_fmap] in Ho. subst others.
    split.
    + cbn in Hb'. by injection Hb'.
    + cbn [fmap list_fmap]. by rewrite Hx2, Hx3.
Qed.

(** ** What a computation adds to the trace *)

Section Emits.
Context (P : Event → Prop).

Lemma emits_ret {A} (a : A) : emits P (ret a).
Proof. intros w. exists []. by rewrite app_nil_r. Qed.

Lemma emits_raise {A} e : emits P (raise (A:=A) e).
Proof. intros w. exists []. by rewrite app_nil_r. Qed.

Lemma emits_lift {A} (r : Res A) : emits P (lift r).
Proof. intros w. exists []. by rewrite app_nil_r. Qed.

Lemma emits_ask {A} (f : list Event → A) : emits P (ask f).
Proof. intros w. exists []. by rewrite app_nil_r. Qed.

Lemma emits_emit ev : P ev → emits P (emit ev).
Proof. intros Hev w. exists [ev]. split; [done|]. by constructor. Qed.

Lemma emits_print m : P (EvPrint m) → emits P (print m).
Proof. apply emits_emit. Qed.

Lemma emits_bind {A B} (m : M A) (k : A → M B) :
  emits P m → (∀ a, emits P (k a)) → emits P (bind m k).
Proof.
  intros Hm Hk w. unfold bind. destruct (Hm w) as (evs1 & Ht1 & HP1).
  destruct (m w) as [[a|e] w1]; simpl in *.
  - destruct (Hk a w1) as (evs2 & Ht2 & HP2).
    exists (evs1 ++ evs2). rewrite Ht2, Ht1, app_assoc. split; [done|].
    by apply Forall_app.
  - by exists evs1.
Qed.

Lemma emits_try_except {A} (body : M A) (handler : Exn → M A) :
  emits P body → (∀ e, emits P (handler e)) → emits P (try_except body handler).
Proof.
  intros Hm Hk w. unfold try_except. destruct (Hm w) as (evs1 & Ht1 & HP1).
  destruct (body w) as [[a|e] w1]; simpl in *.
  - by exists evs1.
  - destruct (Hk e w1) as (evs2 & Ht2 & HP2).
    exists (evs1 ++ evs2). rewrite Ht2, Ht1, app_assoc. split; [done|].
    by apply Forall_app.
Qed.

Lemma emits_attempt {A} (m : M A) : emits P m → emits P (attempt m).
Proof.
  intros Hm w. unfold attempt. destruct (Hm w) as (evs1 & Ht1 & HP1).
  destruct (m w) as [r w1]. by exists evs1.
Qed.

Lemma emits_when b m : emits P m → emits P (when b m).
Proof. destruct b; [done|]. intros _. apply emits_ret. Qed.

Lemma emits_path_exists p : emits P (Os.path_exists p).
Proof. intros w. exists []. by rewrite app_nil_r. Qed.

Lemma emits_unlink p : P (EvUnlink p) → emits P (Os.unlink p).
Proof.
  intros Hp w. unfold Os.unlink. case_bool_decide; simpl.
  - exists [EvUnlink p]. split; [done|]. by constructor.
  - exists []. by rewrite app_nil_r.
Qed.

Lemma emits_getsize env p : emits P (Os.getsize env p).
Proof.
  intros w. unfold Os.getsize. exists []. rewrite app_nil_r.
  by case_bool_decide.
Qed.

Lemma emits_open_rb p : emits P (Os.open_rb p).
Proof.
  intros w. unfold Os.open_rb. exists []. rewrite app_nil_r.
  by case_bool_decide.
Qed.

Lemma emits_named_temporary_file env :
  (∀ p, P (EvCreate p)) → emits P (Os.named_temporary_file env).
Proof.
  intros Hp w. unfold Os.named_temporary_file.
  destruct (env_mkstemp env (trace w)) as [p|e]; simpl.
  - exists [EvCreate p]. split; [done|]. by constructor.
  - exists []. by rewrite app_nil_r.
Qed.

Lemma emits_write_results path results :
  P (EvWrite path results) → emits P (write_results path results).
Proof. intros Hp w. exists [EvWrite path results]. split; [done|]. by constructor. Qed.

End Emits.

Lemma emits_impl {A} (P Q : Event → Prop) (m : M A) :
  (∀ ev, P ev → Q ev) → emits P m → emits Q m.
Proof.
  intros HPQ Hm w. destruct (Hm w) as (evs & Ht & Hall). exists evs.
  split; [done|]. eapply Forall_impl; [exact Hall|done].
Qed.

(** Routine decomposition of a computation into the rules above. *)
Ltac emits_step :=
  first
    [ apply emits_ret | apply emits_raise | apply emits_lift | apply emits_ask
    | apply emits_path_exists | apply emits_getsize | apply emits_open_rb
    | apply emits_print | apply emits_emit | apply emits_unlink
    | apply emits_named_temporary_file | apply emits_write_results
    | apply emits_when | apply emits_attempt
    | apply emits_bind; [|intros ?] | apply emits_try_except; [|intros ?] ].

Ltac emits_with tac :=
  repeat first
    [ tac
    | emits_step
    | match goal with
      | |- emits _ (if ?b then _ else _) => destruct b
      | |- emits _ (match ?x with _ => _ end) => destruct x
      | |- emits _ (let '(_, _) := ?x in _) => destruct x
      end ].

Ltac emits_auto := emits_with fail.

Section InnerEvents.
Context (env : Env) (self : TalkIntelTranscriber).

Lemma remove_if_exists_emits P p : P (EvUnlink p) → emits P (remove_if_exists p).
Proof. intros Hp. unfold remove_if_exists. emits_auto; done. Qed.

Lemma convert_emits input_file :
  emits inner_event (convert_audio_with_ffmpeg env input_file).
Proof.
  unfold convert_audio_with_ffmpeg, convert_try, convert_except,
    Os.subprocess_run.
  emits_with ltac:(apply remove_if_exists_emits); done.
Qed.

Lemma transcribe_file_emits audio_file_path use_preset :
  emits inner_event (transcribe_file env self audio_file_path use_preset).
Proof.
  unfold transcribe_file, upload_try, upload_except.
  emits_with ltac:(first [apply remove_if_exists_emits | apply convert_emits]);
    done.
Qed.

Lemma send_to_webhook_emits data endpoint :
  emits inner_event (send_to_webhook env data endpoint).
Proof. unfold send_to_webhook. emits_auto; done. Qed.
End InnerEvents.

(** ** Computations that cannot raise *)

Lemma returns_ret {A} (a : A) : returns (ret a).
Proof. intros w. by eexists _, _. Qed.

Lemma returns_print m : returns (print m).
Proof. intros w. by eexists _, _. Qed.

Lemma returns_bind {A B} (m : M A) (k : A → M B) :
  returns m → (∀ a, returns (k a)) → returns (bind m k).
Proof.
  intros Hm Hk w. unfold bind. destruct (Hm w) as (a & w1 & ->). apply Hk.
Qed.

Lemma returns_try_except {A} (body : M A) (handler : Exn → M A) :
  (∀ e, returns (handler e)) → returns (try_except body handler).
Proof.
  intros Hh w. unfold try_except. destruct (body w) as [[a|e] w1].
  - by eexists _, _.
  - apply Hh.
Qed.

Lemma returns_when b m : returns m → returns (when b m).
Proof. destruct b; [done|]. intros _. apply returns_ret. Qed.

Lemma remove_if_exists_returns p : returns (remove_if_exists p).
Proof.
  intros w. unfold remove_if_exists, bind, Os.path_exists, when, Os.unlink. simpl.
  case_bool_decide; simpl; [rewrite bool_decide_true by done|]; by eexists _, _.
Qed.

Lemma elem_of_created (p : string) (X : gset string) : p ∈ X ∪ {[p]}.
Proof. apply elem_of_union. right. by apply elem_of_singleton. Qed.

Lemma not_elem_of_removed (p : string) (X : gset string) : p ∉ X ∖ {[p]}.
Proof. intros [_ Hp]%elem_of_difference. apply Hp. by apply elem_of_singleton. Qed.

Lemma remove_if_exists_run p w :
  remove_if_exists p w = (Ok (), if bool_decide (p ∈ files w) then unlinked p w else w).
Proof.
  unfold remove_if_exists, bind, Os.path_exists, when, Os.unlink. simpl.
  case_bool_decide; simpl; [by rewrite bool_decide_true by done|done].
Qed.

Section Convert.
Context (env : Env).

Lemma convert_except_returns output_file e : returns (convert_except output_file e).
Proof.
  unfold convert_except.
  destruct e, output_file; simpl;
    repeat first [ apply remove_if_exists_returns | apply returns_print
                 | apply returns_ret | apply returns_bind; [|intros ?] ].
Qed.

Lemma convert_returns input_file : returns (convert_audio_with_ffmpeg env input_file).
Proof.
  intros w. unfold convert_audio_with_ffmpeg, bind, attempt.
  destruct (Os.named_temporary_file env w) as [[output_file|e] w1].
  - apply returns_try_except. intros e. apply convert_except_returns.
  - apply convert_except_returns.
Qed.

(** A successful normalisation leaves its output on disk; all it did was
    create the file and run the transcoder. *)
Lemma convert_success input_file w output_file w1 :
  convert_audio_with_ffmpeg env input_file w = (Ok (Some output_file), w1) →
  files w1 = files w ∪ {[output_file]} ∧
  trace w1 = trace w ++ [EvCreate output_file;
                         EvPrint (MsgConverting (Os.basename input_file));
                         EvRun (ffmpeg_cmd input_file output_file) 60;
                         EvPrint MsgConverted].
Proof.
  unfold convert_audio_with_ffmpeg, bind, attempt, Os.named_temporary_file.
  destruct (env_mkstemp env (trace w)) as [p|e].
  - unfold try_except, convert_try, convert_except, Os.subprocess_run, bind,
      print, emit, ask, lift, ret. simpl.
    destruct (env_run env _ _) as [rc|e].
    + destruct (rc =? 0)%Z.
      * intros [= <- <-]. simpl. by rewrite <-!app_assoc.
      * rewrite remove_if_exists_run. simpl. by intros [=].
    + destruct e; simpl; rewrite ?remove_if_exists_run; simpl; by intros [=].
  - unfold convert_except, bind, print, emit, ret.
    destruct e; simpl; by intros [=].
Qed.

(** After a time-out or a non-zero exit status the output file is gone. *)
Lemma convert_failure_cleans_up input_file w output_file :
  env_mkstemp env (trace w) = Ok output_file →
  (let w1 := {| files := files w ∪ {[output_file]};
                trace := trace w ++ [EvCreate output_file;
                                     EvPrint (MsgConverting (Os.basename input_file));
                                     EvRun (ffmpeg_cmd input_file output_file) 60] |} in
   match env_run env (trace w1) (ffmpeg_cmd input_file output_file) with
   | Ok rc => rc ≠ 0%Z
   | Raise e => e = TimeoutExpired
   end) →
  ∃ w', convert_audio_with_ffmpeg env input_file w = (Ok None, w') ∧
        output_file ∉ files w'.
Proof.
  intros Hmk Hrun.
  unfold convert_audio_with_ffmpeg, bind, attempt, Os.named_temporary_file.
  rewrite Hmk.
  unfold try_except, convert_try, convert_except, Os.subprocess_run, bind,
    print, emit, ask, lift, ret. simpl. simpl in Hrun.
  rewrite <-!app_assoc. simpl.
  destruct (env_run env _ _) as [rc|e].
  - apply Z.eqb_neq in Hrun. rewrite Hrun.
    rewrite remove_if_exists_run. simpl.
    rewrite bool_decide_true by apply elem_of_created.
    eexists. split; [done|]. simpl. apply not_elem_of_removed.
  - subst e. simpl. rewrite remove_if_exists_run. simpl.
    rewrite bool_decide_true by apply elem_of_created.
    eexists. split; [done|]. simpl. apply not_elem_of_removed.
Qed.

(** When the transcoder executable is missing the clean-up is skipped:
    the file made by [NamedTemporaryFile] stays. *)
Lemma convert_missing_tool_keeps_file input_file w output_file :
  env_mkstemp env (trace w) = Ok output_file →
  (let w1 := {| files := files w ∪ {[output_file]};
                trace := trace w ++ [EvCreate output_file;
                                     EvPrint (MsgConverting (Os.basename input_file));
                                     EvRun (ffmpeg_cmd input_file output_file) 60] |} in
   env_run env (trace w1) (ffmpeg_cmd input_file output_file) = Raise FileNotFoundError) →
  ∃ w', convert_audio_with_ffmpeg env input_file w = (Ok None, w') ∧
        output_file ∈ files w'.
Proof.
  intros Hmk Hrun.
  unfold convert_audio_with_ffmpeg, bind, attempt, Os.named_temporary_file.
  rewrite Hmk.
  unfold try_except, convert_try, convert_except, Os.subprocess_run, bind,
    print, emit, ask, lift, ret. simpl. simpl in Hrun.
  rewrite <-!app_assoc. simpl.
  rewrite Hrun. simpl. eexists. split; [done|]. simpl. apply elem_of_created.
Qed.
End Convert.

(** ** [transcribe_file] *)

Lemma deletions_app p evs1 evs2 :
  deletions p (evs1 ++ evs2) = deletions p evs1 + deletions p evs2.
Proof. unfold deletions. by rewrite filter_app, length_app. Qed.

Lemma deletions_none p evs :
  Forall (λ ev, is_unlink p ev = false) evs → deletions p evs = 0.
Proof.
  unfold deletions. induction 1 as [|ev evs Hev _ IH]; [done|].
  rewrite filter_cons, decide_False by congruence. done.
Qed.

Lemma deletions_unlink p : deletions p [EvUnlink p] = 1.
Proof.
  unfold deletions. rewrite filter_cons, decide_True; [done|].
  simpl. apply String.eqb_refl.
Qed.

Section Transcribe.
Context (env : Env) (self : TalkIntelTranscriber).

Lemma upload_except_returns converted_file e : returns (upload_except converted_file e).
Proof.
  unfold upload_except.
  destruct e;
    repeat first [ apply remove_if_exists_returns | apply returns_print
                 | apply returns_ret | apply returns_bind; [|intros ?] ].
Qed.

(** The upload, from the moment the converted file is on disk: whatever
    the service answers, the call returns, the converted file is unlinked
    as the very last effect, and it is not unlinked before. *)
Lemma upload_run use_preset file_name converted_file w :
  converted_file ∈ files w →
  ∃ r evs,
    try_except (upload_try env self use_preset file_name converted_file)
               (upload_except converted_file) w
    = (Ok r, unlinked converted_file (log evs w)) ∧
    Forall (λ ev, is_unlink converted_file ev = false) evs.
Proof.
  intros Hin.
  unfold try_except, upload_try, upload_except, Os.open_rb, bind, print, emit,
    ask, lift, ret. simpl.
  rewrite bool_decide_true by done. simpl.
  destruct (env_api env _ _) as [response|e]; simpl.
  - destruct (status_code response =? 200)%Z; simpl.
    + destruct (response_json response) as [result|e]; simpl.
      * rewrite remove_if_exists_run. simpl. rewrite bool_decide_true by done.
        eexists _, [_; _; _; _]. split; [unfold unlinked, log; simpl;
          by rewrite <-!app_assoc|]. repeat constructor.
      * destruct e; simpl; rewrite remove_if_exists_run; simpl;
          rewrite bool_decide_true by done;
          (eexists _, [_; _; _; _]; split; [unfold unlinked, log; simpl;
             by rewrite <-!app_assoc|]; repeat constructor).
    + rewrite remove_if_exists_run. simpl. rewrite bool_decide_true by done.
      eexists _, [_; _; _; _]. split; [unfold unlinked, log; simpl;
        by rewrite <-!app_assoc|]. repeat constructor.
  - destruct e; simpl; rewrite remove_if_exists_run; simpl;
      rewrite bool_decide_true by done;
      (eexists _, [_; _; _]; split; [unfold unlinked, log; simpl;
         by rewrite <-!app_assoc|]; repeat constructor).
Qed.

(** [transcribe_file] once the normalisation has succeeded. *)
Lemma transcribe_file_after_convert audio_file_path use_preset w converted_file w1 :
  audio_file_path ∈ files w →
  convert_audio_with_ffmpeg env audio_file_path w = (Ok (Some converted_file), w1) →
  converted_file ≠ "" →
  transcribe_file env self audio_file_path use_preset w
  = try_except
      (upload_try env self use_preset (Os.basename audio_file_path) converted_file)
      (upload_except converted_file)
      (log [EvPrint (MsgProcessing (Os.basename audio_file_path)
                       (env_getsize env (trace w1) converted_file))] w1).
Proof.
  intros Hin Hconv Hne.
  pose proof (convert_success _ _ _ _ _ Hconv) as [Hfiles _].
  unfold transcribe_file. unfold bind at 1. unfold Os.path_exists at 1.
  rewrite bool_decide_true by done. cbn [negb].
  unfold bind at 1. rewrite Hconv. unfold str_truthy.
  apply String.eqb_neq in Hne. rewrite Hne. cbn [negb default].
  unfold bind at 1, Os.getsize at 1.
  rewrite bool_decide_true by (rewrite Hfiles; apply elem_of_created).
  unfold bind at 1. rewrite print_run. done.
Qed.

Lemma transcribe_file_returns audio_file_path use_preset :
  returns (transcribe_file env self audio_file_path use_preset).
Proof.
  intros w. unfold transcribe_file. unfold bind at 1. unfold Os.path_exists at 1.
  case_bool_decide as Hin; cbn [negb]; [|by eexists _, _].
  destruct (convert_returns env audio_file_path w) as (converted & w1 & Hconv).
  destruct (str_truthy converted) eqn:Htruthy.
  - destruct converted as [converted_file|]; [|done].
    apply negb_true_iff, String.eqb_neq in Htruthy.
    pose proof (transcribe_file_after_convert _ use_preset _ _ _ Hin Hconv Htruthy)
      as Hrun.
    unfold transcribe_file in Hrun. unfold bind at 1 in Hrun.
    unfold Os.path_exists at 1 in Hrun.
    rewrite bool_decide_true in Hrun by done. cbn [negb] in Hrun. rewrite Hrun.
    apply returns_try_except. intros e. apply upload_except_returns.
  - unfold bind at 1. rewrite Hconv, Htruthy. cbn [negb]. by eexists _, _.
Qed.

(** C2.  When the original file exists and its normalisation succeeds,
    [transcribe_file] returns (it does not raise), the events of the call
    unlink the normalised temporary file exactly once, and the file is
    gone when the call returns.  The transcription service is arbitrary
    here: it may answer 200 with or without a JSON body, answer any other
    status, or make [session.post] raise a [RequestException] or any other
    exception. *)
Theorem transcribe_file_deletes_temp_once
    audio_file_path use_preset w converted_file w1 :
  audio_file_path ∈ files w →
  convert_audio_with_ffmpeg env audio_file_path w = (Ok (Some converted_file), w1) →
  converted_file ≠ "" →
  ∃ r w' evs,
    transcribe_file env self audio_file_path use_preset w = (Ok r, w') ∧
    trace w' = trace w ++ evs ∧
    deletions converted_file evs = 1 ∧
    converted_file ∉ files w'.
Proof.
  intros Hin Hconv Hne.
  rewrite (transcribe_file_after_convert _ _ _ _ _ Hin Hconv Hne).
  pose proof (convert_success _ _ _ _ _ Hconv) as [Hfiles Htrace].
  edestruct (upload_run use_preset (Os.basename audio_file_path) converted_file)
    as (r & evs & -> & Hquiet).
  { rewrite files_log, Hfiles. apply elem_of_created. }
  eexists r, _, _. split_and!; [done| | |].
  - unfold unlinked, log. simpl. rewrite Htrace, <-!app_assoc. done.
  - rewrite !deletions_app, deletions_unlink, (deletions_none _ evs) by done.
    done.
  - apply not_elem_of_removed.
Qed.
End Transcribe.

(** ** The batch loop *)

Lemma batch_view_app evs1 evs2 :
  batch_view (evs1 ++ evs2) = batch_view evs1 ++ batch_view evs2.
Proof. apply omap_app. Qed.

Lemma batch_view_inner evs : Forall inner_event evs → batch_view evs = [].
Proof.
  induction 1 as [|ev evs [Hev _] _ IH]; [done|].
  unfold batch_view in *. simpl. by rewrite Hev.
Qed.

Lemma inner_no_write evs :
  Forall inner_event evs → Forall (λ ev, is_write ev = false) evs.
Proof. intros H. eapply Forall_impl; [exact H|]. by intros ev [_ ?]. Qed.

Lemma sequenced_weaken tr0 tr calls tr' :
  tr0 `prefix_of` tr → sequenced tr calls tr' → sequenced tr0 calls tr'.
Proof.
  intros Hpre. destruct calls as [|c rest]; simpl.
  - intros H. by etrans.
  - intros (H1 & H2 & H3). split_and!; [by etrans|done|done].
Qed.

Lemma sequenced_extend tr calls tr' tr'' :
  sequenced tr calls tr' → tr' `prefix_of` tr'' → sequenced tr calls tr''.
Proof.
  revert tr. induction calls as [|c rest IH]; intros tr; simpl.
  - intros H1 H2. by etrans.
  - intros (H1 & H2 & H3) Hpre. split_and!; [done|done|by apply IH].
Qed.

Lemma kept_succeeded env self c :
  call_ok env self c → Forall (succeeded env self) (kept c).
Proof.
  unfold call_ok, kept. intros Hrun.
  destruct (result_truthy (call_result c)) eqn:Htruthy; [|constructor].
  apply Forall_singleton. destruct (call_result c) as [j|] eqn:Hres; [|done].
  eexists _, _. simpl. split; [exact Hrun|done].
Qed.

Lemma kept_all_succeeded env self calls :
  Forall (call_ok env self) calls →
  Forall (succeeded env self) (concat (kept <$> calls)).
Proof.
  induction 1 as [|c calls Hc _ IH]; [constructor|].
  rewrite fmap_cons. cbn [concat]. apply Forall_app. split; [|done].
  by apply kept_succeeded.
Qed.

Lemma kept_files calls entry :
  entry ∈ concat (kept <$> calls) → re_file entry ∈ call_file <$> calls.
Proof.
  induction calls as [|c calls IH]; [by intros ?%elem_of_nil|].
  rewrite !fmap_cons. cbn [concat]. intros [Hin|Hin]%elem_of_app.
  - unfold kept in Hin. destruct (result_truthy (call_result c)).
    + apply list_elem_of_singleton in Hin as ->. left.
    + by apply elem_of_nil in Hin.
  - right. by apply IH.
Qed.

Section Batch.
Context (env : Env) (self : TalkIntelTranscriber).

Lemma send_to_webhook_returns data endpoint : returns (send_to_webhook env data endpoint).
Proof.
  apply returns_try_except. intros e.
  apply returns_bind; [apply returns_print|]. intros _. apply returns_ret.
Qed.

(** One round of the loop: the progress lines, one call of
    [transcribe_file], the entry appended if the call succeeded, the
    webhook if there is one, the pause if the file is not the last. *)
Lemma process_file_run webhook_endpoint i n audio_file results w :
  ∃ c results' w' evs,
    call_file c = audio_file ∧
    call_before c = log [EvPrint (MsgProcessingUnique i n);
                         EvPrint (MsgFile (Os.basename audio_file))] w ∧
    call_ok env self c ∧
    trace (call_before c) `prefix_of` trace (call_after c) ∧
    trace (call_after c) `prefix_of` trace w' ∧
    process_file env self webhook_endpoint i n audio_file results w = (Ok results', w') ∧
    results' = results ++ kept c ∧
    trace w' = trace w ++ evs ∧
    batch_view evs = [Progress i n; File (Os.basename audio_file)]
                       ++ (if i <? n then [Slept 2] else []) ∧
    Forall (λ ev, is_write ev = false) evs.
Proof.
  set (w0 := log [EvPrint (MsgProcessingUnique i n);
                  EvPrint (MsgFile (Os.basename audio_file))] w).
  destruct (transcribe_file_returns env self audio_file true w0) as (result & w1 & Hrun).
  destruct (transcribe_file_emits env self audio_file true w0) as (evs1 & Ht1 & Hin1).
  rewrite Hrun in Ht1. simpl in Ht1.
  exists {| call_file := audio_file; call_result := result;
            call_before := w0; call_after := w1 |}.
  unfold call_ok, kept. cbn [call_file call_result call_before call_after].
  unfold process_file. unfold bind at 1. rewrite print_run.
  unfold bind at 1. rewrite print_run, log_log. cbn [app]. fold w0.
  unfold bind at 1. rewrite Hrun.
  (* the webhook step *)
  assert (∃ w2 evs2,
    (if result_truthy result then
       (if str_truthy webhook_endpoint
        then bind (send_to_webhook env (default JNull result)
                     (default "" webhook_endpoint)) (λ _, ret ())
        else ret ());;
       ret (results ++ [{| re_file := audio_file;
                           re_transcription := default JNull result |}])
     else ret results) w1
    = (Ok (results ++ (if result_truthy result
                       then [{| re_file := audio_file;
                                re_transcription := default JNull result |}]
                       else [])), w2) ∧
    trace w2 = trace w1 ++ evs2 ∧ Forall inner_event evs2) as (w2 & evs2 & Hweb & Ht2 & Hin2).
  { destruct (result_truthy result);
      [|exists w1, []; by rewrite !app_nil_r].
    destruct (str_truthy webhook_endpoint); [|exists w1, []; by rewrite app_nil_r].
    destruct (send_to_webhook_returns (default JNull result)
                (default "" webhook_endpoint) w1) as (b & w2 & Hsend).
    destruct (send_to_webhook_emits env (default JNull result)
                (default "" webhook_endpoint) w1) as (evs2 & Ht2 & Hin2).
    rewrite Hsend in Ht2. simpl in Ht2.
    exists w2, evs2. unfold bind. rewrite Hsend. done. }
  unfold bind at 1. rewrite Hweb.
  assert (trace w0 `prefix_of` trace w1) as Hpre1 by (rewrite Ht1; by eexists).
  destruct (i <? n).
  - eexists _, _, _. split_and!.
    1-4: done. 2-3: done.
    + simpl. rewrite Ht2, <-!app_assoc. by eexists.
    + simpl. rewrite Ht2, Ht1. unfold w0. simpl. by rewrite <-!app_assoc.
    + rewrite !batch_view_app, (batch_view_inner evs1), (batch_view_inner evs2)
        by done. done.
    + repeat first [ apply Forall_app; split | apply inner_no_write; assumption
                   | apply Forall_cons; split; [done|] | apply Forall_nil_2 ].
  - eexists _, _, _. split_and!.
    1-4: done. 2-3: done.
    + simpl. rewrite Ht2. by eexists.
    + simpl. rewrite Ht2, Ht1. unfold w0. simpl. by rewrite <-!app_assoc.
    + rewrite !batch_view_app, (batch_view_inner evs1), (batch_view_inner evs2)
        by done. done.
    + repeat first [ apply Forall_app; split | apply inner_no_write; assumption
                   | apply Forall_cons; split; [done|] | apply Forall_nil_2 ].
Qed.

(** The whole loop: it returns; it calls [transcribe_file] once per file,
    in the order of the list, one call after the other; the result list
    grows by what each call leaves; the loop shows each file once, with a
    pause after every file but the last of the count; it writes
    nothing. *)
Lemma process_loop_run webhook_endpoint n unique_files :
  ∀ i results w,
  ∃ calls results' w' evs,
    process_loop env self webhook_endpoint i n unique_files results w = (Ok results', w') ∧
    call_file <$> calls = unique_files ∧
    Forall (call_ok env self) calls ∧
    sequenced (trace w) calls (trace w') ∧
    results' = results ++ concat (kept <$> calls) ∧
    trace w' = trace w ++ evs ∧
    batch_view evs = loop_view i n unique_files ∧
    Forall (λ ev, is_write ev = false) evs.
Proof.
  induction unique_files as [|audio_file rest IH]; intros i results w.
  - exists [], results, w, [].
    split_and!; [done|done|constructor|simpl; reflexivity|simpl; by rewrite app_nil_r
                |by rewrite app_nil_r|done|constructor].
  - destruct (process_file_run webhook_endpoint i n audio_file results w)
      as (c & results1 & w2 & evs1 & Hfile & Hbefore & Hok & Hpre1 & Hpre2 & Hrun
          & Hres & Ht1 & Hv1 & Hw1).
    destruct (IH (S i) results1 w2)
      as (calls & results2 & w3 & evs2 & Hloop & Hfiles & Hoks & Hseq & Hres2 & Ht2
          & Hv2 & Hw2).
    exists (c :: calls), results2, w3, (evs1 ++ evs2).
    cbn [process_loop]. unfold bind at 1. rewrite Hrun.
    split_and!; [done| | | | | | |].
    + rewrite fmap_cons. by f_equal.
    + by constructor.
    + cbn [sequenced]. split_and!; [|done|].
      * rewrite Hbefore. by eexists.
      * by eapply sequenced_weaken.
    + rewrite fmap_cons. cbn [concat]. by rewrite Hres2, Hres, <-app_assoc.
    + by rewrite Ht2, Ht1, app_assoc.
    + rewrite batch_view_app, Hv1, Hv2. cbn [loop_view]. by rewrite <-!app_assoc.
    + by apply Forall_app.
Qed.

(** [process_directory] from what the discovery returned. *)
Lemma process_directory_run directory_path webhook_endpoint max_files w unique_files w0 :
  get_unique_files env directory_path w = (Ok unique_files, w0) →
  let batch :=
    if int_truthy max_files
    then Py.slice_to_Z (default 0%Z max_files) unique_files else unique_files in
  ∃ calls results w' evs,
    process_directory env self directory_path webhook_endpoint max_files w
    = (Ok results, w') ∧
    call_file <$> calls = match unique_files with [] => [] | _ => batch end ∧
    Forall (call_ok env self) calls ∧
    sequenced (trace w0) calls (trace w') ∧
    results = concat (kept <$> calls) ∧
    trace w' = trace w0 ++ evs ∧
    batch_view evs = match unique_files with
                     | [] => []
                     | _ => loop_view 1 (length batch) batch
                     end ∧
    Forall (λ ev, is_write ev = false) evs.
Proof.
  intros Hfiles batch.
  unfold process_directory. unfold bind at 1. rewrite Hfiles.
  destruct unique_files as [|f unique_files].
  { unfold bind. rewrite print_run. eexists [], [], _, _.
    split_and!; [done|done|constructor| |done|done|done|by repeat constructor].
    simpl. by eexists. }
  unfold bind at 1. rewrite print_run.
  set (l := f :: unique_files) in *.
  assert (∃ w1 evs1,
    (if int_truthy max_files then
       print (MsgProcessingFirst (length (Py.slice_to_Z (default 0%Z max_files) l)));;
       ret (Py.slice_to_Z (default 0%Z max_files) l)
     else ret l) (log [EvPrint (MsgFound (length l))] w0) = (Ok batch, w1) ∧
    trace w1 = trace w0 ++ evs1 ∧ batch_view evs1 = [] ∧
    Forall (λ ev, is_write ev = false) evs1) as (w1 & evs1 & Hcut & Ht1 & Hv1 & Hw1).
  { unfold batch. destruct (int_truthy max_files).
    - unfold bind. rewrite print_run, log_log. eexists _, _.
      split_and!; [done|done|done|by repeat constructor].
    - eexists _, _. split_and!; [done|done|done|by repeat constructor]. }
  unfold bind at 1. rewrite Hcut.
  destruct (process_loop_run webhook_endpoint (length batch) batch 1 [] w1)
    as (calls & results & w2 & evs2 & Hloop & Hcalls & Hoks & Hseq & Hres & Ht2 & Hv2
        & Hw2).
  unfold bind at 1. rewrite Hloop. unfold bind. rewrite print_run.
  eexists calls, results, _, _. split_and!; [done|done|done| |done| | |].
  - eapply sequenced_weaken; [|eapply sequenced_extend; [exact Hseq|]].
    + rewrite Ht1. by eexists.
    + rewrite trace_log. by eexists.
  - rewrite trace_log, Ht2, Ht1, <-!app_assoc. done.
  - rewrite !batch_view_app, Hv1, Hv2. simpl. by rewrite app_nil_r.
  - repeat first [ apply Forall_app; split | assumption
                 | apply Forall_cons; split; [done|] | apply Forall_nil_2 ].
Qed.
End Batch.

(** ** The top-level run *)

Lemma returns_ask {A} (f : list Event → A) : returns (ask f).
Proof. intros w. by eexists _, _. Qed.

Lemma print_listing_returns unique_files : ∀ i, returns (print_listing i unique_files).
Proof.
  induction unique_files as [|f rest IH]; intros i; simpl.
  - apply returns_ret.
  - apply returns_bind; [apply returns_print|]. intros _. apply IH.
Qed.

Lemma print_listing_emits P unique_files :
  (∀ m, P (EvPrint m)) → ∀ i, emits P (print_listing i unique_files).
Proof.
  intros HP. induction unique_files as [|f rest IH]; intros i; simpl.
  - apply emits_ret.
  - apply emits_bind; [by apply emits_print|]. intros _. apply IH.
Qed.

Lemma get_unique_files_returns env directory_path :
  returns (get_unique_files env directory_path).
Proof.
  intros w. rewrite get_unique_files_run.
  destruct (env_rglob env (trace w) directory_path); by eexists _, _.
Qed.

Lemma dup_reports_prints P groups :
  (∀ m, P (EvPrint m)) → Forall P (concat (dup_report <$> groups)).
Proof.
  intros HP. induction groups as [|kv groups IH]; [constructor|].
  rewrite fmap_cons. cbn [concat]. apply Forall_app. split; [|done].
  unfold dup_report. destruct (Py.sort_by_key fi_priority kv.2) as [|b [|o others]];
    repeat constructor. apply HP.
Qed.

Lemma get_unique_files_emits P env directory_path :
  (∀ m, P (EvPrint m)) → emits P (get_unique_files env directory_path).
Proof.
  intros HP w. rewrite get_unique_files_run.
  destruct (env_rglob env (trace w) directory_path) as [entries|]; simpl.
  - eexists. split; [done|]. by apply dup_reports_prints.
  - eexists. split; [done|]. repeat constructor. apply HP.
Qed.

Lemma no_write_not_elem_of evs path results :
  Forall (λ ev, is_write ev = false) evs → EvWrite path results ∉ evs.
Proof.
  intros Hall Hin. eapply Forall_forall in Hall; [|exact Hin]. done.
Qed.

Section Main.
Context (env : Env).

(** Listing and test runs never write a results file. *)
Lemma main_other_modes args w :
  arg_list_files args = true ∨ arg_test args = true →
  ∃ w' evs,
    main env args w = (Ok (), w') ∧ trace w' = trace w ++ evs ∧
    Forall (λ ev, is_write ev = false) evs.
Proof.
  intros Hmode.
  assert (returns (main env args) ∧ emits (λ ev, is_write ev = false) (main env args))
    as [Hret Hemits].
  { unfold main.
    destruct (arg_list_files args); [|destruct (arg_test args); [|by destruct Hmode]].
    - split.
      + apply returns_bind; [apply returns_print|]. intros _.
        apply returns_bind; [apply get_unique_files_returns|]. intros [|f l].
        * apply returns_print.
        * apply returns_bind; [apply returns_print|]. intros _.
          apply print_listing_returns.
      + emits_with ltac:(first [ by apply get_unique_files_emits
                               | by apply print_listing_emits ]); done.
    - split.
      + apply returns_bind; [apply returns_print|]. intros _.
        apply returns_bind; [apply returns_ask|]. intros listing.
        destruct (str_truthy _); [|apply returns_print].
        apply returns_bind; [apply returns_print|]. intros _.
        apply returns_bind; [apply transcribe_file_returns|]. intros result.
        destruct (result_truthy result); apply returns_print.
      + emits_with ltac:(first [ eapply emits_impl;
                                   [|apply transcribe_file_emits]; by intros ? [_ ?] ]);
          done. }
  destruct (Hret w) as ([] & w' & Hrun). destruct (Hemits w) as (evs & Ht & Hall).
  rewrite Hrun in Ht. by exists w', evs.
Qed.

(** A batch run writes the list returned by [process_directory], once,
    when that list is not empty. *)
Lemma main_batch args w results w1 :
  arg_list_files args = false → arg_test args = false →
  process_directory env (new_transcriber (arg_api_key args)) (arg_directory args)
    (arg_webhook args) (arg_max_files args) w = (Ok results, w1) →
  ∃ w' evs,
    main env args w = (Ok (), w') ∧ trace w' = trace w1 ++ evs ∧
    (results = [] → evs = []) ∧
    (∀ path c, EvWrite path c ∈ evs → c = results ∧ results ≠ []).
Proof.
  intros Hlist Htest Hrun. unfold main. rewrite Hlist, Htest.
  unfold bind at 1. rewrite Hrun. destruct results as [|entry results].
  - exists w1, []. rewrite app_nil_r. split_and!; [done|done|done|].
    intros path c Hin. by apply elem_of_nil in Hin.
  - unfold bind, ask, write_results, print, emit. simpl.
    eexists _, [_; _]. split_and!; [done|by rewrite <-app_assoc|done|].
    intros path c Hin.
    apply elem_of_cons in Hin as [[= -> ->]|Hin]; [done|].
    apply elem_of_cons in Hin as [[=]|Hin]. by apply elem_of_nil in Hin.
Qed.
End Main.

(** * Properties of the specification *)

(** ** Discovery *)

Example demo_unique_files :
  (get_unique_files (demo_env (Ok 0%Z) demo_ok demo_ok) "calls" demo_world).1
  = Ok ["calls/a.mp3"; "calls/b.OGG"].
Proof. vm_compute. reflexivity. Qed.

Example batch_unique_files :
  get_unique_files (batch_env (Ok 0%Z) demo_ok demo_ok) "batch" batch_world
  = (Ok ["batch/c1.mp3"; "batch/c2.mp3"; "batch/c3.wav"; "batch/c4.flac";
         "batch/c5.ogg"], batch_world).
Proof. vm_compute. reflexivity. Qed.

(** Two files with the same stem and the same format: the one met first by
    the walk is kept. *)
Example first_seen_wins :
  let listing := (λ p, {| entry_path := p; entry_is_file := true |})
                   <$> ["calls/new/a.mp3"; "calls/a.wav"; "calls/a.mp3"] in
  best_path <$> file_groups_of listing = ["calls/new/a.mp3"] ∧
  concat (dup_report <$> file_groups_of listing)
  = [EvPrint (MsgDuplicates "a" [".mp3"; ".wav"] ".mp3")].
Proof. vm_compute. done. Qed.

Lemma get_unique_files_prefers_mp3_witness :
  ∃ unique_files w' p dropped evs,
    get_unique_files (demo_env (Ok 0%Z) demo_ok demo_ok) "calls" demo_world
    = (Ok unique_files, w') ∧
    p ∈ unique_files ∧
    (∀ q, q ∈ unique_files → Path.stem q = "a" → q = p) ∧
    (∃ e, e ∈ demo_listing ∧ audio_file_with "a" ".mp3" e ∧ entry_path e = p) ∧
    trace w' = trace demo_world ++ evs ∧
    EvPrint (MsgDuplicates "a" dropped ".mp3") ∈ evs ∧
    ".wav" ∈ dropped ∧ ".flac" ∈ dropped ∧
    (same_stem_files "a" demo_listing
       ≡ₚ [ {| entry_path := "calls/a.mp3"; entry_is_file := true |};
            {| entry_path := "calls/a.wav"; entry_is_file := true |};
            {| entry_path := "calls/a.flac"; entry_is_file := true |} ] →
     p = "calls/a.mp3" ∧ dropped = [".wav"; ".flac"]).
Proof.
  apply (get_unique_files_prefers_mp3 (demo_env (Ok 0%Z) demo_ok demo_ok)
           "calls" demo_world demo_listing "a"
           {| entry_path := "calls/a.mp3"; entry_is_file := true |}
           {| entry_path := "calls/a.wav"; entry_is_file := true |}
           {| entry_path := "calls/a.flac"; entry_is_file := true |}).
  - reflexivity.
  - unfold demo_listing. rewrite !elem_of_cons. auto 10.
  - unfold demo_listing. rewrite !elem_of_cons. auto 10.
  - unfold demo_listing. rewrite !elem_of_cons. auto 10.
  - split_and!; reflexivity.
  - split_and!; reflexivity.
  - split_and!; reflexivity.
Defined.

(** ** Normalisation *)

(** C4.  With the transcoder executable missing ([subprocess.run] raises
    [FileNotFoundError]) the function returns [None], but the temporary file
    it created a moment before is still on disk: this handler, unlike the
    two next to it, does not unlink it. *)
Theorem convert_missing_ffmpeg_leaves_temp_file :
  let env := demo_env (Raise FileNotFoundError) demo_ok demo_ok in
  let '(r, w') := convert_audio_with_ffmpeg env "calls/a.wav" demo_world in
  r = Ok None ∧
  trace w' = [EvCreate "/tmp/tmp0.mp3"; EvPrint (MsgConverting "a.wav");
              EvRun (ffmpeg_cmd "calls/a.wav" "/tmp/tmp0.mp3") 60;
              EvPrint MsgFfmpegNotFound] ∧
  bool_decide ("/tmp/tmp0.mp3" ∈ files demo_world) = false ∧
  bool_decide ("/tmp/tmp0.mp3" ∈ files w') = true.
Proof. vm_compute. done. Qed.

(** The two sibling failures do clean up. *)
Example convert_exit_status_cleans_up :
  let env := demo_env (Ok 1%Z) demo_ok demo_ok in
  let '(r, w') := convert_audio_with_ffmpeg env "calls/a.wav" demo_world in
  r = Ok None ∧ bool_decide ("/tmp/tmp0.mp3" ∈ files w') = false.
Proof. vm_compute. done. Qed.

Example convert_timeout_cleans_up :
  let env := demo_env (Raise TimeoutExpired) demo_ok demo_ok in
  let '(r, w') := convert_audio_with_ffmpeg env "calls/a.wav" demo_world in
  r = Ok None ∧ bool_decide ("/tmp/tmp0.mp3" ∈ files w') = false.
Proof. vm_compute. done. Qed.

(** ** Upload *)

Lemma transcribe_file_deletes_temp_once_witness :
  ∃ r w' evs,
    transcribe_file (demo_env (Ok 0%Z) demo_server_error demo_ok) demo_self
      "calls/a.wav" true demo_world = (Ok r, w') ∧
    trace w' = trace demo_world ++ evs ∧
    deletions "/tmp/tmp0.mp3" evs = 1 ∧
    "/tmp/tmp0.mp3" ∉ files w'.
Proof.
  eapply (transcribe_file_deletes_temp_once
            (demo_env (Ok 0%Z) demo_server_error demo_ok) demo_self
            "calls/a.wav" true demo_world "/tmp/tmp0.mp3").
  - apply (bool_decide_unpack _). vm_compute. exact I.
  - vm_compute. reflexivity.
  - discriminate.
Defined.

Example transcribe_ok_trace :
  let env := demo_env (Ok 0%Z) demo_ok demo_ok in
  let '(r, w') := transcribe_file env demo_self "calls/a.wav" true demo_world in
  r = Ok (Some demo_transcript) ∧
  deletions "/tmp/tmp0.mp3" (trace w') = 1 ∧
  last (trace w') = Some (EvUnlink "/tmp/tmp0.mp3").
Proof. vm_compute. done. Qed.

Example transcribe_network_error_trace :
  let env := demo_env (Ok 0%Z) (Raise RequestException) demo_ok in
  let '(r, w') := transcribe_file env demo_self "calls/a.wav" true demo_world in
  r = Ok None ∧
  deletions "/tmp/tmp0.mp3" (trace w') = 1 ∧
  last (trace w') = Some (EvUnlink "/tmp/tmp0.mp3").
Proof. vm_compute. done. Qed.

(** ** The two request shapes *)

Lemma upload_request_url self use_preset file_name path :
  req_url (upload_request self use_preset file_name path)
  = (request_shape self use_preset).1.
Proof. unfold upload_request. by destruct (request_shape self use_preset). Qed.

Lemma upload_request_params self use_preset file_name path :
  req_params (upload_request self use_preset file_name path)
  = if params_truthy (request_shape self use_preset).2
    then (request_shape self use_preset).2 else None.
Proof. unfold upload_request. by destruct (request_shape self use_preset). Qed.

Lemma upload_request_files self use_preset file_name path :
  req_files (upload_request self use_preset file_name path)
  = [{| part_field := "file"; part_filename := file_name; part_source := path;
        part_content_type := "audio/mpeg" |}].
Proof. unfold upload_request. by destruct (request_shape self use_preset). Qed.

Lemma effective_upload_request key use_preset file_name path :
  Requests.effective (upload_request (new_transcriber key) use_preset file_name path)
  = {| eff_endpoint := "https://api.sippulse.ai/asr/transcribe";
       eff_params := intended_params;
       eff_files := [{| part_field := "file"; part_filename := file_name;
                        part_source := path; part_content_type := "audio/mpeg" |}] |}.
Proof.
  unfold Requests.effective.
  rewrite upload_request_url, upload_request_params, upload_request_files.
  change (request_shape (new_transcriber key) use_preset)
    with (request_shape (new_transcriber None) use_preset).
  destruct use_preset; f_equal; vm_compute; reflexivity.
Qed.

(** C3.  For a transcriber built by [__init__], any display name and any
    converted file, the request sent with [use_preset=True] and the one sent
    with [use_preset=False] are the same once the remote side has decoded
    the query string: same endpoint, same parameter names and values in the
    same order, same multipart file part.  (The raw query strings differ: a
    space is [%20] in the first and [+] in the second.) *)
Theorem request_shapes_equivalent key file_name converted_file :
  Requests.effective (upload_request (new_transcriber key) true file_name converted_file)
  = Requests.effective (upload_request (new_transcriber key) false file_name converted_file).
Proof. by rewrite !effective_upload_request. Qed.

Example raw_urls_differ :
  Requests.prepare_url (request_shape demo_self true).1 (request_shape demo_self true).2
  ≠ Requests.prepare_url (request_shape demo_self false).1 (request_shape demo_self false).2.
Proof. vm_compute. discriminate. Qed.

(** ** The batch *)

Lemma files_shown_loop_view i n unique_files :
  files_shown (loop_view i n unique_files) = Os.basename <$> unique_files.
Proof.
  revert i. induction unique_files as [|f rest IH]; intros i; [done|].
  cbn [loop_view]. unfold files_shown in *.
  rewrite !omap_app, IH. by destruct (i <? n).
Qed.

(** C5.  A batch run started with [--no-preset]: every request it posts is
    the URL-embedded one, exactly as without the flag; the flag only reaches
    [transcribe_file] in test mode. *)
Theorem no_preset_ignored_by_batch :
  let env := demo_env (Ok 0%Z) demo_ok demo_ok in
  let args := {| arg_directory := "calls"; arg_api_key := Some "k";
                 arg_webhook := None; arg_max_files := None; arg_test := false;
                 arg_no_preset := true; arg_list_files := false |} in
  let '(r, w') := main env args demo_world in
  r = Ok () ∧
  posts (trace w')
  = [upload_request demo_self true "a.mp3" "/tmp/tmp4.mp3";
     upload_request demo_self true "b.OGG" "/tmp/tmp18.mp3"] ∧
  Forall (λ r, req_params r = None) (posts (trace w')).
Proof. vm_compute. split_and!; [done|done|by repeat constructor]. Qed.

(** In test mode the flag is honoured. *)
Example no_preset_honoured_by_test :
  let env := demo_env (Ok 0%Z) demo_ok demo_ok in
  let args := {| arg_directory := "calls"; arg_api_key := Some "k";
                 arg_webhook := None; arg_max_files := None; arg_test := true;
                 arg_no_preset := true; arg_list_files := false |} in
  posts (trace (main env args demo_world).2)
  = [upload_request demo_self false "a.mp3" "/tmp/tmp2.mp3"].
Proof. vm_compute. reflexivity. Qed.

Example batch_run_writes_results :
  let env := demo_env (Ok 0%Z) demo_ok demo_ok in
  omap (λ ev, match ev with EvWrite path results => Some (path, length results)
                       | _ => None end)
    (trace (main env demo_args demo_world).2)
  = [("transcription_results_1700000029.json", 2)].
Proof. vm_compute. reflexivity. Qed.

(** A 200 answer whose body is an empty object is returned by
    [transcribe_file] but is not truthy: the loop does not record it. *)
Example empty_body_not_recorded :
  let api := Ok {| status_code := 200; response_json := Ok (JDict []) |} in
  let env := batch_env (Ok 0%Z) api demo_ok in
  (transcribe_file env demo_self "batch/c1.mp3" true batch_world).1 = Ok (Some (JDict [])) ∧
  (process_directory env demo_self "batch" None (Some 1%Z) batch_world).1 = Ok [].
Proof. vm_compute. done. Qed.

Example failed_batch_trace :
  let env := batch_env (Ok 1%Z) demo_ok demo_ok in
  let '(r, w') := process_directory env demo_self "batch" None None batch_world in
  r = Ok [] ∧
  batch_view (trace w')
  = [Progress 1 5; File "c1.mp3"; Slept 2; Progress 2 5; File "c2.mp3"; Slept 2;
     Progress 3 5; File "c3.wav"; Slept 2; Progress 4 5; File "c4.flac"; Slept 2;
     Progress 5 5; File "c5.ogg"] ∧
  posts (trace w') = [].
Proof. vm_compute. done. Qed.

Example first_two_results :
  let env := batch_env (Ok 0%Z) demo_ok demo_ok in
  (process_directory env demo_self "batch" None (Some 2%Z) batch_world).1
  = Ok [ {| re_file := "batch/c1.mp3"; re_transcription := demo_transcript |};
         {| re_file := "batch/c2.mp3"; re_transcription := demo_transcript |} ].
Proof. vm_compute. reflexivity. Qed.

Example max_files_negative :
  let env := batch_env (Ok 0%Z) demo_ok demo_ok in
  files_shown (batch_view (trace
    (process_directory env demo_self "batch" None (Some (-1)%Z) batch_world).2))
  = ["c1.mp3"; "c2.mp3"; "c3.wav"; "c4.flac"].
Proof. vm_compute. reflexivity. Qed.

Example webhook_failure_trace :
  let env := batch_env (Ok 0%Z) demo_ok (Raise RequestException) in
  let '(r, w') := process_directory env demo_self "batch"
                    (Some "http://hooks.example/t") (Some 1%Z) batch_world in
  r = Ok [ {| re_file := "batch/c1.mp3"; re_transcription := demo_transcript |} ] ∧
  last (trace w') = Some (EvPrint (MsgComplete 1 1)) ∧
  omap (λ ev, match ev with EvPrint (MsgWebhookError e) => Some e | _ => None end)
    (trace w') = [RequestException].
Proof. vm_compute. done. Qed.

(** * Further properties *)

(** ** Every way a call can end *)

Lemma convert_cases env input_file w :
  convert_audio_with_ffmpeg env input_file w
  = match env_mkstemp env (trace w) with
    | Raise e => (Ok None, log [EvPrint (convert_message e)] w)
    | Ok output_file =>
        let w1 := transcoding input_file output_file w in
        match env_run env (trace w1) (ffmpeg_cmd input_file output_file) with
        | Ok returncode =>
            if (returncode =? 0)%Z
            then (Ok (Some output_file), log [EvPrint MsgConverted] w1)
            else (Ok None,
                  unlinked output_file (log [EvPrint (MsgFfmpegFailed returncode)] w1))
        | Raise FileNotFoundError => (Ok None, log [EvPrint MsgFfmpegNotFound] w1)
        | Raise e =>
            (Ok None, unlinked output_file (log [EvPrint (convert_message e)] w1))
        end
    end.
Proof.
  unfold convert_audio_with_ffmpeg, bind, attempt, Os.named_temporary_file.
  destruct (env_mkstemp env (trace w)) as [p|e].
  - unfold try_except, convert_try, convert_except, Os.subprocess_run, bind,
      print, emit, ask, lift, ret, transcoding. simpl. rewrite <-!app_assoc. simpl.
    destruct (env_run env _ _) as [rc|e].
    + destruct (rc =? 0)%Z; [done|].
      rewrite remove_if_exists_run. simpl.
      by rewrite bool_decide_true by apply elem_of_created.
    + destruct e; simpl; rewrite ?remove_if_exists_run; simpl;
        rewrite ?bool_decide_true by apply elem_of_created; done.
  - unfold convert_except, bind, print, emit, ret. by destruct e.
Qed.

Lemma upload_cases env self use_preset audio_file_path converted_file w1 :
  converted_file ∈ files w1 →
  let w2 := uploading self env use_preset audio_file_path converted_file w1 in
  let r := upload_request self use_preset (Os.basename audio_file_path) converted_file in
  try_except
    (upload_try env self use_preset (Os.basename audio_file_path) converted_file)
    (upload_except converted_file)
    (log [EvPrint (MsgProcessing (Os.basename audio_file_path)
                     (env_getsize env (trace w1) converted_file))] w1)
  = match env_api env (trace w2) r with
    | Ok response =>
        let status := EvPrint (MsgResponseStatus (status_code response)) in
        if (status_code response =? 200)%Z then
          match response_json response with
          | Ok result =>
              (Ok (Some result),
               unlinked converted_file (log [status; EvPrint MsgTranscribed] w2))
          | Raise e =>
              (Ok None,
               unlinked converted_file (log [status; EvPrint (upload_message e)] w2))
          end
        else
          (Ok None,
           unlinked converted_file
             (log [status; EvPrint (MsgApiError (status_code response))] w2))
    | Raise e =>
        (Ok None, unlinked converted_file (log [EvPrint (upload_message e)] w2))
    end.
Proof.
  intros Hin w2 r.
  unfold try_except, upload_try, upload_except, Os.open_rb, bind, print, emit,
    ask, lift, ret. simpl.
  rewrite bool_decide_true by done. simpl.
  unfold w2, uploading, log. simpl. fold r. rewrite <-!app_assoc. simpl.
  destruct (env_api env _ r) as [response|e]; simpl.
  - destruct (status_code response =? 200)%Z; simpl.
    + destruct (response_json response) as [result|e]; simpl.
      * rewrite remove_if_exists_run. simpl. rewrite bool_decide_true by done.
        unfold unlinked. simpl. by rewrite <-!app_assoc.
      * destruct e; simpl; rewrite remove_if_exists_run; simpl;
          rewrite bool_decide_true by done; unfold unlinked; simpl;
          by rewrite <-!app_assoc.
    + rewrite remove_if_exists_run. simpl. rewrite bool_decide_true by done.
      unfold unlinked. simpl. by rewrite <-!app_assoc.
  - destruct e; simpl; rewrite remove_if_exists_run; simpl;
      rewrite bool_decide_true by done; unfold unlinked; simpl;
      by rewrite <-!app_assoc.
Qed.

(** [transcribe_file] in full: the early returns, then the upload. *)
Lemma transcribe_file_cases env self audio_file_path use_preset w :
  transcribe_file env self audio_file_path use_preset w
  = if bool_decide (audio_file_path ∈ files w) then
      match convert_audio_with_ffmpeg env audio_file_path w with
      | (Ok (Some converted_file), w1) =>
          if String.eqb converted_file ""
          then (Ok None, log [EvPrint (MsgConvertFailed audio_file_path)] w1)
          else
            try_except
              (upload_try env self use_preset (Os.basename audio_file_path)
                 converted_file)
              (upload_except converted_file)
              (log [EvPrint (MsgProcessing (Os.basename audio_file_path)
                               (env_getsize env (trace w1) converted_file))] w1)
      | (Ok None, w1) => (Ok None, log [EvPrint (MsgConvertFailed audio_file_path)] w1)
      | (Raise e, w1) => (Raise e, w1)
      end
    else (Ok None, log [EvPrint (MsgFileNotFound audio_file_path)] w).
Proof.
  unfold transcribe_file. unfold bind at 1. unfold Os.path_exists at 1.
  case_bool_decide as Hin; cbn [negb]; [|done].
  unfold bind at 1.
  destruct (convert_audio_with_ffmpeg env audio_file_path w) as [[[c|]|e] w1] eqn:Hconv;
    [|done|done].
  unfold str_truthy. destruct (String.eqb c "") eqn:Hc; cbn [negb]; [done|].
  apply String.eqb_neq in Hc.
  pose proof (transcribe_file_after_convert env self _ use_preset _ _ _ Hin Hconv Hc)
    as Hrun.
  unfold transcribe_file in Hrun. unfold bind at 1 in Hrun.
  unfold Os.path_exists at 1 in Hrun.
  rewrite bool_decide_true in Hrun by done. cbn [negb] in Hrun.
  unfold bind at 1 in Hrun. rewrite Hconv in Hrun. unfold str_truthy in Hrun.
  apply String.eqb_neq in Hc. rewrite Hc in Hrun. cbn [negb] in Hrun. exact Hrun.
Qed.

(** ** Events by kind *)

Section EmitsByKind.
Context (P : Event → Prop) (env : Env) (self : TalkIntelTranscriber).
Context (P_print : ∀ m, P (EvPrint m)).

Lemma convert_emits_kinds input_file :
  (∀ p, P (EvCreate p)) → (∀ p, P (EvUnlink p)) → (∀ c t, P (EvRun c t)) →
  emits P (convert_audio_with_ffmpeg env input_file).
Proof.
  intros Hcreate Hunlink Hrun.
  unfold convert_audio_with_ffmpeg, convert_try, convert_except, Os.subprocess_run.
  emits_with ltac:(apply remove_if_exists_emits); done.
Qed.

Lemma transcribe_file_emits_kinds audio_file_path use_preset :
  (∀ p, P (EvCreate p)) → (∀ p, P (EvUnlink p)) → (∀ c t, P (EvRun c t)) →
  (∀ r, P (EvPost r)) →
  emits P (transcribe_file env self audio_file_path use_preset).
Proof.
  intros Hcreate Hunlink Hrun Hpost.
  unfold transcribe_file, upload_try, upload_except.
  emits_with ltac:(first [apply remove_if_exists_emits | by apply convert_emits_kinds]);
    done.
Qed.

Lemma send_to_webhook_emits_kinds data endpoint :
  (∀ ep p t, P (EvWebhook ep p t)) → emits P (send_to_webhook env data endpoint).
Proof. intros Hwebhook. unfold send_to_webhook. emits_auto; done. Qed.
End EmitsByKind.

Lemma omap_nil_Forall {A B} (f : A → option B) (l : list A) :
  Forall (λ x, f x = None) l → omap f l = [].
Proof. induction 1 as [|x l Hx _ IH]; [done|]. simpl. by rewrite Hx. Qed.

Lemma elem_of_survives (p q : string) (X : gset string) :
  p ∈ X → p ≠ q → p ∈ (X ∪ {[q]}) ∖ {[q]}.
Proof.
  intros Hp Hne. apply elem_of_difference. split.
  - apply elem_of_union. by left.
  - by intros ->%elem_of_singleton.
Qed.

(** ** [convert_audio_with_ffmpeg] *)

Section ConvertMore.
Context (env : Env).

(** X1.  [convert_audio_with_ffmpeg] never raises, and it returns a path
    only when the transcoder ended with status 0: the path is then the one
    of the temporary file it created, which is on disk and has not been
    unlinked. *)
Theorem convert_returns_path_only_on_exit_zero input_file w :
  ∃ r w' evs,
    convert_audio_with_ffmpeg env input_file w = (Ok r, w') ∧
    trace w' = trace w ++ evs ∧
    ∀ output_file, r = Some output_file →
      env_mkstemp env (trace w) = Ok output_file ∧
      env_run env (trace (transcoding input_file output_file w))
        (ffmpeg_cmd input_file output_file) = Ok 0%Z ∧
      output_file ∈ files w' ∧
      deletions output_file evs = 0.
Proof.
  rewrite convert_cases.
  destruct (env_mkstemp env (trace w)) as [p|e].
  - cbn zeta. destruct (env_run env _ _) as [rc|e] eqn:Hrun.
    + destruct (rc =? 0)%Z eqn:Hrc.
      * eexists _, _, [_; _; _; _].
        split_and!; [done|simpl; by rewrite <-app_assoc|].
        intros out [= <-]. apply Z.eqb_eq in Hrc as ->.
        split_and!; [done|done|apply elem_of_created|done].
      * eexists _, _, [_; _; _; _; _].
        split_and!; [done|simpl; by rewrite <-!app_assoc|]. by intros out [=].
    + destruct e;
        first [ eexists _, _, [_; _; _; _; _];
                split_and!; [done|simpl; by rewrite <-!app_assoc|by intros out [=]]
              | eexists _, _, [_; _; _; _];
                split_and!; [done|simpl; by rewrite <-!app_assoc|by intros out [=]] ].
  - eexists _, _, [_]. split_and!; [done|done|by intros out [=]].
Qed.

(** X2.  When the transcoder ends with a non-zero status, runs out of time
    or fails with any exception other than a missing executable, the
    function returns [None] after unlinking the temporary file once; no
    other file is touched. *)
Theorem convert_failure_removes_temp_file input_file w output_file :
  env_mkstemp env (trace w) = Ok output_file →
  match env_run env (trace (transcoding input_file output_file w))
          (ffmpeg_cmd input_file output_file) with
  | Ok returncode => returncode ≠ 0%Z
  | Raise e => e ≠ FileNotFoundError
  end →
  ∃ w' evs,
    convert_audio_with_ffmpeg env input_file w = (Ok None, w') ∧
    trace w' = trace w ++ evs ∧
    deletions output_file evs = 1 ∧
    (output_file ∉ files w') ∧
    ∀ p, p ≠ output_file → (p ∈ files w' ↔ p ∈ files w).
Proof.
  intros Hmk Hrun. rewrite convert_cases, Hmk. cbn zeta.
  assert (∀ w1 : World,
    files w1 = files w ∪ {[output_file]} →
    (output_file ∉ files (unlinked output_file w1)) ∧
    ∀ p, p ≠ output_file → (p ∈ files (unlinked output_file w1) ↔ p ∈ files w))
    as Hfiles.
  { intros w1 Hw1. simpl. rewrite Hw1. split; [apply not_elem_of_removed|].
    intros p Hne. split.
    - intros [[?|?%elem_of_singleton]%elem_of_union _]%elem_of_difference; done.
    - intros Hp. by apply elem_of_survives. }
  destruct (env_run env _ _) as [rc|e].
  - apply Z.eqb_neq in Hrun. rewrite Hrun.
    eexists _, [_; _; _; _; _]. split_and!; [done| | |by apply Hfiles..].
    + simpl. by rewrite <-!app_assoc.
    + unfold deletions. simpl. rewrite !filter_cons. simpl.
      rewrite String.eqb_refl. done.
  - destruct e; try done;
      (eexists _, [_; _; _; _; _]; split_and!; [done| | |by apply Hfiles..];
       [simpl; by rewrite <-!app_assoc
       |unfold deletions; simpl; rewrite !filter_cons; simpl;
        rewrite String.eqb_refl; done]).
Qed.

(** X3.  When the temporary file cannot be created, the function returns
    [None] having done nothing but print: the transcoder is not started,
    nothing is unlinked, the files on disk are the same. *)
Theorem convert_without_temp_file_only_prints input_file w e :
  env_mkstemp env (trace w) = Raise e →
  ∃ w' evs,
    convert_audio_with_ffmpeg env input_file w = (Ok None, w') ∧
    trace w' = trace w ++ evs ∧
    Forall (λ ev, is_print ev = true) evs ∧
    files w' = files w.
Proof.
  intros Hmk. rewrite convert_cases, Hmk.
  eexists _, _. split_and!; [done|done|by repeat constructor|done].
Qed.
End ConvertMore.

Lemma convert_failure_removes_temp_file_witness :
  ∃ w' evs,
    convert_audio_with_ffmpeg (demo_env (Raise OtherError) demo_ok demo_ok)
      "calls/a.wav" demo_world = (Ok None, w') ∧
    trace w' = trace demo_world ++ evs ∧
    deletions "/tmp/tmp0.mp3" evs = 1 ∧
    ("/tmp/tmp0.mp3" ∉ files w') ∧
    ∀ p, p ≠ "/tmp/tmp0.mp3" → (p ∈ files w' ↔ p ∈ files demo_world).
Proof.
  apply (convert_failure_removes_temp_file
           (demo_env (Raise OtherError) demo_ok demo_ok) "calls/a.wav" demo_world
           "/tmp/tmp0.mp3").
  - vm_compute. reflexivity.
  - simpl. discriminate.
Defined.

Lemma convert_without_temp_file_only_prints_witness :
  let env :=
    {| env_rglob := λ _ _, None;
       env_mkstemp := λ _, Raise OtherError;
       env_run := λ _ _, Ok 0%Z;
       env_getsize := λ _ _, 0;
       env_api := λ _ _, demo_ok;
       env_webhook := λ _ _ _, demo_ok;
       env_time := λ _, 0%Z |} in
  ∃ w' evs,
    convert_audio_with_ffmpeg env "calls/a.wav" demo_world = (Ok None, w') ∧
    trace w' = trace demo_world ++ evs ∧
    Forall (λ ev, is_print ev = true) evs ∧
    files w' = files demo_world.
Proof.
  intros env.
  apply (convert_without_temp_file_only_prints env "calls/a.wav" demo_world OtherError).
  reflexivity.
Defined.

(** ** [transcribe_file] *)

Section TranscribeMore.
Context (env : Env) (self : TalkIntelTranscriber).

Lemma convert_no_post input_file w r w1 :
  convert_audio_with_ffmpeg env input_file w = (r, w1) →
  ∃ evs, trace w1 = trace w ++ evs ∧ posts evs = [].
Proof.
  intros Hrun.
  destruct (convert_emits_kinds
              (λ ev, match ev with EvPost _ => None | _ => Some ev end ≠ None)
              env ltac:(done) input_file ltac:(done) ltac:(done) ltac:(done) w)
    as (evs & Htr & Hevs).
  rewrite Hrun in Htr. exists evs. split; [done|].
  apply omap_nil_Forall. eapply Forall_impl; [exact Hevs|].
  by intros [].
Qed.

(** X4.  When the original file is missing, or the normalisation gives no
    path, [transcribe_file] returns [None] and posts no request. *)
Theorem transcribe_file_no_request_without_audio audio_file_path use_preset w :
  audio_file_path ∉ files w ∨
  (∃ converted w1,
     convert_audio_with_ffmpeg env audio_file_path w = (Ok converted, w1) ∧
     str_truthy converted = false) →
  ∃ w' evs,
    transcribe_file env self audio_file_path use_preset w = (Ok None, w') ∧
    trace w' = trace w ++ evs ∧
    posts evs = [].
Proof.
  intros Hcase. rewrite transcribe_file_cases. case_bool_decide as Hin.
  - destruct Hcase as [?|(converted & w1 & Hconv & Hfalse)]; [done|].
    rewrite Hconv. destruct (convert_no_post _ _ _ _ Hconv) as (evs & Htr & Hposts).
    exists (log [EvPrint (MsgConvertFailed audio_file_path)] w1),
           (evs ++ [EvPrint (MsgConvertFailed audio_file_path)]).
    split_and!.
    + destruct converted as [c|]; [|done].
      simpl in Hfalse. apply negb_false_iff in Hfalse. by rewrite Hfalse.
    + simpl. by rewrite Htr, <-app_assoc.
    + unfold posts in *. rewrite omap_app, Hposts. done.
  - eexists _, _. split_and!; [done|done|done].
Qed.

(** X5.  After a successful normalisation, [transcribe_file] posts exactly
    one request, whatever the service answers: the request of
    [upload_request], whose only part carries the bytes of the temporary
    file under the name of the original file, with the API key of the
    transcriber and a time-out of 300 s. *)
Theorem transcribe_file_posts_once audio_file_path use_preset w converted_file w1 :
  audio_file_path ∈ files w →
  convert_audio_with_ffmpeg env audio_file_path w = (Ok (Some converted_file), w1) →
  converted_file ≠ "" →
  ∃ r w' evs request,
    transcribe_file env self audio_file_path use_preset w = (Ok r, w') ∧
    trace w' = trace w ++ evs ∧
    posts evs = [request] ∧
    request = upload_request self use_preset (Os.basename audio_file_path)
                converted_file ∧
    req_api_key request = api_key self ∧
    req_files request
    = [{| part_field := "file"; part_filename := Os.basename audio_file_path;
          part_source := converted_file; part_content_type := "audio/mpeg" |}] ∧
    req_timeout request = 300.
Proof.
  intros Hin Hconv Hne.
  destruct (convert_no_post _ _ _ _ Hconv) as (evs0 & Htr0 & Hposts0).
  assert (converted_file ∈ files w1) as Hon.
  { destruct (convert_success _ _ _ _ _ Hconv) as [-> _].
    apply elem_of_union. right. by apply elem_of_singleton. }
  rewrite transcribe_file_cases, bool_decide_true, Hconv by done.
  apply String.eqb_neq in Hne. rewrite Hne.
  rewrite (upload_cases env self use_preset audio_file_path converted_file w1 Hon).
  cbn zeta.
  set (request := upload_request self use_preset (Os.basename audio_file_path)
                    converted_file).
  assert (∀ tail, posts tail = [] →
            posts (evs0 ++ [EvPrint (MsgProcessing (Os.basename audio_file_path)
                                       (env_getsize env (trace w1) converted_file));
                            EvPrint (MsgSending (req_url request)
                                       (request_shape self use_preset).2);
                            EvPost request] ++ tail) = [request]) as Hposts.
  { intros tail Htail. unfold posts in *.
    rewrite !omap_app, Hposts0, Htail. done. }
  assert (req_api_key request = api_key self
          ∧ req_files request
            = [{| part_field := "file"; part_filename := Os.basename audio_file_path;
                  part_source := converted_file;
                  part_content_type := "audio/mpeg" |}]
          ∧ req_timeout request = 300) as (Hkey & Hfiles & Htimeout).
  { subst request. unfold upload_request. by destruct use_preset. }
  destruct (env_api env _ _) as [response|e].
  - destruct (status_code response =? 200)%Z.
    + destruct (response_json response) as [result|e].
      * eexists _, _, _, request. split_and!; [done| |apply Hposts|done..].
        -- unfold uploading. simpl. rewrite Htr0, <-!app_assoc. simpl. done.
        -- done.
      * eexists _, _, _, request. split_and!; [done| |apply Hposts|done..].
        -- unfold uploading. simpl. rewrite Htr0, <-!app_assoc. simpl. done.
        -- done.
    + eexists _, _, _, request. split_and!; [done| |apply Hposts|done..].
      * unfold uploading. simpl. rewrite Htr0, <-!app_assoc. simpl. done.
      * done.
  - eexists _, _, _, request. split_and!; [done| |apply Hposts|done..].
    + unfold uploading. simpl. rewrite Htr0, <-!app_assoc. simpl. done.
    + done.
Qed.

Lemma convert_Some_inv input_file w output_file w1 :
  convert_audio_with_ffmpeg env input_file w = (Ok (Some output_file), w1) →
  env_mkstemp env (trace w) = Ok output_file ∧
  env_run env (trace (transcoding input_file output_file w))
    (ffmpeg_cmd input_file output_file) = Ok 0%Z ∧
  w1 = log [EvPrint MsgConverted] (transcoding input_file output_file w).
Proof.
  rewrite convert_cases.
  destruct (env_mkstemp env (trace w)) as [p|e]; [|by intros [=]].
  cbn zeta. destruct (env_run env _ _) as [rc|e] eqn:Hrun.
  - destruct (rc =? 0)%Z eqn:Hrc; [|by intros [=]].
    intros [= <- <-]. apply Z.eqb_eq in Hrc as ->. done.
  - destruct e; by intros [=].
Qed.

(** X6.  [transcribe_file] returns a result only when the original file
    exists, the normalisation gave a temporary file, and the service
    answered the request with status 200 and a JSON body: the result is that
    body, unchanged, and the temporary file is gone. *)
Theorem transcribe_file_result_is_response_body audio_file_path use_preset w result w' :
  transcribe_file env self audio_file_path use_preset w = (Ok (Some result), w') →
  ∃ converted_file w1 response,
    audio_file_path ∈ files w ∧
    convert_audio_with_ffmpeg env audio_file_path w = (Ok (Some converted_file), w1) ∧
    env_api env
      (trace (uploading self env use_preset audio_file_path converted_file w1))
      (upload_request self use_preset (Os.basename audio_file_path) converted_file)
    = Ok response ∧
    status_code response = 200%Z ∧
    response_json response = Ok result ∧
    converted_file ∉ files w'.
Proof.
  rewrite transcribe_file_cases. case_bool_decide as Hin; [|by intros [=]].
  destruct (convert_audio_with_ffmpeg env audio_file_path w) as [[[c|]|e] w1] eqn:Hconv;
    [|by intros [=]..].
  destruct (String.eqb c "") eqn:Hc; [by intros [=]|].
  assert (c ∈ files w1) as Hon.
  { destruct (convert_success _ _ _ _ _ Hconv) as [-> _].
    apply elem_of_union. right. by apply elem_of_singleton. }
  rewrite (upload_cases env self use_preset audio_file_path c w1 Hon). cbn zeta.
  destruct (env_api env _ _) as [response|e] eqn:Hapi.
  - destruct (status_code response =? 200)%Z eqn:Hstatus.
    + destruct (response_json response) as [j|e] eqn:Hjson.
      * intros [= <- <-]. exists c, w1, response.
        apply Z.eqb_eq in Hstatus. split_and!; try done.
        apply not_elem_of_removed.
      * destruct e; by intros [=].
    + by intros [=].
  - destruct e; by intros [=].
Qed.

(** One call of [transcribe_file], whatever the outside world does: the
    unlinks, the files kept and left, and the requests. *)
Lemma transcribe_file_frame audio_file_path use_preset w :
  ∃ r w' evs,
    transcribe_file env self audio_file_path use_preset w = (Ok r, w') ∧
    trace w' = trace w ++ evs ∧
    (∀ q, EvUnlink q ∈ evs → env_mkstemp env (trace w) = Ok q) ∧
    (∀ p, p ∈ files w → env_mkstemp env (trace w) ≠ Ok p → p ∈ files w') ∧
    (∀ p, p ∈ files w' →
       p ∈ files w ∨
       (env_mkstemp env (trace w) = Ok p ∧
        (p = "" ∨
         env_run env (trace (transcoding audio_file_path p w))
           (ffmpeg_cmd audio_file_path p) = Raise FileNotFoundError))) ∧
    (posts evs = [] ∨
     ∃ converted_file,
       posts evs = [upload_request self use_preset (Os.basename audio_file_path)
                      converted_file]).
Proof.
  assert (∀ (r : option Json) (w' : World) evs output_file,
    trace w' = trace w ++ evs →
    Forall (λ ev, ∀ q, ev = EvUnlink q → output_file = q) evs →
    (files w' = files w ∨
     (files w' = files w ∪ {[output_file]} ∧
      (output_file = "" ∨
       env_run env (trace (transcoding audio_file_path output_file w))
         (ffmpeg_cmd audio_file_path output_file) = Raise FileNotFoundError)) ∨
     files w' = (files w ∪ {[output_file]}) ∖ {[output_file]}) →
    env_mkstemp env (trace w) = Ok output_file →
    (posts evs = [] ∨
     ∃ converted_file,
       posts evs = [upload_request self use_preset (Os.basename audio_file_path)
                      converted_file]) →
    ∃ r0 w0 evs0,
      (Ok r, w') = (Ok r0, w0) ∧ trace w0 = trace w ++ evs0 ∧
      (∀ q, EvUnlink q ∈ evs0 → env_mkstemp env (trace w) = Ok q) ∧
      (∀ p, p ∈ files w → env_mkstemp env (trace w) ≠ Ok p → p ∈ files w0) ∧
      (∀ p, p ∈ files w0 →
         p ∈ files w ∨
         (env_mkstemp env (trace w) = Ok p ∧
          (p = "" ∨
           env_run env (trace (transcoding audio_file_path p w))
             (ffmpeg_cmd audio_file_path p) = Raise FileNotFoundError))) ∧
      (posts evs0 = [] ∨
       ∃ converted_file,
         posts evs0 = [upload_request self use_preset (Os.basename audio_file_path)
                         converted_file]))
    as Hleaf.
  { intros r w' evs out Htr Hevs Hfiles Hmk Hposts. exists r, w', evs.
    split_and!; [done|done| | | |done].
    - intros q Hq. rewrite Forall_forall in Hevs. by rewrite (Hevs _ Hq q eq_refl) in Hmk.
    - intros p Hp Hne. rewrite Hmk in Hne.
      destruct Hfiles as [->| [[-> _]| ->]]; [done| |].
      + apply elem_of_union. by left.
      + apply elem_of_survives; [done|]. by intros ->.
    - intros p Hp. destruct Hfiles as [Hf| [[Hf Hwhy]| Hf]]; rewrite Hf in Hp.
      + by left.
      + apply elem_of_union in Hp as [Hp|Hp%elem_of_singleton]; [by left|].
        subst p. by right.
      + apply elem_of_difference in Hp as [[Hp|Hp]%elem_of_union Hne];
          [by left|done]. }
  rewrite transcribe_file_cases. case_bool_decide as Hin.
  2: { eexists _, _, [_]. split_and!; [done|done| |done|by left|by left].
       by intros q [=]%list_elem_of_singleton. }
  rewrite convert_cases.
  destruct (env_mkstemp env (trace w)) as [out|e] eqn:Hmk.
  2: { eexists _, _, [_; _].
       split_and!; [done|simpl; by rewrite <-app_assoc| |done|by left|by left].
       intros q Hq. rewrite !elem_of_cons in Hq.
       destruct Hq as [[=]|[[=]|Hq]]. by apply elem_of_nil in Hq. }
  cbn zeta.
  assert (out ∈ files (log [EvPrint MsgConverted]
                         (transcoding audio_file_path out w))) as Hon
    by apply elem_of_created.
  pose proof (upload_cases env self use_preset audio_file_path out _ Hon) as Hupload.
  cbn zeta in Hupload.
  destruct (env_run env _ _) as [rc|e] eqn:Hrun;
    [destruct (rc =? 0)%Z;
       [destruct (String.eqb out "") eqn:Hout;
          [apply String.eqb_eq in Hout
          |rewrite Hupload; clear Hupload;
           destruct (env_api env _ _) as [response|e];
             [destruct (status_code response =? 200)%Z;
                [destruct (response_json response) as [j|e]|]|]]|]
    |destruct e];
    (eapply (Hleaf _ _ _ out);
       [unfold uploading; simpl; rewrite <-?app_assoc; reflexivity
       |simpl; repeat constructor; by intros q [=]
       |first [by left | right; left; split; [done|first [by left | by right]]
              | by right; right]
       |done
       |first [by left | right; by eexists]]).
Qed.

(** X7.  [transcribe_file] never raises, the only file it ever unlinks is
    the temporary file it was given by [NamedTemporaryFile], and every other
    file that was on disk is still there when it returns. *)
Theorem transcribe_file_unlinks_only_temp_file audio_file_path use_preset w :
  ∃ r w' evs,
    transcribe_file env self audio_file_path use_preset w = (Ok r, w') ∧
    trace w' = trace w ++ evs ∧
    (∀ q, EvUnlink q ∈ evs → env_mkstemp env (trace w) = Ok q) ∧
    (∀ p, p ∈ files w → env_mkstemp env (trace w) ≠ Ok p → p ∈ files w').
Proof.
  destruct (transcribe_file_frame audio_file_path use_preset w)
    as (r & w' & evs & Hrun & Htr & Hunlink & Hkeep & _).
  by exists r, w', evs.
Qed.
End TranscribeMore.

Lemma transcribe_file_no_request_without_audio_witness :
  ∃ w' evs,
    transcribe_file (demo_env (Ok 1%Z) demo_ok demo_ok) demo_self "calls/a.wav" true
      demo_world = (Ok None, w') ∧
    trace w' = trace demo_world ++ evs ∧
    posts evs = [].
Proof.
  apply (transcribe_file_no_request_without_audio
           (demo_env (Ok 1%Z) demo_ok demo_ok) demo_self "calls/a.wav" true demo_world).
  right.
  exists None,
    (convert_audio_with_ffmpeg (demo_env (Ok 1%Z) demo_ok demo_ok) "calls/a.wav"
       demo_world).2.
  split; [vm_compute; reflexivity|reflexivity].
Defined.

Lemma transcribe_file_posts_once_witness :
  ∃ r w' evs request,
    transcribe_file (demo_env (Ok 0%Z) (Raise RequestException) demo_ok) demo_self
      "calls/a.wav" false demo_world = (Ok r, w') ∧
    trace w' = trace demo_world ++ evs ∧
    posts evs = [request] ∧
    request = upload_request demo_self false (Os.basename "calls/a.wav")
                "/tmp/tmp0.mp3" ∧
    req_api_key request = api_key demo_self ∧
    req_files request
    = [{| part_field := "file"; part_filename := Os.basename "calls/a.wav";
          part_source := "/tmp/tmp0.mp3"; part_content_type := "audio/mpeg" |}] ∧
    req_timeout request = 300.
Proof.
  apply (transcribe_file_posts_once
           (demo_env (Ok 0%Z) (Raise RequestException) demo_ok) demo_self
           "calls/a.wav" false demo_world "/tmp/tmp0.mp3"
           (convert_audio_with_ffmpeg
              (demo_env (Ok 0%Z) (Raise RequestException) demo_ok) "calls/a.wav"
              demo_world).2).
  - apply (bool_decide_unpack _). vm_compute. exact I.
  - vm_compute. reflexivity.
  - discriminate.
Defined.

Lemma transcribe_file_result_is_response_body_witness :
  let env := demo_env (Ok 0%Z) demo_ok demo_ok in
  ∃ converted_file w1 response,
    "calls/a.wav" ∈ files demo_world ∧
    convert_audio_with_ffmpeg env "calls/a.wav" demo_world
    = (Ok (Some converted_file), w1) ∧
    env_api env
      (trace (uploading demo_self env true "calls/a.wav" converted_file w1))
      (upload_request demo_self true (Os.basename "calls/a.wav") converted_file)
    = Ok response ∧
    status_code response = 200%Z ∧
    response_json response = Ok demo_transcript ∧
    converted_file ∉ files (transcribe_file env demo_self "calls/a.wav" true demo_world).2.
Proof.
  intros env.
  apply (transcribe_file_result_is_response_body env demo_self "calls/a.wav" true
           demo_world demo_transcript
           (transcribe_file env demo_self "calls/a.wav" true demo_world).2).
  vm_compute. reflexivity.
Defined.

(** ** [get_unique_files] *)

Lemma first_min_elem_of {A} (key : A → nat) (l : list A) m :
  first_min key l = Some m → m ∈ l.
Proof.
  revert m. induction l as [|x l IH]; intros m; [done|]. simpl.
  destruct (first_min key l) as [m'|].
  - destruct (key x <=? key m'); intros [= <-]; [left|right; by apply IH].
  - intros [= <-]. left.
Qed.

Lemma first_min_least {A} (key : A → nat) (l : list A) m :
  first_min key l = Some m → ∀ x, x ∈ l → key m ≤ key x.
Proof.
  revert m. induction l as [|y l IH]; intros m Hm x Hx; [by apply elem_of_nil in Hx|].
  simpl in Hm. destruct (first_min key l) as [m'|] eqn:Hl.
  - specialize (IH m' eq_refl).
    destruct (key y <=? key m') eqn:Hle; injection Hm as <-.
    + apply Nat.leb_le in Hle.
      apply elem_of_cons in Hx as [->|Hx]; [done|]. specialize (IH x Hx). lia.
    + apply Nat.leb_gt in Hle.
      apply elem_of_cons in Hx as [->|Hx]; [lia|]. by apply IH.
  - injection Hm as <-. destruct l as [|z l]; [|simpl in Hl; by repeat case_match].
    apply elem_of_cons in Hx as [->|Hx]; [done|]. by apply elem_of_nil in Hx.
Qed.

Lemma first_min_first {A} (key : A → nat) (before after : list A) x :
  Forall (λ y, key x < key y) before →
  Forall (λ y, key x ≤ key y) after →
  first_min key (before ++ x :: after) = Some x.
Proof.
  intros Hbefore Hafter. induction Hbefore as [|y before Hy _ IH]; simpl.
  - destruct (first_min key after) as [m|] eqn:Hm; [|done].
    apply first_min_elem_of in Hm. rewrite Forall_forall in Hafter.
    specialize (Hafter _ Hm). apply Nat.leb_le in Hafter. by rewrite Hafter.
  - rewrite IH. apply Nat.leb_gt in Hy. by rewrite Hy.
Qed.

Lemma candidates_none entries :
  Forall (λ e, is_audio_file e = false) entries → candidates entries = [].
Proof.
  intros Hall. apply omap_nil_Forall. eapply Forall_impl; [exact Hall|].
  intros e He. unfold candidate. by rewrite He.
Qed.

Lemma info_of_priority e :
  fi_priority (info_of e) = priority_of (Py.lower (Path.suffix (entry_path e))).
Proof. done. Qed.

Lemma same_stem_files_elem_of s e entries :
  e ∈ same_stem_files s entries ↔
  e ∈ entries ∧ is_audio_file e = true ∧ Path.stem (entry_path e) = s.
Proof. unfold same_stem_files. by rewrite list_elem_of_filter, (comm and). Qed.

(** The group of a stem that has an audio file. *)
Lemma group_of_audio_file entries e :
  e ∈ entries → is_audio_file e = true →
  let s := Path.stem (entry_path e) in
  members s (candidates entries) ≠ [] ∧
  (s, members s (candidates entries)) ∈ file_groups_of entries.
Proof.
  intros He Haudio s.
  assert (members s (candidates entries) ≠ []) as Hne.
  { rewrite members_candidates. intros Hnil.
    assert (e ∈ same_stem_files s entries) as Hin by (by apply same_stem_files_elem_of).
    apply (list_elem_of_fmap_2 info_of) in Hin. rewrite Hnil in Hin.
    by apply elem_of_nil in Hin. }
  split; [done|]. by apply groups_lookup.
Qed.

(** The record chosen for a group of the walk. *)
Lemma best_of_group entries k fs :
  (k, fs) ∈ file_groups_of entries →
  ∃ e, e ∈ same_stem_files k entries ∧
       first_min fi_priority (info_of <$> same_stem_files k entries) = Some (info_of e) ∧
       best_path (k, fs) = entry_path e.
Proof.
  intros Hkv. apply groups_spec in Hkv as [-> Hne].
  destruct (best_path_elem_of k _ Hne) as (b & Hb & Hhead & Hbest).
  rewrite sort_by_key_head, members_candidates in Hhead.
  rewrite members_candidates in Hb.
  apply list_elem_of_fmap in Hb as (e & -> & He).
  exists e. by rewrite Hbest.
Qed.

(** X8.  On a directory that exists, [get_unique_files] returns paths of
    regular files of the walk whose lower-cased suffix is an audio
    extension, one for every stem that has such a file, and leaves the
    files on disk as they are. *)
Theorem get_unique_files_sound_and_complete env directory_path w entries :
  env_rglob env (trace w) directory_path = Some entries →
  ∃ unique_files w',
    get_unique_files env directory_path w = (Ok unique_files, w') ∧
    files w' = files w ∧
    (∀ p, p ∈ unique_files →
       ∃ e, e ∈ entries ∧ entry_path e = p ∧ entry_is_file e = true ∧
            Py.lower (Path.suffix p) ∈ audio_extensions) ∧
    (∀ e, e ∈ entries → entry_is_file e = true →
       Py.lower (Path.suffix (entry_path e)) ∈ audio_extensions →
       ∃ p, p ∈ unique_files ∧ Path.stem p = Path.stem (entry_path e)).
Proof.
  intros Hls. rewrite get_unique_files_run, Hls.
  eexists _, _. split_and!; [done|done| |].
  - intros p Hp. apply sort_elem_of, list_elem_of_fmap in Hp as ([k fs] & -> & Hkv).
    destruct (best_of_group _ _ _ Hkv) as (e & He & _ & ->).
    apply same_stem_files_elem_of in He as (He & Haudio & _).
    apply is_audio_file_spec in Haudio as [Hfile Hext]. by exists e.
  - intros e He Hfile Hext.
    assert (is_audio_file e = true) as Haudio by (by apply is_audio_file_spec).
    destruct (group_of_audio_file entries e He Haudio) as [_ Hgroup].
    eexists. split.
    + apply sort_elem_of, list_elem_of_fmap. eexists. split; [done|exact Hgroup].
    + by rewrite (stem_best_path entries _ Hgroup).
Qed.

Lemma get_unique_files_sound_and_complete_witness :
  ∃ unique_files w',
    get_unique_files (demo_env (Ok 0%Z) demo_ok demo_ok) "calls" demo_world
    = (Ok unique_files, w') ∧
    files w' = files demo_world ∧
    (∀ p, p ∈ unique_files →
       ∃ e, e ∈ demo_listing ∧ entry_path e = p ∧ entry_is_file e = true ∧
            Py.lower (Path.suffix p) ∈ audio_extensions) ∧
    (∀ e, e ∈ demo_listing → entry_is_file e = true →
       Py.lower (Path.suffix (entry_path e)) ∈ audio_extensions →
       ∃ p, p ∈ unique_files ∧ Path.stem p = Path.stem (entry_path e)).
Proof.
  apply (get_unique_files_sound_and_complete
           (demo_env (Ok 0%Z) demo_ok demo_ok) "calls" demo_world demo_listing).
  reflexivity.
Defined.

(** X9.  The path returned for a stem has the best format of the stem: no
    audio file of the walk with the same stem has an extension of lower
    rank in [extension_priority]. *)
Theorem get_unique_files_best_format env directory_path w entries unique_files w' p e :
  env_rglob env (trace w) directory_path = Some entries →
  get_unique_files env directory_path w = (Ok unique_files, w') →
  p ∈ unique_files →
  e ∈ entries → is_audio_file e = true →
  Path.stem (entry_path e) = Path.stem p →
  priority_of (Py.lower (Path.suffix p))
  ≤ priority_of (Py.lower (Path.suffix (entry_path e))).
Proof.
  intros Hls Hrun Hp He Haudio Hstem.
  rewrite get_unique_files_run, Hls in Hrun. injection Hrun as <- <-.
  apply sort_elem_of, list_elem_of_fmap in Hp as ([k fs] & -> & Hkv).
  rewrite (stem_best_path entries _ Hkv) in Hstem. simpl in Hstem.
  destruct (best_of_group _ _ _ Hkv) as (b & Hb & Hmin & ->).
  rewrite <-!info_of_priority.
  apply (first_min_least _ _ _ Hmin), list_elem_of_fmap_2.
  by apply same_stem_files_elem_of.
Qed.

Lemma get_unique_files_best_format_witness :
  priority_of (Py.lower (Path.suffix "calls/a.mp3"))
  ≤ priority_of (Py.lower (Path.suffix "calls/a.flac")).
Proof.
  apply (get_unique_files_best_format
           (demo_env (Ok 0%Z) demo_ok demo_ok) "calls" demo_world demo_listing
           ["calls/a.mp3"; "calls/b.OGG"]
           (get_unique_files (demo_env (Ok 0%Z) demo_ok demo_ok) "calls" demo_world).2
           "calls/a.mp3"
           {| entry_path := "calls/a.flac"; entry_is_file := true |}).
  - reflexivity.
  - vm_compute. reflexivity.
  - left.
  - right. right. left.
  - vm_compute. reflexivity.
  - vm_compute. reflexivity.
Defined.

(** X10.  Among the audio files of a stem, the one of best format that the
    walk yields first is returned: an entry is selected when every
    same-stem audio file before it has a strictly worse format and none
    after it has a better one. *)
Theorem get_unique_files_first_seen_wins
    env directory_path w before e after :
  env_rglob env (trace w) directory_path = Some (before ++ e :: after) →
  is_audio_file e = true →
  (∀ e', e' ∈ before → is_audio_file e' = true →
         Path.stem (entry_path e') = Path.stem (entry_path e) →
         fi_priority (info_of e) < fi_priority (info_of e')) →
  (∀ e', e' ∈ after → is_audio_file e' = true →
         Path.stem (entry_path e') = Path.stem (entry_path e) →
         fi_priority (info_of e) ≤ fi_priority (info_of e')) →
  ∃ unique_files w',
    get_unique_files env directory_path w = (Ok unique_files, w') ∧
    entry_path e ∈ unique_files ∧
    ∀ q, q ∈ unique_files → Path.stem q = Path.stem (entry_path e) → q = entry_path e.
Proof.
  intros Hls Haudio Hbefore Hafter. rewrite get_unique_files_run, Hls.
  set (entries := before ++ e :: after). set (s := Path.stem (entry_path e)).
  assert (e ∈ entries) as He by (apply elem_of_app; right; left).
  destruct (group_of_audio_file entries e He Haudio) as [_ Hgroup]. fold s in Hgroup.
  destruct (best_of_group _ _ _ Hgroup) as (b & _ & Hmin & Hbest).
  assert (first_min fi_priority (info_of <$> same_stem_files s entries)
          = Some (info_of e)) as Hfirst.
  { unfold same_stem_files, entries. rewrite filter_app, filter_cons_True by done.
    rewrite fmap_app, fmap_cons. apply first_min_first.
    - apply Forall_fmap, Forall_forall. intros e' [[??] ?]%list_elem_of_filter.
      by apply Hbefore.
    - apply Forall_fmap, Forall_forall. intros e' [[??] ?]%list_elem_of_filter.
      by apply Hafter. }
  rewrite Hfirst in Hmin. injection Hmin as Hpath _ _.
  rewrite <-Hpath in Hbest.
  eexists _, _. split_and!; [done| |].
  - apply sort_elem_of, list_elem_of_fmap. eexists. split; [|exact Hgroup]. done.
  - intros q Hq Hqs.
    apply sort_elem_of, list_elem_of_fmap in Hq as ([k fs'] & -> & Hkv).
    rewrite (stem_best_path entries) in Hqs by done. simpl in Hqs. subst k.
    pose proof (file_groups_keys_NoDup entries) as Hnd.
    apply (dict_elem_of_get _ _ _ Hnd) in Hkv, Hgroup.
    rewrite Hkv in Hgroup. injection Hgroup as ->. done.
Qed.

Lemma get_unique_files_first_seen_wins_witness :
  let env :=
    {| env_rglob := λ _ _, Some [ {| entry_path := "x/a.mp3"; entry_is_file := true |};
                                  {| entry_path := "y/a.mp3"; entry_is_file := true |} ];
       env_mkstemp := λ _, Raise OtherError;
       env_run := λ _ _, Raise OtherError;
       env_getsize := λ _ _, 0;
       env_api := λ _ _, Raise OtherError;
       env_webhook := λ _ _ _, Raise OtherError;
       env_time := λ _, 0%Z |} in
  ∃ unique_files w',
    get_unique_files env "d" demo_world = (Ok unique_files, w') ∧
    "x/a.mp3" ∈ unique_files ∧
    ∀ q, q ∈ unique_files → Path.stem q = Path.stem "x/a.mp3" → q = "x/a.mp3".
Proof.
  intros env.
  apply (get_unique_files_first_seen_wins env "d" demo_world []
           {| entry_path := "x/a.mp3"; entry_is_file := true |}
           [ {| entry_path := "y/a.mp3"; entry_is_file := true |} ]).
  - reflexivity.
  - vm_compute. reflexivity.
  - intros e' He'. by apply elem_of_nil in He'.
  - intros e' He' _ _. apply list_elem_of_singleton in He' as ->.
    vm_compute. lia.
Defined.

Lemma dup_report_spec k fs ev :
  ev ∈ dup_report (k, fs) →
  ∃ best_file others,
    Py.sort_by_key fi_priority fs = best_file :: others ∧ others ≠ [] ∧
    ev = EvPrint (MsgDuplicates k (fi_extension <$> others) (fi_extension best_file)).
Proof.
  unfold dup_report. cbn [fst snd].
  destruct (Py.sort_by_key fi_priority fs) as [|b [|o others]].
  - by intros ?%elem_of_nil.
  - by intros ?%elem_of_nil.
  - intros ->%list_elem_of_singleton. by eexists _, _.
Qed.

(** X11.  The duplicate report of [get_unique_files]: the function prints
    nothing but duplicate lines, one is printed for a stem exactly when the
    walk has two or more audio files of that stem, and the extension named
    as used together with those named as dropped are the extensions of
    these files. *)
Theorem get_unique_files_reports_duplicates env directory_path w entries :
  env_rglob env (trace w) directory_path = Some entries →
  ∃ unique_files w' evs,
    get_unique_files env directory_path w = (Ok unique_files, w') ∧
    trace w' = trace w ++ evs ∧
    (∀ ev, ev ∈ evs → ∃ s dropped used, ev = EvPrint (MsgDuplicates s dropped used)) ∧
    (∀ s dropped used, EvPrint (MsgDuplicates s dropped used) ∈ evs →
       dropped ≠ [] ∧
       used :: dropped
       ≡ₚ (λ e, Py.lower (Path.suffix (entry_path e))) <$> same_stem_files s entries) ∧
    (∀ s, 2 ≤ length (same_stem_files s entries) →
       ∃ dropped used, EvPrint (MsgDuplicates s dropped used) ∈ evs).
Proof.
  intros Hls. rewrite get_unique_files_run, Hls.
  assert (∀ ev, ev ∈ concat (dup_report <$> file_groups_of entries) ↔
                ∃ kv, kv ∈ file_groups_of entries ∧ ev ∈ dup_report kv) as Hconcat.
  { intros ev. rewrite list_elem_of_In, in_concat. split.
    - intros (l & Hl & Hev). apply list_elem_of_In, list_elem_of_fmap in Hl as (kv & -> & Hkv).
      exists kv. by rewrite list_elem_of_In.
    - intros (kv & Hkv & Hev). exists (dup_report kv). split.
      + apply list_elem_of_In, list_elem_of_fmap. by exists kv.
      + by apply list_elem_of_In. }
  eexists _, _, _. split_and!; [done|done| | |].
  - intros ev ([k fs] & _ & Hev)%Hconcat.
    apply dup_report_spec in Hev as (b & others & _ & _ & ->). by eexists _, _, _.
  - intros s dropped used ([k fs] & Hkv & Hev)%Hconcat.
    apply dup_report_spec in Hev as (b & others & Hsort & Hne & [= -> -> ->]).
    split; [by destruct others|].
    apply groups_spec in Hkv as [-> _].
    change (fi_extension b :: (fi_extension <$> others))
      with (fi_extension <$> b :: others).
    rewrite <-Hsort, sort_by_key_Permutation, members_candidates, <-list_fmap_compose.
    done.
  - intros s Hlen.
    assert (members s (candidates entries) ≠ []) as Hne.
    { rewrite members_candidates. intros Hnil%(f_equal length).
      rewrite length_fmap in Hnil. simpl in Hnil. lia. }
    pose proof (groups_lookup _ _ Hne) as Hgroup.
    pose proof (sort_by_key_Permutation fi_priority (members s (candidates entries)))
      as Hperm.
    apply Permutation_length in Hperm.
    rewrite members_candidates, length_fmap in Hperm.
    destruct (Py.sort_by_key fi_priority (info_of <$> same_stem_files s entries))
      as [|b [|o others]] eqn:Hsort; simpl in Hperm; [lia..|].
    eexists _, _. apply Hconcat. eexists. split; [exact Hgroup|].
    unfold dup_report. cbn [fst snd]. rewrite members_candidates, Hsort. left.
Qed.

Lemma get_unique_files_reports_duplicates_witness :
  ∃ unique_files w' evs,
    get_unique_files (demo_env (Ok 0%Z) demo_ok demo_ok) "calls" demo_world
    = (Ok unique_files, w') ∧
    trace w' = trace demo_world ++ evs ∧
    (∀ ev, ev ∈ evs → ∃ s dropped used, ev = EvPrint (MsgDuplicates s dropped used)) ∧
    (∀ s dropped used, EvPrint (MsgDuplicates s dropped used) ∈ evs →
       dropped ≠ [] ∧
       used :: dropped
       ≡ₚ (λ e, Py.lower (Path.suffix (entry_path e)))
            <$> same_stem_files s demo_listing) ∧
    (∀ s, 2 ≤ length (same_stem_files s demo_listing) →
       ∃ dropped used, EvPrint (MsgDuplicates s dropped used) ∈ evs).
Proof.
  apply (get_unique_files_reports_duplicates
           (demo_env (Ok 0%Z) demo_ok demo_ok) "calls" demo_world demo_listing).
  reflexivity.
Defined.

(** ** [send_to_webhook] *)

Section WebhookMore.
Context (env : Env).

Lemma send_to_webhook_cases transcription_data webhook_endpoint w :
  send_to_webhook env transcription_data webhook_endpoint w
  = match transcription_data with
    | JDict d =>
        let w1 := log [EvPrint (MsgWebhookSending webhook_endpoint)] w in
        let webhook_payload := webhook_payload_of env d (trace w1) in
        let w2 := log [EvWebhook webhook_endpoint webhook_payload 30] w1 in
        match env_webhook env (trace w2) webhook_endpoint webhook_payload with
        | Ok response =>
            if (status_code response =? 200)%Z
            then (Ok true, log [EvPrint MsgWebhookOk] w2)
            else (Ok false, log [EvPrint (MsgWebhookFailed (status_code response))] w2)
        | Raise e => (Ok false, log [EvPrint (MsgWebhookError e)] w2)
        end
    | _ => (Ok false, log [EvPrint (MsgWebhookSending webhook_endpoint);
                           EvPrint (MsgWebhookError AttributeError)] w)
    end.
Proof.
  unfold send_to_webhook, try_except, bind, print, emit, ask, lift, ret, raise, log.
  destruct transcription_data; simpl; rewrite <-?app_assoc; try done.
  destruct (env_webhook env _ _ _) as [response|e]; simpl; rewrite <-?app_assoc;
    [|done].
  destruct (status_code response =? 200)%Z; simpl; by rewrite <-?app_assoc.
Qed.

(** X12.  Given a JSON object, [send_to_webhook] posts exactly once, to
    the given endpoint with a time-out of 30 s.  The payload holds the
    values under [transcript], [diarization] and [insights], or an empty
    string, list and object where a key is absent, with the fixed source
    tag.  The function returns [True] exactly when the answer has status
    200, and never raises. *)
Theorem send_to_webhook_posts_payload d webhook_endpoint w :
  ∃ ok w' evs webhook_payload,
    send_to_webhook env (JDict d) webhook_endpoint w = (Ok ok, w') ∧
    trace w' = trace w ++ evs ∧
    files w' = files w ∧
    webhook_posts evs = [(webhook_endpoint, webhook_payload, 30)] ∧
    wp_transcription webhook_payload = default (JStr "") (Py.Dict.get "transcript" d) ∧
    wp_diarization webhook_payload = default (JList []) (Py.Dict.get "diarization" d) ∧
    wp_insights webhook_payload = default (JDict []) (Py.Dict.get "insights" d) ∧
    wp_source webhook_payload = "sippulse_ai_batch_processor" ∧
    (ok = true ↔
     ∃ response,
       env_webhook env
         (trace w ++ [EvPrint (MsgWebhookSending webhook_endpoint);
                      EvWebhook webhook_endpoint webhook_payload 30])
         webhook_endpoint webhook_payload = Ok response ∧
       status_code response = 200%Z).
Proof.
  rewrite send_to_webhook_cases. cbn zeta.
  set (webhook_payload :=
         webhook_payload_of env d
           (trace (log [EvPrint (MsgWebhookSending webhook_endpoint)] w))).
  assert (trace (log [EvWebhook webhook_endpoint webhook_payload 30]
                   (log [EvPrint (MsgWebhookSending webhook_endpoint)] w))
          = trace w ++ [EvPrint (MsgWebhookSending webhook_endpoint);
                        EvWebhook webhook_endpoint webhook_payload 30]) as ->.
  { simpl. by rewrite <-app_assoc. }
  destruct (env_webhook env _ _ _) as [response|e] eqn:Hpost.
  - destruct (status_code response =? 200)%Z eqn:Hstatus.
    + exists true, (log [EvPrint MsgWebhookOk]
                      (log [EvWebhook webhook_endpoint webhook_payload 30]
                         (log [EvPrint (MsgWebhookSending webhook_endpoint)] w))),
        [EvPrint (MsgWebhookSending webhook_endpoint);
         EvWebhook webhook_endpoint webhook_payload 30; EvPrint MsgWebhookOk],
        webhook_payload.
      split_and!; try done.
      * simpl. by rewrite <-!app_assoc.
      * split; [|done]. intros _. exists response. by apply Z.eqb_eq in Hstatus.
    + exists false, (log [EvPrint (MsgWebhookFailed (status_code response))]
                      (log [EvWebhook webhook_endpoint webhook_payload 30]
                         (log [EvPrint (MsgWebhookSending webhook_endpoint)] w))),
        [EvPrint (MsgWebhookSending webhook_endpoint);
         EvWebhook webhook_endpoint webhook_payload 30;
         EvPrint (MsgWebhookFailed (status_code response))],
        webhook_payload.
      split_and!; try done.
      * simpl. by rewrite <-!app_assoc.
      * split; [done|]. intros (response' & Heq & H200).
        rewrite Hpost in Heq. injection Heq as <-. by apply Z.eqb_neq in Hstatus.
  - exists false, (log [EvPrint (MsgWebhookError e)]
                      (log [EvWebhook webhook_endpoint webhook_payload 30]
                         (log [EvPrint (MsgWebhookSending webhook_endpoint)] w))),
        [EvPrint (MsgWebhookSending webhook_endpoint);
         EvWebhook webhook_endpoint webhook_payload 30;
         EvPrint (MsgWebhookError e)],
        webhook_payload.
    split_and!; try done.
    + simpl. by rewrite <-!app_assoc.
    + split; [done|]. intros (response' & Heq & _). by rewrite Hpost in Heq.
Qed.

(** X13.  Given a JSON value that is not an object (it has no [get]),
    [send_to_webhook] returns [False] without posting anything. *)
Theorem send_to_webhook_rejects_non_object transcription_data webhook_endpoint w :
  (∀ d, transcription_data ≠ JDict d) →
  ∃ w' evs,
    send_to_webhook env transcription_data webhook_endpoint w = (Ok false, w') ∧
    trace w' = trace w ++ evs ∧
    files w' = files w ∧
    Forall (λ ev, is_print ev = true) evs.
Proof.
  intros Hnot. rewrite send_to_webhook_cases.
  destruct transcription_data; try (by destruct (Hnot d));
    (eexists _, _; split_and!; [done|done|done|by repeat constructor]).
Qed.
End WebhookMore.

Lemma send_to_webhook_rejects_non_object_witness :
  ∃ w' evs,
    send_to_webhook (demo_env (Ok 0%Z) demo_ok demo_ok) (JList [JStr "bom dia"])
      "http://hook" demo_world = (Ok false, w') ∧
    trace w' = trace demo_world ++ evs ∧
    files w' = files demo_world ∧
    Forall (λ ev, is_print ev = true) evs.
Proof.
  apply (send_to_webhook_rejects_non_object (demo_env (Ok 0%Z) demo_ok demo_ok)
           (JList [JStr "bom dia"]) "http://hook" demo_world).
  intros d. discriminate.
Defined.

(** ** [process_directory] *)

(** X14.  Nothing to do: when the directory is missing, or the walk yields
    no regular file with an audio extension, [process_directory] returns
    the empty list having only printed; no temporary file, no transcoder,
    no request, no pause, and the files on disk are the same. *)
Theorem process_directory_nothing_to_do
    env self directory_path webhook_endpoint max_files w :
  env_rglob env (trace w) directory_path = None ∨
  (∃ entries, env_rglob env (trace w) directory_path = Some entries ∧
              Forall (λ e, is_audio_file e = false) entries) →
  ∃ w' evs,
    process_directory env self directory_path webhook_endpoint max_files w
    = (Ok [], w') ∧
    trace w' = trace w ++ evs ∧
    Forall (λ ev, is_print ev = true) evs ∧
    files w' = files w.
Proof.
  intros Hcase. unfold process_directory, bind.
  rewrite get_unique_files_run.
  destruct Hcase as [->|(entries & -> & Hnone)].
  - eexists _, [_; _].
    split_and!; [done|simpl; by rewrite <-app_assoc|by repeat constructor|done].
  - unfold file_groups_of. rewrite (candidates_none _ Hnone). simpl.
    eexists _, [_].
    split_and!; [done|simpl; by rewrite app_nil_r|by repeat constructor|done].
Qed.

Lemma process_directory_nothing_to_do_witness :
  ∃ w' evs,
    process_directory (demo_env (Ok 0%Z) demo_ok demo_ok) demo_self "nowhere"
      (Some "http://hook") (Some 3%Z) demo_world = (Ok [], w') ∧
    trace w' = trace demo_world ++ evs ∧
    Forall (λ ev, is_print ev = true) evs ∧
    files w' = files demo_world.
Proof.
  apply (process_directory_nothing_to_do
           (demo_env (Ok 0%Z) demo_ok demo_ok) demo_self "nowhere"
           (Some "http://hook") (Some 3%Z) demo_world).
  left. reflexivity.
Defined.

(** ** The loop of [process_directory] *)

Lemma sleeps_batch_view evs : sleeps evs = pauses (batch_view evs).
Proof.
  induction evs as [|ev evs IH]; [done|].
  destruct ev as [m| | | | | | |]; simpl; rewrite ?IH; try done.
  destruct m; simpl; by rewrite ?IH.
Qed.

Lemma loop_view_pauses n unique_files :
  ∀ i, i + length unique_files = S n →
       pauses (loop_view i n unique_files) = replicate (length unique_files - 1) 2.
Proof.
  induction unique_files as [|f rest IH]; intros i Hi; [done|].
  simpl in Hi. cbn [loop_view]. unfold pauses in *. rewrite !omap_app. simpl.
  destruct rest as [|g rest].
  - simpl in Hi. assert ((i <? n) = false) as -> by (apply Nat.ltb_ge; lia). done.
  - simpl in Hi. assert ((i <? n) = true) as -> by (apply Nat.ltb_lt; lia).
    rewrite (IH (S i)) by (simpl; lia). simpl. by rewrite Nat.sub_0_r.
Qed.

Lemma loop_view_last i n unique_files seconds :
  i + length unique_files = S n →
  last (loop_view i n unique_files) ≠ Some (Slept seconds).
Proof.
  revert i. induction unique_files as [|f rest IH]; intros i Hi; [done|].
  simpl in Hi.
  change (loop_view i n (f :: rest))
    with ([Progress i n; File (Os.basename f)]
            ++ (if i <? n then [Slept 2] else []) ++ loop_view (S i) n rest).
  rewrite !last_app.
  destruct rest as [|g rest].
  - simpl in Hi. assert ((i <? n) = false) as -> by (apply Nat.ltb_ge; lia). done.
  - specialize (IH (S i) ltac:(simpl in *; lia)).
    destruct (last (loop_view (S i) n (g :: rest))) as [s|] eqn:Hlast; [done|].
    by apply last_None in Hlast.
Qed.

Lemma StronglySorted_sublist {A} (R : relation A) (l1 l2 : list A) :
  l1 `sublist_of` l2 → StronglySorted R l2 → StronglySorted R l1.
Proof.
  induction 1 as [|x l1 l2 Hsub IH|x l1 l2 Hsub IH]; intros Hsorted.
  - constructor.
  - apply StronglySorted_inv in Hsorted as [Hsorted Hall]. constructor; [by apply IH|].
    apply Forall_forall. intros y Hy. rewrite Forall_forall in Hall.
    apply Hall. by eapply elem_of_sublist.
  - apply StronglySorted_inv in Hsorted as [Hsorted _]. by apply IH.
Qed.

Lemma slice_to_Z_sublist {A} k (l : list A) : Py.slice_to_Z k l `sublist_of` l.
Proof. unfold Py.slice_to_Z. destruct (0 <=? k)%Z; apply sublist_take. Qed.

Lemma kept_sublist calls :
  re_file <$> concat (kept <$> calls) `sublist_of` call_file <$> calls.
Proof.
  induction calls as [|c calls IH]; [done|].
  rewrite !fmap_cons. cbn [concat]. rewrite fmap_app.
  unfold kept at 1. destruct (result_truthy (call_result c)); simpl.
  - by apply sublist_skip.
  - by apply sublist_cons.
Qed.

Lemma get_unique_files_NoDup env directory_path w unique_files w' :
  get_unique_files env directory_path w = (Ok unique_files, w') → NoDup unique_files.
Proof.
  rewrite get_unique_files_run.
  destruct (env_rglob env (trace w) directory_path) as [entries|];
    intros [= <- <-]; [|apply NoDup_nil_2].
  rewrite sort_Permutation. apply (NoDup_fmap_1 Path.stem).
  rewrite stems_of_best_paths. apply file_groups_keys_NoDup.
Qed.

Section BatchMore.
Context (env : Env) (self : TalkIntelTranscriber).

(** X15.  [process_directory] pauses for 2 s after every file of the batch
    but the last, whatever happens to the files: with [n] files there are
    [n - 1] pauses, and the loop does not end on a pause. *)
Theorem process_directory_pauses
    directory_path webhook_endpoint max_files w unique_files w0 :
  get_unique_files env directory_path w = (Ok unique_files, w0) →
  let batch :=
    if int_truthy max_files
    then Py.slice_to_Z (default 0%Z max_files) unique_files else unique_files in
  ∃ results w' evs,
    process_directory env self directory_path webhook_endpoint max_files w
    = (Ok results, w') ∧
    trace w' = trace w0 ++ evs ∧
    sleeps evs = replicate (length batch - 1) 2 ∧
    ∀ seconds, last (batch_view evs) ≠ Some (Slept seconds).
Proof.
  intros Hfiles batch.
  destruct (process_directory_run env self directory_path webhook_endpoint max_files
              w unique_files w0 Hfiles)
    as (calls & results & w' & evs & Hrun & _ & _ & _ & _ & Htr & Hview & _).
  fold batch in Hview.
  exists results, w', evs. split_and!; [done|done| |].
  - rewrite sleeps_batch_view, Hview. destruct unique_files as [|f l] eqn:Hl.
    + assert (batch = []) as ->; [|done].
      unfold batch, Py.slice_to_Z. by repeat case_match; rewrite ?take_nil.
    + apply loop_view_pauses. lia.
  - intros seconds. rewrite Hview. destruct unique_files as [|f l]; [done|].
    apply loop_view_last. lia.
Qed.

(** X17.  The result list of [process_directory] follows the sorted list
    of [get_unique_files]: its files are a sub-sequence of that list, so
    they come in the same order and none appears twice. *)
Theorem process_directory_results_in_order
    directory_path webhook_endpoint max_files w unique_files w0 results w' :
  get_unique_files env directory_path w = (Ok unique_files, w0) →
  process_directory env self directory_path webhook_endpoint max_files w
  = (Ok results, w') →
  re_file <$> results `sublist_of` unique_files ∧
  NoDup (re_file <$> results) ∧
  StronglySorted String.le (re_file <$> results).
Proof.
  intros Hfiles Hrun.
  destruct (process_directory_run env self directory_path webhook_endpoint max_files
              w unique_files w0 Hfiles)
    as (calls & results0 & w1 & evs & Hrun' & Hcalls & _ & _ & Hres & _).
  rewrite Hrun in Hrun'. injection Hrun' as <- <-.
  assert (re_file <$> results `sublist_of` unique_files) as Hsub.
  { rewrite Hres. etrans; [apply kept_sublist|]. rewrite Hcalls.
    destruct unique_files as [|f l]; [done|].
    destruct (int_truthy max_files); [apply slice_to_Z_sublist|done]. }
  split_and!; [done| |].
  - eapply sublist_NoDup; [|exact Hsub]. by eapply get_unique_files_NoDup.
  - eapply StronglySorted_sublist; [exact Hsub|].
    rewrite get_unique_files_run in Hfiles.
    destruct (env_rglob env (trace w) directory_path); injection Hfiles as <- <-.
    + apply sort_strings_StronglySorted.
    + constructor.
Qed.
End BatchMore.

Lemma process_directory_pauses_witness :
  let env := batch_env (Ok 1%Z) demo_ok demo_ok in
  let unique_files :=
    ["batch/c1.mp3"; "batch/c2.mp3"; "batch/c3.wav"; "batch/c4.flac"; "batch/c5.ogg"] in
  ∃ results w' evs,
    process_directory env demo_self "batch" None (Some 3%Z) batch_world
    = (Ok results, w') ∧
    trace w' = trace (get_unique_files env "batch" batch_world).2 ++ evs ∧
    sleeps evs = replicate (length (Py.slice_to_Z 3 unique_files) - 1) 2 ∧
    ∀ seconds, last (batch_view evs) ≠ Some (Slept seconds).
Proof.
  intros env unique_files.
  apply (process_directory_pauses env demo_self "batch" None (Some 3%Z) batch_world
           unique_files (get_unique_files env "batch" batch_world).2).
  vm_compute. reflexivity.
Defined.

Lemma process_directory_results_in_order_witness :
  let env := batch_env (Ok 0%Z) demo_ok demo_ok in
  let run := process_directory env demo_self "batch" None (Some 2%Z) batch_world in
  let results := match run.1 with Ok results => results | Raise _ => [] end in
  re_file <$> results
    `sublist_of` ["batch/c1.mp3"; "batch/c2.mp3"; "batch/c3.wav"; "batch/c4.flac";
                  "batch/c5.ogg"] ∧
  NoDup (re_file <$> results) ∧
  StronglySorted String.le (re_file <$> results).
Proof.
  intros env run results.
  apply (process_directory_results_in_order env demo_self "batch" None (Some 2%Z)
           batch_world
           ["batch/c1.mp3"; "batch/c2.mp3"; "batch/c3.wav"; "batch/c4.flac";
            "batch/c5.ogg"]
           (get_unique_files env "batch" batch_world).2 results run.2).
  - vm_compute. reflexivity.
  - vm_compute. reflexivity.
Defined.

(** ** Round by round *)

Ltac quiet_events :=
  repeat (apply Forall_cons; split; [first [by left | by right]|]);
  by apply Forall_nil_2.

Section Rounds.
Context (env : Env) (self : TalkIntelTranscriber) (webhook_endpoint : option string).

Lemma process_file_cases i n audio_file results w :
  process_file env self webhook_endpoint i n audio_file results w
  = match transcribe_file env self audio_file true
            (log [EvPrint (MsgProcessingUnique i n);
                  EvPrint (MsgFile (Os.basename audio_file))] w) with
    | (Ok result, w1) =>
        if result_truthy result then
          let results' :=
            results ++ [{| re_file := audio_file;
                           re_transcription := default JNull result |}] in
          if str_truthy webhook_endpoint then
            match send_to_webhook env (default JNull result)
                    (default "" webhook_endpoint) w1 with
            | (Ok _, w2) => (Ok results', paused i n w2)
            | (Raise e, w2) => (Raise e, w2)
            end
          else (Ok results', paused i n w1)
        else (Ok results, paused i n w1)
    | (Raise e, w1) => (Raise e, w1)
    end.
Proof.
  unfold process_file. unfold bind at 1. rewrite print_run.
  unfold bind at 1. rewrite print_run, log_log. simpl.
  unfold bind at 1.
  destruct (transcribe_file env self audio_file true _) as [[result|e] w1]; [|done].
  assert (∀ (rs : list ResultEntry) w2,
            (when (i <? n) (print MsgWaiting;; Os.sleep 2);; ret rs) w2
            = (Ok rs, paused i n w2)) as Hpause.
  { intros rs w2. unfold paused, when, bind, print, Os.sleep, emit, ret, log.
    destruct (i <? n); simpl; [|done]. by rewrite <-app_assoc. }
  destruct (result_truthy result).
  - destruct (str_truthy webhook_endpoint).
    + unfold bind at 1. unfold bind at 1. unfold bind at 1.
      destruct (send_to_webhook env _ _ w1) as [[ok|e] w2]; [|done].
      apply Hpause.
    + unfold bind at 1. unfold bind at 1. unfold ret at 1. unfold ret at 1.
      apply Hpause.
  - unfold bind at 1. unfold ret at 1. apply Hpause.
Qed.

(** A relation between the result list and the world before and after that
    holds across every step of a round holds across the whole batch. *)
Context (R : list ResultEntry * World → list ResultEntry * World → Prop).
Context (R_refl : ∀ x, R x x).
Context (R_trans : ∀ x y z, R x y → R y z → R x z).
Context (R_log : ∀ results w evs,
           Forall (λ ev, is_print ev = true ∨ is_sleep ev = true) evs →
           R (results, w) (results, log evs w)).
Context (R_call : ∀ results audio_file w result w',
           transcribe_file env self audio_file true w = (Ok result, w') →
           R (results, w) (results, w')).
Context (R_keep : ∀ results audio_file transcription_data w w',
           PyJson.truthy transcription_data = true →
           forwards env webhook_endpoint transcription_data w w' →
           R (results, w)
             (results ++ [{| re_file := audio_file;
                             re_transcription := transcription_data |}], w')).

Lemma paused_rel i n results w : R (results, w) (results, paused i n w).
Proof.
  unfold paused. destruct (i <? n); [|done].
  apply R_log. quiet_events.
Qed.

Lemma process_file_rel i n audio_file results w :
  ∃ results' w',
    process_file env self webhook_endpoint i n audio_file results w
    = (Ok results', w') ∧
    R (results, w) (results', w').
Proof.
  rewrite process_file_cases.
  set (w0 := log [EvPrint (MsgProcessingUnique i n);
                  EvPrint (MsgFile (Os.basename audio_file))] w).
  assert (R (results, w) (results, w0)) as Hstart.
  { apply R_log. quiet_events. }
  destruct (transcribe_file_returns env self audio_file true w0)
    as (result & w1 & Hcall).
  rewrite Hcall. pose proof (R_call results _ _ _ _ Hcall) as Hcalled.
  destruct result as [j|]; simpl; [destruct (PyJson.truthy j) eqn:Htruthy|].
  - destruct (str_truthy webhook_endpoint) eqn:Hep.
    + destruct (send_to_webhook_returns env j (default "" webhook_endpoint) w1)
        as (ok & w2 & Hhook).
      rewrite Hhook. eexists _, _. split; [done|].
      eapply R_trans; [exact Hstart|]. eapply R_trans; [exact Hcalled|].
      eapply R_trans; [|apply paused_rel].
      apply R_keep; [done|]. unfold forwards. rewrite Hep. by exists ok.
    + eexists _, _. split; [done|].
      eapply R_trans; [exact Hstart|]. eapply R_trans; [exact Hcalled|].
      eapply R_trans; [|apply paused_rel].
      apply R_keep; [done|]. unfold forwards. by rewrite Hep.
  - eexists _, _. split; [done|].
    eapply R_trans; [exact Hstart|]. eapply R_trans; [exact Hcalled|].
    apply paused_rel.
  - eexists _, _. split; [done|].
    eapply R_trans; [exact Hstart|]. eapply R_trans; [exact Hcalled|].
    apply paused_rel.
Qed.

Lemma process_loop_rel n unique_files :
  ∀ i results w,
  ∃ results' w',
    process_loop env self webhook_endpoint i n unique_files results w
    = (Ok results', w') ∧
    R (results, w) (results', w').
Proof.
  induction unique_files as [|f rest IH]; intros i results w.
  - eexists _, _. split; [done|]. apply R_refl.
  - cbn [process_loop]. unfold bind.
    destruct (process_file_rel i n f results w) as (results1 & w1 & -> & Hround).
    destruct (IH (S i) results1 w1) as (results2 & w2 & -> & Hrest).
    eexists _, _. split; [done|]. by eapply R_trans.
Qed.

Lemma process_directory_rel directory_path max_files w :
  ∃ results w',
    process_directory env self directory_path webhook_endpoint max_files w
    = (Ok results, w') ∧
    R ([], w) (results, w').
Proof.
  unfold process_directory. unfold bind at 1. rewrite get_unique_files_run.
  assert (∃ unique_files evs,
    match env_rglob env (trace w) directory_path with
    | Some entries =>
        (Ok (Py.sort String.leb (best_path <$> file_groups_of entries)),
         log (concat (dup_report <$> file_groups_of entries)) w)
    | None => (Ok [], log [EvPrint (MsgDirNotFound directory_path)] w)
    end = (Ok unique_files, log evs w) ∧
    Forall (λ ev, is_print ev = true ∨ is_sleep ev = true) evs)
    as (unique_files & evs & -> & Hevs).
  { destruct (env_rglob env (trace w) directory_path) as [entries|].
    - eexists _, _. split; [done|]. apply dup_reports_prints. intros m. by left.
    - eexists _, _. split; [done|]. quiet_events. }
  pose proof (R_log [] w evs Hevs) as Hfound.
  destruct unique_files as [|f l].
  - unfold bind. rewrite print_run. eexists _, _. split; [done|].
    eapply R_trans; [exact Hfound|]. apply R_log. quiet_events.
  - unfold bind at 1. rewrite print_run.
    set (w1 := log [EvPrint (MsgFound (length (f :: l)))] (log evs w)).
    assert (R ([], w) ([], w1)) as Hw1.
    { eapply R_trans; [exact Hfound|]. apply R_log. quiet_events. }
    unfold bind at 1.
    assert (∃ batch w2,
      (if int_truthy max_files then
         print (MsgProcessingFirst
                  (length (Py.slice_to_Z (default 0%Z max_files) (f :: l))));;
         ret (Py.slice_to_Z (default 0%Z max_files) (f :: l))
       else ret (f :: l)) w1 = (Ok batch, w2) ∧ R ([], w) ([], w2))
      as (batch & w2 & -> & Hw2).
    { destruct (int_truthy max_files).
      - unfold bind. rewrite print_run. eexists _, _. split; [done|].
        eapply R_trans; [exact Hw1|]. apply R_log. quiet_events.
      - by eexists _, _. }
    unfold bind at 1.
    destruct (process_loop_rel (length batch) batch 1 [] w2)
      as (results & w3 & -> & Hloop).
    unfold bind. rewrite print_run. eexists _, _. split; [done|].
    eapply R_trans; [exact Hw2|]. eapply R_trans; [exact Hloop|].
    apply R_log. quiet_events.
Qed.
End Rounds.

(** ** What the batch forwards, keeps and leaves *)

Section BatchWorld.
Context (env : Env) (self : TalkIntelTranscriber).

Lemma quiet_no_webhook_posts evs :
  Forall (λ ev, is_print ev = true ∨ is_sleep ev = true) evs → webhook_posts evs = [].
Proof.
  intros Hevs. apply omap_nil_Forall. eapply Forall_impl; [exact Hevs|].
  intros [] [?|?]; done.
Qed.

Lemma transcribe_file_no_webhook_posts audio_file_path use_preset w r w' :
  transcribe_file env self audio_file_path use_preset w = (r, w') →
  ∃ evs, trace w' = trace w ++ evs ∧ webhook_posts evs = [] ∧ sleeps evs = [] ∧
         Forall (λ ev, is_write ev = false) evs.
Proof.
  intros Hrun.
  destruct (transcribe_file_emits_kinds
              (λ ev, is_webhook ev = false ∧ is_sleep ev = false ∧ is_write ev = false)
              env self ltac:(done) audio_file_path use_preset
              ltac:(done) ltac:(done) ltac:(done) ltac:(done) w)
    as (evs & Htr & Hevs).
  rewrite Hrun in Htr. exists evs. split_and!; [done| | |].
  - apply omap_nil_Forall. eapply Forall_impl; [exact Hevs|]. by intros [] (? & ? & ?).
  - apply omap_nil_Forall. eapply Forall_impl; [exact Hevs|]. by intros [] (? & ? & ?).
  - eapply Forall_impl; [exact Hevs|]. by intros ev (? & ? & ?).
Qed.

Lemma send_to_webhook_hooks transcription_data webhook_endpoint w r w' :
  send_to_webhook env transcription_data webhook_endpoint w = (r, w') →
  ∃ evs,
    trace w' = trace w ++ evs ∧ files w' = files w ∧
    webhook_posts evs
    = match transcription_data with
      | JDict d =>
          [(webhook_endpoint,
            webhook_payload_of env d
              (trace w ++ [EvPrint (MsgWebhookSending webhook_endpoint)]), 30)]
      | _ => []
      end.
Proof.
  rewrite send_to_webhook_cases.
  destruct transcription_data;
    try (intros [= <- <-]; eexists; split_and!; [reflexivity|done|done]).
  cbn zeta. destruct (env_webhook env _ _ _) as [response|e].
  - destruct (status_code response =? 200)%Z; intros [= <- <-];
      (eexists; split_and!;
         [simpl; rewrite <-!app_assoc; reflexivity|done|done]).
  - intros [= <- <-].
    eexists; split_and!; [simpl; rewrite <-!app_assoc; reflexivity|done|done].
Qed.

(** X18.  What [process_directory] sends to the webhook.  Without an
    endpoint ([None] or the empty string) nothing is sent.  With one, every
    post goes to that endpoint with a time-out of 30 s and the fixed source
    tag, and the transcripts sent are, in order, those of the entries of the
    result list whose transcription is a JSON object: one post for each,
    none for a file that failed. *)
Theorem process_directory_forwards_results
    directory_path webhook_endpoint max_files w :
  ∃ results w' evs,
    process_directory env self directory_path webhook_endpoint max_files w
    = (Ok results, w') ∧
    trace w' = trace w ++ evs ∧
    (∀ ep webhook_payload timeout,
       (ep, webhook_payload, timeout) ∈ webhook_posts evs →
       webhook_endpoint = Some ep ∧ ep ≠ "" ∧ timeout = 30 ∧
       wp_source webhook_payload = "sippulse_ai_batch_processor") ∧
    (λ x, wp_transcription x.1.2) <$> webhook_posts evs
    = if str_truthy webhook_endpoint then omap forwarded results else [].
Proof.
  set (sent_ok := λ x : string * WebhookPayload * nat,
         webhook_endpoint = Some x.1.1 ∧ x.1.1 ≠ "" ∧ x.2 = 30 ∧
         wp_source x.1.2 = "sippulse_ai_batch_processor").
  set (R := λ x y : list ResultEntry * World,
         ∃ evs new,
           trace y.2 = trace x.2 ++ evs ∧ y.1 = x.1 ++ new ∧
           Forall sent_ok (webhook_posts evs) ∧
           (λ x, wp_transcription x.1.2) <$> webhook_posts evs
           = if str_truthy webhook_endpoint then omap forwarded new else []).
  destruct (process_directory_rel env self webhook_endpoint R) with
    (directory_path := directory_path) (max_files := max_files) (w := w)
    as (results & w' & Hrun & evs & new & Htr & Hnew & Hok & Hsent).
  - intros [results0 w0]. exists [], []. simpl.
    rewrite !app_nil_r. split_and!; [done|done|done|by destruct (str_truthy _)].
  - intros [r1 w1] [r2 w2] [r3 w3] (evs1 & new1 & Ht1 & Hr1 & Hok1 & Hs1)
      (evs2 & new2 & Ht2 & Hr2 & Hok2 & Hs2). simpl in *.
    exists (evs1 ++ evs2), (new1 ++ new2). simpl.
    unfold webhook_posts in *. rewrite omap_app, fmap_app, Hs1, Hs2.
    split_and!.
    + by rewrite Ht2, Ht1, app_assoc.
    + by rewrite Hr2, Hr1, app_assoc.
    + by apply Forall_app.
    + destruct (str_truthy webhook_endpoint); [by rewrite omap_app|done].
  - intros results0 w0 evs Hevs. exists evs, []. simpl.
    rewrite (quiet_no_webhook_posts _ Hevs), app_nil_r.
    split_and!; [done|done|done|by destruct (str_truthy _)].
  - intros results0 audio_file w0 result w1 Hcall.
    destruct (transcribe_file_no_webhook_posts _ _ _ _ _ Hcall)
      as (evs & Htr & Hposts & _).
    exists evs, []. simpl. rewrite Hposts, app_nil_r.
    split_and!; [done|done|done|by destruct (str_truthy _)].
  - intros results0 audio_file transcription_data w0 w1 Htruthy Hforwards.
    unfold forwards in Hforwards.
    destruct (str_truthy webhook_endpoint) eqn:Hep.
    + destruct webhook_endpoint as [ep|]; [|done]. simpl in Hep, Hforwards.
      destruct Hforwards as [ok Hhook].
      destruct (send_to_webhook_hooks _ _ _ _ _ Hhook) as (evs & Htr & _ & Hposts).
      exists evs, [{| re_file := audio_file; re_transcription := transcription_data |}].
      simpl. rewrite Hposts. split_and!; [done|done| |].
      * destruct transcription_data; try by constructor.
        repeat constructor; simpl; try done.
        intros ->. done.
      * unfold forwarded. simpl. by destruct transcription_data.
    + subst w1. eexists [], [_]. simpl. rewrite app_nil_r.
      split_and!; [done|done|by constructor|done].
  - simpl in *. subst new. exists results, w', evs.
    split_and!; [done|done| |by rewrite Hsent].
    + intros ep payload t Hin. rewrite Forall_forall in Hok.
      apply (Hok _ Hin).
Qed.

(** X19.  A file whose path [NamedTemporaryFile] never gives out is never
    removed by [process_directory]: the recordings are still there when
    the batch is over. *)
Theorem process_directory_keeps_recordings
    directory_path webhook_endpoint max_files w p :
  (∀ tr, env_mkstemp env tr ≠ Ok p) →
  p ∈ files w →
  ∃ results w',
    process_directory env self directory_path webhook_endpoint max_files w
    = (Ok results, w') ∧
    p ∈ files w'.
Proof.
  intros Hfresh Hp.
  destruct (process_directory_rel env self webhook_endpoint
              (λ x y, p ∈ files x.2 → p ∈ files y.2)) with
    (directory_path := directory_path) (max_files := max_files) (w := w)
    as (results & w' & Hrun & Hkeep).
  - done.
  - intros x y z Hxy Hyz Hx. by apply Hyz, Hxy.
  - done.
  - intros results0 audio_file w0 result w1 Hcall Hp0. simpl in *.
    destruct (transcribe_file_frame env self audio_file true w0)
      as (r & w2 & evs & Hrun & _ & _ & Hkeep & _).
    rewrite Hcall in Hrun. injection Hrun as <- <-. by apply Hkeep.
  - intros results0 audio_file transcription_data w0 w1 _ Hforwards Hp0. simpl in *.
    unfold forwards in Hforwards. destruct (str_truthy webhook_endpoint).
    + destruct Hforwards as [ok Hhook].
      destruct (send_to_webhook_hooks _ _ _ _ _ Hhook) as (evs & _ & Hfiles & _).
      by rewrite Hfiles.
    + by subst w1.
  - exists results, w'. split; [done|]. by apply Hkeep.
Qed.

(** X20.  When the transcoder can be started (its launch never fails with
    [FileNotFoundError]) and temporary files have a name, [process_directory]
    leaves no file behind: every file on disk after the batch was there
    before it. *)
Theorem process_directory_leaves_no_temp_file
    directory_path webhook_endpoint max_files w :
  (∀ tr cmd, env_run env tr cmd ≠ Raise FileNotFoundError) →
  (∀ tr, env_mkstemp env tr ≠ Ok "") →
  ∃ results w',
    process_directory env self directory_path webhook_endpoint max_files w
    = (Ok results, w') ∧
    ∀ p, p ∈ files w' → p ∈ files w.
Proof.
  intros Hinstalled Hnamed.
  destruct (process_directory_rel env self webhook_endpoint
              (λ x y, ∀ p, p ∈ files y.2 → p ∈ files x.2)) with
    (directory_path := directory_path) (max_files := max_files) (w := w)
    as (results & w' & Hrun & Hleft).
  - done.
  - intros x y z Hxy Hyz p Hp. by apply Hxy, Hyz.
  - done.
  - intros results0 audio_file w0 result w1 Hcall p Hp. simpl in *.
    destruct (transcribe_file_frame env self audio_file true w0)
      as (r & w2 & evs & Hrun & _ & _ & _ & Hleft & _).
    rewrite Hcall in Hrun. injection Hrun as <- <-.
    destruct (Hleft p Hp) as [?|[Hmk [->|Hmissing]]]; [done| |].
    + by destruct (Hnamed (trace w0)).
    + by destruct (Hinstalled _ _ Hmissing).
  - intros results0 audio_file transcription_data w0 w1 _ Hforwards p Hp. simpl in *.
    unfold forwards in Hforwards. destruct (str_truthy webhook_endpoint).
    + destruct Hforwards as [ok Hhook].
      destruct (send_to_webhook_hooks _ _ _ _ _ Hhook) as (evs & _ & Hfiles & _).
      by rewrite <-Hfiles.
    + by subst w1.
  - by exists results, w'.
Qed.
End BatchWorld.

Lemma process_directory_keeps_recordings_witness :
  ∃ results w',
    process_directory (batch_env (Ok 0%Z) demo_ok demo_ok) demo_self "batch" None None
      batch_world = (Ok results, w') ∧
    "batch/c1.mp3" ∈ files w'.
Proof.
  apply (process_directory_keeps_recordings (batch_env (Ok 0%Z) demo_ok demo_ok)
           demo_self "batch" None None batch_world "batch/c1.mp3").
  - intros tr. simpl. discriminate.
  - apply (bool_decide_unpack _). vm_compute. exact I.
Defined.

Lemma process_directory_leaves_no_temp_file_witness :
  ∃ results w',
    process_directory (batch_env (Ok 0%Z) demo_server_error demo_ok) demo_self "batch"
      None None batch_world = (Ok results, w') ∧
    ∀ p, p ∈ files w' → p ∈ files batch_world.
Proof.
  apply (process_directory_leaves_no_temp_file
           (batch_env (Ok 0%Z) demo_server_error demo_ok) demo_self "batch" None None
           batch_world).
  - intros tr cmd. simpl. discriminate.
  - intros tr. simpl. discriminate.
Defined.

(** ** [main] *)

Lemma print_listing_run unique_files :
  ∀ i w, print_listing i unique_files w = (Ok (), log (listing i unique_files) w).
Proof.
  induction unique_files as [|f rest IH]; intros i w; simpl.
  - by rewrite log_nil.
  - unfold bind. by rewrite print_run, IH, log_log.
Qed.

Lemma listed_listing unique_files :
  ∀ i, listed (listing i unique_files)
       = zip (seq i (length unique_files)) (Os.basename <$> unique_files).
Proof.
  induction unique_files as [|f rest IH]; intros i; [done|].
  simpl. unfold listed in *. simpl. by rewrite IH.
Qed.

Lemma dup_reports_only groups :
  Forall (λ ev, ∃ s dropped used, ev = EvPrint (MsgDuplicates s dropped used))
         (concat (dup_report <$> groups)).
Proof.
  induction groups as [|[k fs] groups IH]; [constructor|].
  rewrite fmap_cons. cbn [concat]. apply Forall_app. split; [|done].
  apply Forall_forall. intros ev Hev.
  apply dup_report_spec in Hev as (b & others & _ & _ & ->). by eexists _, _, _.
Qed.

Lemma test_key_leb_total x y : test_key_leb x y = true ∨ test_key_leb y x = true.
Proof.
  unfold test_key_leb.
  destruct (Py.endswith x ".mp3"), (Py.endswith y ".mp3"); simpl; auto;
    apply String.leb_total.
Qed.

Lemma string_leb_trans x y z :
  String.leb x y = true → String.leb y z = true → String.leb x z = true.
Proof.
  intros Hxy Hyz.
  assert (String.le x z) as Hxz.
  { transitivity y; unfold String.le; [by rewrite Hxy | by rewrite Hyz]. }
  unfold String.le in Hxz. by destruct (String.leb x z).
Qed.

Lemma test_key_leb_trans x y z :
  test_key_leb x y = true → test_key_leb y z = true → test_key_leb x z = true.
Proof.
  unfold test_key_leb.
  destruct (Py.endswith x ".mp3"), (Py.endswith y ".mp3"), (Py.endswith z ".mp3");
    simpl; try done; apply string_leb_trans.
Qed.

Lemma audio_path_nonempty e : is_audio_file e = true → entry_path e ≠ "".
Proof.
  intros Haudio Hempty. unfold is_audio_file in Haudio. rewrite Hempty in Haudio.
  apply andb_true_iff in Haudio as [_ Hext]. by vm_compute in Hext.
Qed.

(** The file picked by [--test] is an audio file of the walk that comes
    first in the order of the sort key. *)
Lemma test_file_of_spec entries e :
  e ∈ entries → is_audio_file e = true →
  ∃ test_file,
    test_file_of entries = Some test_file ∧ test_file ≠ "" ∧
    (∃ e0, e0 ∈ entries ∧ is_audio_file e0 = true ∧ entry_path e0 = test_file) ∧
    ∀ e', e' ∈ entries → is_audio_file e' = true →
          test_key_leb test_file (entry_path e') = true.
Proof.
  intros He Haudio. unfold test_file_of.
  set (audio_files := entry_path <$> filter _ entries).
  assert (∀ p, p ∈ audio_files ↔
               ∃ e0, e0 ∈ entries ∧ is_audio_file e0 = true ∧ entry_path e0 = p)
    as Hin.
  { intros p. unfold audio_files. rewrite list_elem_of_fmap. split.
    - intros (e0 & -> & [Hp ?]%list_elem_of_filter). exists e0.
      split_and!; [done| |done]. unfold is_audio_file. by apply Is_true_true.
    - intros (e0 & ? & Hp & <-). exists e0. split; [done|].
      apply list_elem_of_filter. split; [|done]. apply Is_true_true. exact Hp. }
  pose proof (sort_StronglySorted test_key_leb test_key_leb_total test_key_leb_trans
                audio_files) as Hsorted.
  pose proof (sort_Permutation test_key_leb audio_files) as Hperm.
  destruct (Py.sort test_key_leb audio_files) as [|p sorted].
  { assert (entry_path e ∈ audio_files) as Hmem by (apply Hin; eauto).
    rewrite <-Hperm in Hmem. by apply elem_of_nil in Hmem. }
  assert (p ∈ audio_files) as Hp by (rewrite <-Hperm; left).
  apply Hin in Hp as (e0 & He0 & Haudio0 & Hpath).
  exists p. split_and!; [done| |by exists e0|].
  - rewrite <-Hpath. by apply audio_path_nonempty.
  - intros e' He' Haudio'.
    assert (entry_path e' ∈ p :: sorted) as Hmem by (rewrite Hperm; apply Hin; eauto).
    apply StronglySorted_inv in Hsorted as [_ Hall].
    apply elem_of_cons in Hmem as [->|Hmem].
    + destruct (test_key_leb_total p p); done.
    + rewrite Forall_forall in Hall. by apply Hall.
Qed.

Section MainMore.
Context (env : Env).

Lemma main_list_cases args w :
  arg_list_files args = true →
  main env args w
  = match get_unique_files env (arg_directory args) (log [EvPrint MsgScanning] w) with
    | (Ok unique_files, w1) =>
        (Ok (),
         log (match unique_files with
              | [] => [EvPrint (MsgNoUniqueFiles (arg_directory args))]
              | _ :: _ => EvPrint (MsgFound (length unique_files)) :: listing 1 unique_files
              end) w1)
    | (Raise e, w1) => (Raise e, w1)
    end.
Proof.
  intros Hlist. unfold main. rewrite Hlist.
  unfold bind at 1. rewrite print_run. unfold bind at 1.
  destruct (get_unique_files env _ _) as [[[|f l]|e] w1]; [done| |done].
  unfold bind. by rewrite print_run, print_listing_run, log_log.
Qed.

Lemma main_test_cases args w :
  arg_list_files args = false → arg_test args = true →
  let w0 := log [EvPrint MsgTestMode] w in
  let test_file :=
    match env_rglob env (trace w0) (arg_directory args) with
    | None => None
    | Some entries => test_file_of entries
    end in
  main env args w
  = if str_truthy test_file then
      match transcribe_file env (new_transcriber (arg_api_key args))
              (default "" test_file) (negb (arg_no_preset args))
              (log [EvPrint (MsgTestingWith (default "" test_file))] w0) with
      | (Ok result, w1) =>
          (Ok (), log [EvPrint (if result_truthy result then MsgTestOk
                                else MsgTestFailed)] w1)
      | (Raise e, w1) => (Raise e, w1)
      end
    else (Ok (), log [EvPrint (MsgNoAudioFiles (arg_directory args))] w0).
Proof.
  intros Hlist Htest w0 test_file. unfold main. rewrite Hlist, Htest.
  unfold bind at 1. rewrite print_run. fold w0.
  unfold bind at 1. unfold ask at 1.
  change (match env_rglob env (trace w0) (arg_directory args) with
          | Some entries =>
              head (Py.sort test_key_leb
                      (entry_path <$>
                         filter (λ e, entry_is_file e
                                      && is_audio_extension
                                           (Py.lower (Path.suffix (entry_path e))))
                                entries))
          | None => None
          end) with test_file.
  destruct (str_truthy test_file); [|by rewrite print_run].
  unfold bind at 1. rewrite print_run. unfold bind at 1.
  destruct (transcribe_file env _ _ _ _) as [[result|e] w1]; [|done].
  by destruct (result_truthy result).
Qed.

(** X21.  [--list-files] only prints: after the duplicate report of
    [get_unique_files] it lists the base names of exactly the files that
    function returns, numbered from 1 in its order, whatever the other
    options are; nothing is created, converted, uploaded or written, and
    the files on disk are the same. *)
Theorem main_list_files_only_lists args w :
  arg_list_files args = true →
  ∃ unique_files w0 w' evs,
    get_unique_files env (arg_directory args) (log [EvPrint MsgScanning] w)
    = (Ok unique_files, w0) ∧
    main env args w = (Ok (), w') ∧
    trace w' = trace w ++ evs ∧
    Forall (λ ev, is_print ev = true) evs ∧
    files w' = files w ∧
    listed evs = zip (seq 1 (length unique_files)) (Os.basename <$> unique_files).
Proof.
  intros Hlist. rewrite (main_list_cases args w Hlist), get_unique_files_run.
  set (w1 := log [EvPrint MsgScanning] w).
  assert (∃ unique_files evs0,
    match env_rglob env (trace w1) (arg_directory args) with
    | Some entries =>
        (Ok (Py.sort String.leb (best_path <$> file_groups_of entries)),
         log (concat (dup_report <$> file_groups_of entries)) w1)
    | None => (Ok [], log [EvPrint (MsgDirNotFound (arg_directory args))] w1)
    end = (Ok unique_files, log evs0 w1) ∧
    Forall (λ ev, is_print ev = true) evs0 ∧ listed evs0 = [])
    as (unique_files & evs0 & -> & Hprints & Hnone).
  { destruct (env_rglob env (trace w1) (arg_directory args)) as [entries|].
    - eexists _, _. split_and!; [done|by apply dup_reports_prints|].
      apply omap_nil_Forall. eapply Forall_impl; [apply dup_reports_only|].
      by intros ev (s & dropped & used & ->).
    - eexists _, _. split_and!; [done|by repeat constructor|done]. }
  exists unique_files, (log evs0 w1).
  eexists _, ([EvPrint MsgScanning] ++ evs0 ++ _).
  split_and!; [done|done| | |done|].
  - simpl. by rewrite <-!app_assoc.
  - apply Forall_app. split; [by repeat constructor|]. apply Forall_app. split; [done|].
    destruct unique_files; [by repeat constructor|].
    constructor; [done|]. apply Forall_forall. intros ev Hev.
    clear -Hev. revert Hev. generalize 1.
    induction (s :: unique_files) as [|f l IH]; intros i Hev;
      [by apply elem_of_nil in Hev|].
    simpl in Hev. apply elem_of_cons in Hev as [->|Hev]; [done|by eapply IH].
  - unfold listed in *. rewrite !omap_app, Hnone. simpl.
    destruct unique_files as [|f l]; [done|].
    apply (listed_listing (f :: l) 1).
Qed.

(** X22.  [--test] sends at most one request, shaped by [--no-preset]
    (the preset mode exactly when the flag is absent), and never pauses,
    posts to the webhook or writes a results file. *)
Theorem main_test_sends_one_request args w :
  arg_list_files args = false → arg_test args = true →
  ∃ w' evs,
    main env args w = (Ok (), w') ∧
    trace w' = trace w ++ evs ∧
    (posts evs = [] ∨
     ∃ file_name converted_file,
       posts evs = [upload_request (new_transcriber (arg_api_key args))
                      (negb (arg_no_preset args)) file_name converted_file]) ∧
    webhook_posts evs = [] ∧
    sleeps evs = [] ∧
    Forall (λ ev, is_write ev = false) evs.
Proof.
  intros Hlist Htest. rewrite (main_test_cases args w Hlist Htest). cbn zeta.
  destruct (str_truthy _).
  - set (self := new_transcriber (arg_api_key args)).
    set (w0 := log [EvPrint (MsgTestingWith _)] _).
    destruct (transcribe_file_frame env self
                (default "" match env_rglob env (trace (log [EvPrint MsgTestMode] w))
                                    (arg_directory args) with
                            | Some entries => test_file_of entries
                            | None => None
                            end)
                (negb (arg_no_preset args)) w0)
      as (r & w1 & evs & Hrun & Htr & _ & _ & _ & Hposts).
    destruct (transcribe_file_no_webhook_posts env self _ _ _ _ _ Hrun)
      as (evs' & Htr' & Hhooks & Hsleeps & Hwrites).
    rewrite Htr in Htr'. apply app_inv_head in Htr'. subst evs'.
    rewrite Hrun.
    eexists _, ([EvPrint MsgTestMode; EvPrint (MsgTestingWith _)] ++ evs ++ [_]).
    split_and!; [done| | | | |].
    + simpl. rewrite Htr. unfold w0. simpl. by rewrite <-!app_assoc.
    + unfold posts in *. rewrite !omap_app. simpl. rewrite app_nil_r.
      destruct Hposts as [->|[converted_file ->]]; [by left|right; by eexists _, _].
    + unfold webhook_posts in *. rewrite !omap_app, Hhooks. done.
    + unfold sleeps in *. rewrite !omap_app, Hsleeps. done.
    + repeat (apply Forall_app; split); [by repeat constructor|done|by repeat constructor].
  - eexists _, [_; _].
    split_and!; [done|simpl; by rewrite <-app_assoc|by left|done|done
                |by repeat constructor].
Qed.

(** X23.  [--test] takes its file from all audio files of the walk, not
    from the de-duplicated list: the first in the order of the key
    [(0 if x.endswith('.mp3') else 1, x)].  So when some audio file has a
    path that ends in lower-case [.mp3], the file tested is the least such
    path. *)
Theorem main_test_prefers_mp3 args w entries e :
  arg_list_files args = false → arg_test args = true →
  env_rglob env (trace w ++ [EvPrint MsgTestMode]) (arg_directory args) = Some entries →
  e ∈ entries → is_audio_file e = true →
  ∃ test_file w' evs,
    main env args w = (Ok (), w') ∧
    trace w' = trace w ++ evs ∧
    EvPrint (MsgTestingWith test_file) ∈ evs ∧
    (∃ e0, e0 ∈ entries ∧ is_audio_file e0 = true ∧ entry_path e0 = test_file) ∧
    (∀ e', e' ∈ entries → is_audio_file e' = true →
           test_key_leb test_file (entry_path e') = true) ∧
    (Py.endswith (entry_path e) ".mp3" = true →
     Py.endswith test_file ".mp3" = true ∧ String.le test_file (entry_path e)).
Proof.
  intros Hlist Htest Hls He Haudio.
  rewrite (main_test_cases args w Hlist Htest). cbn zeta.
  change (trace (log [EvPrint MsgTestMode] w)) with (trace w ++ [EvPrint MsgTestMode]).
  rewrite Hls.
  destruct (test_file_of_spec entries e He Haudio)
    as (test_file & -> & Hne & Hfrom & Hleast).
  simpl. apply String.eqb_neq in Hne. rewrite Hne. simpl.
  set (self := new_transcriber (arg_api_key args)).
  set (w0 := log [EvPrint (MsgTestingWith test_file)] _).
  destruct (transcribe_file_frame env self test_file (negb (arg_no_preset args)) w0)
    as (r & w1 & evs & Hrun & Htr & _).
  rewrite Hrun.
  exists test_file. eexists _, ([_; EvPrint (MsgTestingWith test_file)] ++ evs ++ [_]).
  split_and!; [done| | |done|done|].
  - simpl. rewrite Htr. unfold w0. simpl. by rewrite <-!app_assoc.
  - apply elem_of_app. left. right. left.
  - intros Hmp3. specialize (Hleast e He Haudio). unfold test_key_leb in Hleast.
    rewrite Hmp3 in Hleast. destruct (Py.endswith test_file ".mp3"); simpl in Hleast.
    + split; [done|]. unfold String.le. by rewrite Hleast.
    + done.
Qed.
End MainMore.

Lemma main_list_files_only_lists_witness :
  let env := demo_env (Ok 0%Z) demo_ok demo_ok in
  let args :=
    {| arg_directory := "calls"; arg_api_key := None; arg_webhook := Some "http://hook";
       arg_max_files := Some 1%Z; arg_test := true; arg_no_preset := true;
       arg_list_files := true |} in
  ∃ unique_files w0 w' evs,
    get_unique_files env "calls" (log [EvPrint MsgScanning] demo_world)
    = (Ok unique_files, w0) ∧
    main env args demo_world = (Ok (), w') ∧
    trace w' = trace demo_world ++ evs ∧
    Forall (λ ev, is_print ev = true) evs ∧
    files w' = files demo_world ∧
    listed evs = zip (seq 1 (length unique_files)) (Os.basename <$> unique_files).
Proof.
  intros env args.
  apply (main_list_files_only_lists env args demo_world).
  reflexivity.
Defined.

Lemma main_test_sends_one_request_witness :
  let env := demo_env (Ok 0%Z) demo_ok demo_ok in
  let args :=
    {| arg_directory := "calls"; arg_api_key := Some "k"; arg_webhook := Some "http://hook";
       arg_max_files := None; arg_test := true; arg_no_preset := true;
       arg_list_files := false |} in
  ∃ w' evs,
    main env args demo_world = (Ok (), w') ∧
    trace w' = trace demo_world ++ evs ∧
    (posts evs = [] ∨
     ∃ file_name converted_file,
       posts evs = [upload_request (new_transcriber (Some "k")) (negb true)
                      file_name converted_file]) ∧
    webhook_posts evs = [] ∧
    sleeps evs = [] ∧
    Forall (λ ev, is_write ev = false) evs.
Proof.
  intros env args.
  apply (main_test_sends_one_request env args demo_world); reflexivity.
Defined.

Lemma main_test_prefers_mp3_witness :
  let env := demo_env (Ok 1%Z) demo_ok demo_ok in
  let args :=
    {| arg_directory := "calls"; arg_api_key := Some "k"; arg_webhook := None;
       arg_max_files := None; arg_test := true; arg_no_preset := false;
       arg_list_files := false |} in
  let e := {| entry_path := "calls/a.mp3"; entry_is_file := true |} in
  ∃ test_file w' evs,
    main env args demo_world = (Ok (), w') ∧
    trace w' = trace demo_world ++ evs ∧
    EvPrint (MsgTestingWith test_file) ∈ evs ∧
    (∃ e0, e0 ∈ demo_listing ∧ is_audio_file e0 = true ∧ entry_path e0 = test_file) ∧
    (∀ e', e' ∈ demo_listing → is_audio_file e' = true →
           test_key_leb test_file (entry_path e') = true) ∧
    (Py.endswith (entry_path e) ".mp3" = true →
     Py.endswith test_file ".mp3" = true ∧ String.le test_file (entry_path e)).
Proof.
  intros env args e.
  apply (main_test_prefers_mp3 env args demo_world demo_listing e).
  - reflexivity.
  - reflexivity.
  - reflexivity.
  - repeat (first [left | right]).
  - vm_compute. reflexivity.
Defined.

(** * The batch, call by call *)

Section Chain.
Context (env : Env) (self : TalkIntelTranscriber) (webhook_endpoint : option string).

Lemma transcribe_file_result_body audio_file_path use_preset w result w' :
  transcribe_file env self audio_file_path use_preset w = (Ok (Some result), w') →
  ∃ converted_file w1,
    convert_audio_with_ffmpeg env audio_file_path w = (Ok (Some converted_file), w1).
Proof.
  rewrite transcribe_file_cases. case_bool_decide as Hin; [|by intros [=]].
  destruct (convert_audio_with_ffmpeg env audio_file_path w) as [[[c|]|e] w1] eqn:Hconv;
    [|by intros [=]..].
  intros _. by exists c, w1.
Qed.

Lemma send_to_webhook_quiet transcription_data endpoint w :
  ∃ evs,
    trace (send_to_webhook env transcription_data endpoint w).2 = trace w ++ evs ∧
    runs evs = [] ∧ posts evs = [] ∧ sleeps evs = [] ∧
    Forall (λ ev, is_write ev = false) evs.
Proof.
  destruct (send_to_webhook_emits_kinds
              (λ ev, match ev with EvPrint _ | EvWebhook _ _ _ => True | _ => False end)
              env ltac:(done) transcription_data endpoint ltac:(done) w)
    as (evs & Htr & Hevs).
  exists evs. split_and!; [done| | | |].
  - apply omap_nil_Forall. eapply Forall_impl; [exact Hevs|]. by intros [].
  - apply omap_nil_Forall. eapply Forall_impl; [exact Hevs|]. by intros [].
  - apply omap_nil_Forall. eapply Forall_impl; [exact Hevs|]. by intros [].
  - eapply Forall_impl; [exact Hevs|]. by intros [].
Qed.

Lemma after_forwarding_trace c :
  ∃ evs,
    trace (after_forwarding env webhook_endpoint c) = trace (call_after c) ++ evs ∧
    runs evs = [] ∧ posts evs = [] ∧ sleeps evs = [] ∧
    Forall (λ ev, is_write ev = false) evs.
Proof.
  unfold after_forwarding.
  destruct (result_truthy (call_result c) && str_truthy webhook_endpoint).
  - apply send_to_webhook_quiet.
  - exists []. by rewrite app_nil_r.
Qed.

Lemma paused_trace i n w :
  ∃ evs, trace (paused i n w) = trace w ++ evs ∧ runs evs = [] ∧ posts evs = [] ∧
         Forall (λ ev, is_write ev = false) evs.
Proof.
  unfold paused. destruct (i <? n).
  - eexists. split_and!; [done|done|done|by repeat constructor].
  - exists []. by rewrite app_nil_r.
Qed.

(** The transcoder runs and the requests of one call. *)
Lemma transcribe_file_work audio_file_path use_preset w :
  ∃ r w' evs,
    transcribe_file env self audio_file_path use_preset w = (Ok r, w') ∧
    trace w' = trace w ++ evs ∧
    (runs evs = [] ∨ ∃ output_file, runs evs = [ffmpeg_cmd audio_file_path output_file]) ∧
    (posts evs = [] ∨
     ∃ converted_file,
       posts evs = [upload_request self use_preset (Os.basename audio_file_path)
                      converted_file]).
Proof.
  rewrite transcribe_file_cases. case_bool_decide as Hin.
  2: { eexists _, _, [_]. split_and!; [done|done|by left|by left]. }
  rewrite convert_cases.
  destruct (env_mkstemp env (trace w)) as [out|e] eqn:Hmk.
  2: { eexists _, _, [_; _].
       split_and!; [done|simpl; by rewrite <-app_assoc|by left|by left]. }
  cbn zeta.
  assert (out ∈ files (log [EvPrint MsgConverted]
                         (transcoding audio_file_path out w))) as Hon
    by apply elem_of_created.
  pose proof (upload_cases env self use_preset audio_file_path out _ Hon) as Hupload.
  cbn zeta in Hupload.
  destruct (env_run env _ _) as [rc|e] eqn:Hrun;
    [destruct (rc =? 0)%Z;
       [destruct (String.eqb out "") eqn:Hout;
          [|rewrite Hupload; clear Hupload;
            destruct (env_api env _ _) as [response|e];
              [destruct (status_code response =? 200)%Z;
                 [destruct (response_json response) as [j|e]|]|]]|]
    |destruct e];
    (eexists _, _, _;
     split_and!;
       [reflexivity
       |unfold uploading; simpl; rewrite <-?app_assoc; reflexivity
       |right; by eexists
       |first [by left | right; by eexists]]).
Qed.

Lemma call_ok_work c : call_ok env self c → call_work self c ∧
  trace (call_after c) = trace (call_before c) ++ call_events c.
Proof.
  unfold call_ok, call_work, call_events. intros Hok.
  destruct (transcribe_file_work (call_file c) true (call_before c))
    as (r & w' & evs & Hrun & Htr & Hruns & Hposts).
  rewrite Hok in Hrun. injection Hrun as <- <-.
  rewrite Htr, drop_app_length. done.
Qed.

(** The loop as a chain of calls. *)
Lemma process_loop_chain n unique_files :
  ∀ i results w,
  ∃ calls w_end,
    call_file <$> calls = unique_files ∧
    chained env self webhook_endpoint i n w calls w_end ∧
    process_loop env self webhook_endpoint i n unique_files results w
    = (Ok (results ++ concat (kept <$> calls)), w_end).
Proof.
  induction unique_files as [|f rest IH]; intros i results w.
  - exists [], w. simpl. by rewrite app_nil_r.
  - cbn [process_loop]. unfold bind. rewrite process_file_cases.
    set (w0 := log [EvPrint (MsgProcessingUnique i n);
                    EvPrint (MsgFile (Os.basename f))] w).
    destruct (transcribe_file_returns env self f true w0) as (result & w1 & Hcall).
    rewrite Hcall.
    set (c := {| call_file := f; call_result := result; call_before := w0;
                 call_after := w1 |}).
    assert (∃ results1,
      (if result_truthy result then
         let results' :=
           results ++ [{| re_file := f; re_transcription := default JNull result |}] in
         if str_truthy webhook_endpoint then
           match send_to_webhook env (default JNull result)
                   (default "" webhook_endpoint) w1 with
           | (Ok _, w2) => (Ok results', paused i n w2)
           | (Raise e, w2) => (Raise e, w2)
           end
         else (Ok results', paused i n w1)
       else (Ok results, paused i n w1))
      = (Ok results1, paused i n (after_forwarding env webhook_endpoint c)) ∧
      results1 = results ++ kept c) as (results1 & -> & ->).
    { unfold after_forwarding, kept, c. cbn [call_result call_after call_file].
      destruct (result_truthy result); cbn [andb].
      - destruct (str_truthy webhook_endpoint).
        + destruct (send_to_webhook_returns env (default JNull result)
                      (default "" webhook_endpoint) w1) as (ok & w2 & Hhook).
          rewrite Hhook. by eexists.
        + by eexists.
      - eexists. split; [done|]. by rewrite app_nil_r. }
    destruct (IH (S i) (results ++ kept c)
                (paused i n (after_forwarding env webhook_endpoint c)))
      as (calls & w_end & Hfiles & Hchain & Hloop).
    exists (c :: calls), w_end. split_and!.
    + by rewrite fmap_cons, Hfiles.
    + cbn [chained]. split_and!; [done|exact Hcall|done].
    + rewrite Hloop. rewrite fmap_cons. cbn [concat]. by rewrite app_assoc.
Qed.

(** A batch over a non-empty list of unique files. *)
Lemma process_directory_chain directory_path max_files w unique_files w0 :
  get_unique_files env directory_path w = (Ok unique_files, w0) →
  unique_files ≠ [] →
  let batch :=
    if int_truthy max_files
    then Py.slice_to_Z (default 0%Z max_files) unique_files else unique_files in
  let announced :=
    EvPrint (MsgFound (length unique_files))
      :: (if int_truthy max_files then [EvPrint (MsgProcessingFirst (length batch))]
          else []) in
  ∃ calls w_end,
    call_file <$> calls = batch ∧
    chained env self webhook_endpoint 1 (length batch) (log announced w0) calls w_end ∧
    process_directory env self directory_path webhook_endpoint max_files w
    = (Ok (concat (kept <$> calls)),
       log [EvPrint (MsgComplete (length (concat (kept <$> calls))) (length batch))]
         w_end).
Proof.
  intros Hfiles Hne batch announced.
  unfold process_directory. unfold bind at 1. rewrite Hfiles.
  destruct unique_files as [|f l]; [done|].
  unfold bind at 1. rewrite print_run. unfold bind at 1.
  assert ((if int_truthy max_files then
             print (MsgProcessingFirst
                      (length (Py.slice_to_Z (default 0%Z max_files) (f :: l))));;
             ret (Py.slice_to_Z (default 0%Z max_files) (f :: l))
           else ret (f :: l)) (log [EvPrint (MsgFound (length (f :: l)))] w0)
          = (Ok batch, log announced w0)) as ->.
  { unfold batch, announced. destruct (int_truthy max_files).
    - unfold bind. by rewrite print_run, log_log.
    - done. }
  destruct (process_loop_chain (length batch) batch 1 [] (log announced w0))
    as (calls & w_end & Hcalls & Hchain & Hloop).
  unfold bind at 1. rewrite Hloop. unfold bind. rewrite print_run.
  exists calls, w_end. by rewrite app_nil_l.
Qed.

(** What a chain does to the trace. *)
Lemma chained_trace calls :
  ∀ i n w w_end,
  chained env self webhook_endpoint i n w calls w_end →
  ∃ evs,
    trace w_end = trace w ++ evs ∧
    sequenced (trace w) calls (trace w_end) ∧
    Forall (call_work self) calls ∧
    runs evs = concat ((λ c, runs (call_events c)) <$> calls) ∧
    posts evs = concat ((λ c, posts (call_events c)) <$> calls) ∧
    Forall (λ ev, is_write ev = false) evs.
Proof.
  induction calls as [|c rest IH]; intros i n w w_end Hchain.
  - simpl in Hchain. subst w_end. exists []. rewrite app_nil_r.
    split_and!; [done| |constructor|done|done|constructor].
    simpl. exists []. by rewrite app_nil_r.
  - cbn [chained] in Hchain. destruct Hchain as (Hbefore & Hok & Hrest).
    destruct (call_ok_work c Hok) as [Hwork Hafter].
    destruct (after_forwarding_trace c) as (evs_h & Hh & Hrh & Hph & _ & Hwh).
    destruct (paused_trace i n (after_forwarding env webhook_endpoint c))
      as (evs_p & Hp & Hrp & Hpp & Hwp).
    destruct (IH _ _ _ _ Hrest) as (evs_r & Hr & Hseq & Hworks & Hrr & Hpr & Hwr).
    set (header := [EvPrint (MsgProcessingUnique i n);
                    EvPrint (MsgFile (Os.basename (call_file c)))]).
    assert (trace (call_before c) = trace w ++ header) as Hb by (by rewrite Hbefore).
    assert (Forall (λ ev, is_write ev = false) (call_events c)) as Hwc.
    { destruct (transcribe_file_no_webhook_posts env self _ _ _ _ _ Hok)
        as (evs' & Htr' & _ & _ & Hw').
      rewrite Hafter in Htr'. apply app_inv_head in Htr'. by subst evs'. }
    exists (header ++ call_events c ++ evs_h ++ evs_p ++ evs_r).
    split_and!.
    + by rewrite Hr, Hp, Hh, Hafter, Hb, <-!app_assoc.
    + cbn [sequenced]. split_and!.
      * rewrite Hb. by eexists.
      * rewrite Hafter. by eexists.
      * eapply sequenced_weaken; [|exact Hseq].
        rewrite Hp, Hh, <-app_assoc. by eexists.
    + by constructor.
    + unfold runs in *. rewrite fmap_cons. cbn [concat].
      rewrite !omap_app, Hrh, Hrp, Hrr. done.
    + unfold posts in *. rewrite fmap_cons. cbn [concat].
      rewrite !omap_app, Hph, Hpp, Hpr. done.
    + repeat (apply Forall_app; split); try done. by repeat constructor.
Qed.

Lemma kept_entries calls entry :
  entry ∈ concat (kept <$> calls) ↔
  ∃ c, c ∈ calls ∧ result_truthy (call_result c) = true ∧
       entry = {| re_file := call_file c;
                  re_transcription := default JNull (call_result c) |}.
Proof.
  induction calls as [|c calls IH].
  - split; [by intros ?%elem_of_nil|]. by intros (c & ?%elem_of_nil & _).
  - rewrite fmap_cons. cbn [concat]. rewrite elem_of_app, IH. split.
    + intros [Hin|(c' & Hc' & Hrest)].
      * unfold kept in Hin. destruct (result_truthy (call_result c)) eqn:Htruthy.
        -- apply list_elem_of_singleton in Hin. exists c. split; [left|done].
        -- by apply elem_of_nil in Hin.
      * exists c'. split; [by right|done].
    + intros (c' & Hc' & Htruthy & ->).
      apply elem_of_cons in Hc' as [->|Hc'].
      * left. unfold kept. rewrite Htruthy. left.
      * right. by exists c'.
Qed.

Lemma kept_none calls :
  (∀ c, c ∈ calls → result_truthy (call_result c) = false) →
  concat (kept <$> calls) = [].
Proof.
  intros Hnone. destruct (concat (kept <$> calls)) as [|entry l] eqn:Hres; [done|].
  assert (entry ∈ concat (kept <$> calls)) as Hin by (rewrite Hres; left).
  apply kept_entries in Hin as (c & Hc & Htruthy & _).
  by rewrite (Hnone c Hc) in Htruthy.
Qed.

(** A file on which the transcoder does not end with status 0 is not
    transcribed. *)
Lemma transcribe_file_needs_transcoder audio_file_path use_preset w r w' :
  (∀ tr output_file,
     env_run env tr (ffmpeg_cmd audio_file_path output_file) ≠ Ok 0%Z) →
  transcribe_file env self audio_file_path use_preset w = (Ok r, w') →
  r = None.
Proof.
  intros Hfail Hrun. destruct r as [result|]; [|done].
  apply transcribe_file_result_body in Hrun as (converted_file & w1 & Hconv).
  apply convert_Some_inv in Hconv as (_ & Hzero & _). by destruct (Hfail _ _ Hzero).
Qed.
End Chain.

Section BatchCalls.
Context (env : Env) (self : TalkIntelTranscriber).

Lemma chained_call_ok webhook_endpoint calls :
  ∀ i n w w_end,
  chained env self webhook_endpoint i n w calls w_end → Forall (call_ok env self) calls.
Proof.
  induction calls as [|c rest IH]; intros i n w w_end Hchain; [constructor|].
  cbn [chained] in Hchain. destruct Hchain as (_ & Hok & Hrest).
  constructor; [done|]. by eapply IH.
Qed.

(** Every run of [process_directory], as the calls it makes. *)
Lemma process_directory_calls directory_path webhook_endpoint max_files w unique_files w0 :
  get_unique_files env directory_path w = (Ok unique_files, w0) →
  let batch :=
    if int_truthy max_files
    then Py.slice_to_Z (default 0%Z max_files) unique_files else unique_files in
  let announced :=
    EvPrint (MsgFound (length unique_files))
      :: (if int_truthy max_files then [EvPrint (MsgProcessingFirst (length batch))]
          else []) in
  ∃ calls results w' evs,
    process_directory env self directory_path webhook_endpoint max_files w
    = (Ok results, w') ∧
    results = concat (kept <$> calls) ∧
    call_file <$> calls = match unique_files with [] => [] | _ :: _ => batch end ∧
    match unique_files with
    | [] => w' = log [EvPrint (MsgNoUniqueFiles directory_path)] w0
    | _ :: _ =>
        ∃ w_end,
          chained env self webhook_endpoint 1 (length batch) (log announced w0)
            calls w_end ∧
          w' = log [EvPrint (MsgComplete (length results) (length batch))] w_end
    end ∧
    Forall (call_ok env self) calls ∧
    Forall (call_work self) calls ∧
    sequenced (trace w0) calls (trace w') ∧
    trace w' = trace w0 ++ evs ∧
    runs evs = concat ((λ c, runs (call_events c)) <$> calls) ∧
    posts evs = concat ((λ c, posts (call_events c)) <$> calls) ∧
    Forall (λ ev, is_write ev = false) evs.
Proof.
  intros Hfiles batch announced.
  destruct unique_files as [|f l].
  - unfold process_directory, bind. rewrite Hfiles, print_run.
    exists [], [], (log [EvPrint (MsgNoUniqueFiles directory_path)] w0),
      [EvPrint (MsgNoUniqueFiles directory_path)].
    split_and!; try done; try (by constructor); try (by repeat constructor);
      try (simpl; by eexists).
  - destruct (process_directory_chain env self webhook_endpoint directory_path
                max_files w (f :: l) w0 Hfiles ltac:(done))
      as (calls & w_end & Hcalls & Hchain & Hrun).
    fold batch in Hcalls, Hchain, Hrun. fold announced in Hchain.
    destruct (chained_trace env self webhook_endpoint calls _ _ _ _ Hchain)
      as (evs & Htr & Hseq & Hwork & Hruns & Hposts & Hwrites).
    set (results := concat (kept <$> calls)) in *.
    set (complete := EvPrint (MsgComplete (length results) (length batch))).
    exists calls, results, (log [complete] w_end), (announced ++ evs ++ [complete]).
    assert (runs announced = [] ∧ posts announced = []
            ∧ Forall (λ ev, is_write ev = false) announced) as (Hra & Hpa & Hwa).
    { unfold announced. destruct (int_truthy max_files);
        (split_and!; [done|done|by repeat constructor]). }
    split_and!; try done.
    + by exists w_end.
    + by eapply chained_call_ok.
    + eapply sequenced_weaken; [|eapply sequenced_extend; [exact Hseq|]].
      * simpl. by eexists.
      * simpl. by eexists.
    + by rewrite trace_log, Htr, trace_log, <-!app_assoc.
    + unfold runs in *. rewrite !omap_app, Hra, Hruns. simpl. by rewrite app_nil_r.
    + unfold posts in *. rewrite !omap_app, Hpa, Hposts. simpl. by rewrite app_nil_r.
    + repeat (apply Forall_app; split); try done. by repeat constructor.
Qed.
End BatchCalls.

Section BatchClaims.
Context (env : Env) (self : TalkIntelTranscriber).

(** C7.  With five unique files and [max_files=2], the run of
    [process_directory] is exactly this: after the two lines that announce
    the batch, a call of [transcribe_file] for the first file of the sorted
    list; the forwarding of its result; a pause of two seconds; a call for
    the second file, made in the world the first round left; the forwarding
    of its result; the closing line.  There is no third call and no pause
    after the second file: the transcoder is started, and a request posted,
    only inside these two calls, at most once each and for the file of the
    call.  The result list is what the two calls leave, in this order. *)
Theorem process_directory_first_two
    directory_path webhook_endpoint w f1 f2 f3 f4 f5 w0 :
  get_unique_files env directory_path w = (Ok [f1; f2; f3; f4; f5], w0) →
  ∃ c1 c2 results w' evs,
    process_directory env self directory_path webhook_endpoint (Some 2%Z) w
    = (Ok results, w') ∧
    call_file c1 = f1 ∧ call_file c2 = f2 ∧
    call_before c1
    = log [EvPrint (MsgFound 5); EvPrint (MsgProcessingFirst 2);
           EvPrint (MsgProcessingUnique 1 2); EvPrint (MsgFile (Os.basename f1))] w0 ∧
    call_ok env self c1 ∧
    call_before c2
    = log [EvPrint MsgWaiting; EvSleep 2;
           EvPrint (MsgProcessingUnique 2 2); EvPrint (MsgFile (Os.basename f2))]
        (after_forwarding env webhook_endpoint c1) ∧
    call_ok env self c2 ∧
    w' = log [EvPrint (MsgComplete (length results) 2)]
           (after_forwarding env webhook_endpoint c2) ∧
    sequenced (trace w0) [c1; c2] (trace w') ∧
    results = kept c1 ++ kept c2 ∧
    trace w' = trace w0 ++ evs ∧
    batch_view evs = [Progress 1 2; File (Os.basename f1); Slept 2;
                      Progress 2 2; File (Os.basename f2)] ∧
    sleeps evs = [2] ∧
    runs evs = runs (call_events c1) ++ runs (call_events c2) ∧
    posts evs = posts (call_events c1) ++ posts (call_events c2) ∧
    call_work self c1 ∧ call_work self c2.
Proof.
  intros Hfiles.
  destruct (process_directory_calls env self directory_path webhook_endpoint
              (Some 2%Z) w _ _ Hfiles)
    as (calls & results & w' & evs & Hrun & Hres & Hcalls & (w_end & Hchain & Hw')
        & _ & Hworks & Hseq & Htr & Hruns & Hposts & _).
  destruct (process_directory_run env self directory_path webhook_endpoint
              (Some 2%Z) w _ _ Hfiles)
    as (calls' & results' & w'' & evs' & Hrun' & _ & _ & _ & _ & Htr' & Hview & _).
  rewrite Hrun in Hrun'. injection Hrun' as <- <-.
  rewrite Htr in Htr'. apply app_inv_head in Htr'. subst evs'.
  cbn in Hcalls.
  destruct calls as [|c1 [|c2 [|c3 calls]]]; try discriminate Hcalls.
  injection Hcalls as Hf1 Hf2.
  change (length (if int_truthy (Some 2%Z)
                  then Py.slice_to_Z (default 0%Z (Some 2%Z)) [f1; f2; f3; f4; f5]
                  else [f1; f2; f3; f4; f5])) with 2 in Hchain, Hw'.
  cbn [chained] in Hchain. destruct Hchain as (Hb1 & Hok1 & Hb2 & Hok2 & Hend).
  cbn [int_truthy Z.eqb negb length] in Hb1. rewrite log_log, Hf1 in Hb1.
  change (paused 1 2 (after_forwarding env webhook_endpoint c1))
    with (log [EvPrint MsgWaiting; EvSleep 2]
            (after_forwarding env webhook_endpoint c1)) in Hb2.
  rewrite log_log, Hf2 in Hb2.
  change (paused 2 2 (after_forwarding env webhook_endpoint c2))
    with (after_forwarding env webhook_endpoint c2) in Hend.
  subst w_end.
  apply Forall_cons in Hworks as [Hwork1 Hworks].
  apply Forall_cons in Hworks as [Hwork2 _].
  exists c1, c2, results, w', evs.
  split_and!; try done.
  - rewrite Hres. simpl. by rewrite app_nil_r.
  - rewrite sleeps_batch_view, Hview. done.
  - rewrite Hruns. simpl. by rewrite app_nil_r.
  - rewrite Hposts. simpl. by rewrite app_nil_r.
Qed.

(** C10.  [max_files=0] is no cap at all: the run is the same as with
    [max_files=None], and it is the chain of one call of [transcribe_file]
    for every file returned by the discovery, in its order, each made in the
    world the previous round left; the transcoder runs and the requests of
    the run are those of these calls. *)
Theorem max_files_zero_is_no_cap directory_path webhook_endpoint w :
  process_directory env self directory_path webhook_endpoint (Some 0%Z) w
  = process_directory env self directory_path webhook_endpoint None w ∧
  ∃ unique_files w0 calls results w' evs,
    get_unique_files env directory_path w = (Ok unique_files, w0) ∧
    process_directory env self directory_path webhook_endpoint (Some 0%Z) w
    = (Ok results, w') ∧
    call_file <$> calls = unique_files ∧
    Forall (call_ok env self) calls ∧
    sequenced (trace w0) calls (trace w') ∧
    trace w' = trace w0 ++ evs ∧
    files_shown (batch_view evs) = Os.basename <$> unique_files ∧
    results = concat (kept <$> calls) ∧
    match unique_files with
    | [] => w' = log [EvPrint (MsgNoUniqueFiles directory_path)] w0
    | _ :: _ =>
        ∃ w_end,
          chained env self webhook_endpoint 1 (length unique_files)
            (log [EvPrint (MsgFound (length unique_files))] w0) calls w_end ∧
          w' = log [EvPrint (MsgComplete (length results) (length unique_files))] w_end
    end ∧
    Forall (call_work self) calls ∧
    runs evs = concat ((λ c, runs (call_events c)) <$> calls) ∧
    posts evs = concat ((λ c, posts (call_events c)) <$> calls).
Proof.
  split; [reflexivity|].
  destruct (get_unique_files_returns env directory_path w) as (l & w0 & Hfiles).
  destruct (process_directory_calls env self directory_path webhook_endpoint
              (Some 0%Z) w _ _ Hfiles)
    as (calls & results & w' & evs & Hrun & Hres & Hcalls & Hchain & Hoks & Hworks
        & Hseq & Htr & Hruns & Hposts & _).
  destruct (process_directory_run env self directory_path webhook_endpoint
              (Some 0%Z) w _ _ Hfiles)
    as (calls' & results' & w'' & evs' & Hrun' & _ & _ & _ & _ & Htr' & Hview & _).
  rewrite Hrun in Hrun'. injection Hrun' as <- <-.
  rewrite Htr in Htr'. apply app_inv_head in Htr'. subst evs'.
  exists l, w0, calls, results, w', evs.
  split_and!; try done.
  - rewrite Hcalls. by destruct l.
  - rewrite Hview. destruct l; [done|]. apply files_shown_loop_view.
Qed.

(** C9.  The forwarder never raises.  In every run of [process_directory],
    whatever the webhook answers, each call of [transcribe_file] that
    returned a truthy result has its entry in the returned list; with an
    endpoint, [send_to_webhook] was called for it after the entry had been
    appended, it came back with [True] or [False], and the loop went on from
    the world it left. *)
Theorem webhook_failure_keeps_entry directory_path webhook_endpoint max_files w :
  (∀ data endpoint w2, ∃ ok w3, send_to_webhook env data endpoint w2 = (Ok ok, w3)) ∧
  ∃ unique_files w0 calls results w',
    get_unique_files env directory_path w = (Ok unique_files, w0) ∧
    process_directory env self directory_path webhook_endpoint max_files w
    = (Ok results, w') ∧
    results = concat (kept <$> calls) ∧
    let batch :=
      if int_truthy max_files
      then Py.slice_to_Z (default 0%Z max_files) unique_files else unique_files in
    let announced :=
      EvPrint (MsgFound (length unique_files))
        :: (if int_truthy max_files then [EvPrint (MsgProcessingFirst (length batch))]
            else []) in
    call_file <$> calls = match unique_files with [] => [] | _ :: _ => batch end ∧
    match unique_files with
    | [] => w' = log [EvPrint (MsgNoUniqueFiles directory_path)] w0
    | _ :: _ =>
        ∃ w_end,
          chained env self webhook_endpoint 1 (length batch) (log announced w0)
            calls w_end ∧
          w' = log [EvPrint (MsgComplete (length results) (length batch))] w_end
    end ∧
    ∀ c, c ∈ calls → result_truthy (call_result c) = true →
      {| re_file := call_file c; re_transcription := default JNull (call_result c) |}
        ∈ results ∧
      (str_truthy webhook_endpoint = true →
       ∃ ok,
         send_to_webhook env (default JNull (call_result c))
           (default "" webhook_endpoint) (call_after c)
         = (Ok ok, after_forwarding env webhook_endpoint c)).
Proof.
  split; [apply send_to_webhook_returns|].
  destruct (get_unique_files_returns env directory_path w) as (l & w0 & Hfiles).
  destruct (process_directory_calls env self directory_path webhook_endpoint
              max_files w _ _ Hfiles)
    as (calls & results & w' & evs & Hrun & Hres & Hcalls & Hchain & _).
  exists l, w0, calls, results, w'. cbn zeta.
  split_and!; try done.
  intros c Hc Htruthy. split.
  - rewrite Hres. apply kept_entries. by exists c.
  - intros Hep. unfold after_forwarding. rewrite Htruthy, Hep. cbn [andb].
    destruct (send_to_webhook_returns env (default JNull (call_result c))
                (default "" webhook_endpoint) (call_after c)) as (ok & w3 & Hhook).
    exists ok. by rewrite Hhook.
Qed.

(** X16.  The cap of [process_directory] is a Python slice.  With a
    positive [max_files] the run is the chain of one call of
    [transcribe_file] for each of the first [max_files] files of the sorted
    list; with a negative one it is the chain for all files but the last
    [-max_files], the cap is not refused.  The transcoder runs and the
    requests of the run are those of these calls. *)
Theorem process_directory_cap
    directory_path webhook_endpoint k w unique_files w0 :
  get_unique_files env directory_path w = (Ok unique_files, w0) →
  unique_files ≠ [] →
  k ≠ 0%Z →
  let batch :=
    if (0 <? k)%Z then take (Z.to_nat k) unique_files
    else take (length unique_files - Z.to_nat (- k)) unique_files in
  ∃ calls results w_end w' evs,
    process_directory env self directory_path webhook_endpoint (Some k) w
    = (Ok results, w') ∧
    call_file <$> calls = batch ∧
    chained env self webhook_endpoint 1 (length batch)
      (log [EvPrint (MsgFound (length unique_files));
            EvPrint (MsgProcessingFirst (length batch))] w0) calls w_end ∧
    w' = log [EvPrint (MsgComplete (length results) (length batch))] w_end ∧
    results = concat (kept <$> calls) ∧
    length calls ≤ length unique_files ∧
    trace w' = trace w0 ++ evs ∧
    Forall (call_work self) calls ∧
    runs evs = concat ((λ c, runs (call_events c)) <$> calls) ∧
    posts evs = concat ((λ c, posts (call_events c)) <$> calls).
Proof.
  intros Hfiles Hne Hk batch.
  destruct (process_directory_calls env self directory_path webhook_endpoint
              (Some k) w _ _ Hfiles)
    as (calls & results & w' & evs & Hrun & Hres & Hcalls & Hchain & _ & Hworks
        & _ & Htr & Hruns & Hposts & _).
  assert (int_truthy (Some k) = true) as Htruthy.
  { simpl. apply negb_true_iff. by apply Z.eqb_neq. }
  assert (Py.slice_to_Z k unique_files = batch) as Hslice.
  { unfold Py.slice_to_Z, batch.
    destruct (Z.leb_spec 0 k), (Z.ltb_spec 0 k); try done; lia. }
  assert (length batch ≤ length unique_files) as Hlen.
  { rewrite <-Hslice. apply sublist_length, slice_to_Z_sublist. }
  clearbody batch.
  destruct unique_files as [|f l]; [done|].
  rewrite Htruthy in Hcalls, Hchain.
  change (default 0%Z (Some k)) with k in Hcalls, Hchain.
  rewrite Hslice in Hcalls, Hchain.
  destruct Hchain as (w_end & Hchain & Hw').
  exists calls, results, w_end, w', evs.
  split_and!; try done.
  by rewrite <-(length_fmap call_file), Hcalls.
Qed.
End BatchClaims.

Lemma process_directory_first_two_witness :
  let env := batch_env (Ok 0%Z) demo_ok demo_ok in
  ∃ c1 c2 results w' evs,
    process_directory env demo_self "batch" None (Some 2%Z) batch_world
    = (Ok results, w') ∧
    call_file c1 = "batch/c1.mp3" ∧ call_file c2 = "batch/c2.mp3" ∧
    call_before c1
    = log [EvPrint (MsgFound 5); EvPrint (MsgProcessingFirst 2);
           EvPrint (MsgProcessingUnique 1 2);
           EvPrint (MsgFile (Os.basename "batch/c1.mp3"))] batch_world ∧
    call_ok env demo_self c1 ∧
    call_before c2
    = log [EvPrint MsgWaiting; EvSleep 2;
           EvPrint (MsgProcessingUnique 2 2);
           EvPrint (MsgFile (Os.basename "batch/c2.mp3"))]
        (after_forwarding env None c1) ∧
    call_ok env demo_self c2 ∧
    w' = log [EvPrint (MsgComplete (length results) 2)] (after_forwarding env None c2) ∧
    sequenced (trace batch_world) [c1; c2] (trace w') ∧
    results = kept c1 ++ kept c2 ∧
    trace w' = trace batch_world ++ evs ∧
    batch_view evs = [Progress 1 2; File (Os.basename "batch/c1.mp3"); Slept 2;
                      Progress 2 2; File (Os.basename "batch/c2.mp3")] ∧
    sleeps evs = [2] ∧
    runs evs = runs (call_events c1) ++ runs (call_events c2) ∧
    posts evs = posts (call_events c1) ++ posts (call_events c2) ∧
    call_work demo_self c1 ∧ call_work demo_self c2.
Proof.
  intros env.
  apply (process_directory_first_two env demo_self "batch" None batch_world
           "batch/c1.mp3" "batch/c2.mp3" "batch/c3.wav" "batch/c4.flac"
           "batch/c5.ogg" batch_world).
  vm_compute. reflexivity.
Defined.

Lemma process_directory_cap_witness :
  let env := batch_env (Ok 1%Z) demo_ok demo_ok in
  let unique_files :=
    ["batch/c1.mp3"; "batch/c2.mp3"; "batch/c3.wav"; "batch/c4.flac"; "batch/c5.ogg"] in
  let batch := ["batch/c1.mp3"; "batch/c2.mp3"; "batch/c3.wav"; "batch/c4.flac"] in
  ∃ calls results w_end w' evs,
    process_directory env demo_self "batch" None (Some (-1)%Z) batch_world
    = (Ok results, w') ∧
    call_file <$> calls = batch ∧
    chained env demo_self None 1 4
      (log [EvPrint (MsgFound 5); EvPrint (MsgProcessingFirst 4)] batch_world)
      calls w_end ∧
    w' = log [EvPrint (MsgComplete (length results) 4)] w_end ∧
    results = concat (kept <$> calls) ∧
    length calls ≤ length unique_files ∧
    trace w' = trace batch_world ++ evs ∧
    Forall (call_work demo_self) calls ∧
    runs evs = concat ((λ c, runs (call_events c)) <$> calls) ∧
    posts evs = concat ((λ c, posts (call_events c)) <$> calls).
Proof.
  intros env unique_files batch.
  apply (process_directory_cap env demo_self "batch" None (-1)%Z batch_world
           unique_files batch_world).
  - vm_compute. reflexivity.
  - discriminate.
  - discriminate.
Defined.

Lemma webhook_failure_keeps_entry_witness :
  let env := batch_env (Ok 0%Z) demo_ok demo_server_error in
  let webhook_endpoint := Some "http://hooks.example/t" in
  let max_files := Some 2%Z in
  (∀ data endpoint w2, ∃ ok w3, send_to_webhook env data endpoint w2 = (Ok ok, w3)) ∧
  ∃ unique_files w0 calls results w',
    get_unique_files env "batch" batch_world = (Ok unique_files, w0) ∧
    process_directory env demo_self "batch" webhook_endpoint max_files batch_world
    = (Ok results, w') ∧
    results = concat (kept <$> calls) ∧
    let batch :=
      if int_truthy max_files
      then Py.slice_to_Z (default 0%Z max_files) unique_files else unique_files in
    let announced :=
      EvPrint (MsgFound (length unique_files))
        :: (if int_truthy max_files then [EvPrint (MsgProcessingFirst (length batch))]
            else []) in
    call_file <$> calls = match unique_files with [] => [] | _ :: _ => batch end ∧
    match unique_files with
    | [] => w' = log [EvPrint (MsgNoUniqueFiles "batch")] w0
    | _ :: _ =>
        ∃ w_end,
          chained env demo_self webhook_endpoint 1 (length batch) (log announced w0)
            calls w_end ∧
          w' = log [EvPrint (MsgComplete (length results) (length batch))] w_end
    end ∧
    ∀ c, c ∈ calls → result_truthy (call_result c) = true →
      {| re_file := call_file c; re_transcription := default JNull (call_result c) |}
        ∈ results ∧
      (str_truthy webhook_endpoint = true →
       ∃ ok,
         send_to_webhook env (default JNull (call_result c))
           (default "" webhook_endpoint) (call_after c)
         = (Ok ok, after_forwarding env webhook_endpoint c)).
Proof.
  intros env webhook_endpoint max_files.
  exact (webhook_failure_keeps_entry env demo_self "batch" webhook_endpoint max_files
           batch_world).
Defined.

Section TopLevel.
Context (env : Env).

Lemma main_batch_cases args w :
  arg_list_files args = false → arg_test args = false →
  main env args w
  = match process_directory env (new_transcriber (arg_api_key args))
            (arg_directory args) (arg_webhook args) (arg_max_files args) w with
    | (Ok [], w1) => (Ok (), w1)
    | (Ok (entry :: results), w1) => (Ok (), saved env (entry :: results) w1)
    | (Raise e, w1) => (Raise e, w1)
    end.
Proof.
  intros Hlist Htest. unfold main. rewrite Hlist, Htest. unfold bind at 1.
  destruct (process_directory env _ _ _ _ w) as [[[|entry results]|e] w1]; done.
Qed.

(** C8.  Every run of [process_directory] returns, and its result list is
    what the calls of [transcribe_file] made in that run leave: an entry for
    each call with a truthy result, nothing for the others.  So when every
    call of the run fails, as when the transcoder does not end with status 0
    on any file of the directory, the list is empty.  [main] returns too,
    and it writes a results file only in a batch run whose list is not
    empty: the file holds that list, and some call of the run succeeded.  A
    batch run with an empty list ends in the world [process_directory]
    left. *)
Theorem results_written_only_after_success args w :
  let self := new_transcriber (arg_api_key args) in
  let webhook_endpoint := arg_webhook args in
  ∃ unique_files w0 calls results w1 w' evs,
    get_unique_files env (arg_directory args) w = (Ok unique_files, w0) ∧
    process_directory env self (arg_directory args) webhook_endpoint
      (arg_max_files args) w = (Ok results, w1) ∧
    results = concat (kept <$> calls) ∧
    let batch :=
      if int_truthy (arg_max_files args)
      then Py.slice_to_Z (default 0%Z (arg_max_files args)) unique_files
      else unique_files in
    let announced :=
      EvPrint (MsgFound (length unique_files))
        :: (if int_truthy (arg_max_files args)
            then [EvPrint (MsgProcessingFirst (length batch))] else []) in
    call_file <$> calls = match unique_files with [] => [] | _ :: _ => batch end ∧
    match unique_files with
    | [] => w1 = log [EvPrint (MsgNoUniqueFiles (arg_directory args))] w0
    | _ :: _ =>
        ∃ w_end,
          chained env self webhook_endpoint 1 (length batch) (log announced w0)
            calls w_end ∧
          w1 = log [EvPrint (MsgComplete (length results) (length batch))] w_end
    end ∧
    main env args w = (Ok (), w') ∧
    trace w' = trace w ++ evs ∧
    (arg_list_files args = false → arg_test args = false →
     w' = match results with [] => w1 | _ :: _ => saved env results w1 end) ∧
    (∀ path c, EvWrite path c ∈ evs →
       arg_list_files args = false ∧ arg_test args = false ∧ c = results ∧
       ∃ call, call ∈ calls ∧ result_truthy (call_result call) = true) ∧
    ((∀ c, c ∈ calls → result_truthy (call_result c) = false) →
     results = [] ∧ ∀ path c, EvWrite path c ∉ evs) ∧
    ((∀ f tr output_file,
        f ∈ unique_files → env_run env tr (ffmpeg_cmd f output_file) ≠ Ok 0%Z) →
     (∀ c, c ∈ calls → call_result c = None) ∧
     results = [] ∧ ∀ path c, EvWrite path c ∉ evs).
Proof.
  intros self webhook_endpoint.
  destruct (get_unique_files_returns env (arg_directory args) w) as (l & w0 & Hfiles).
  destruct (get_unique_files_emits (λ ev, is_write ev = false) env
              (arg_directory args)) with (w := w) as (evs0 & Ht0 & Hw0); [done|].
  rewrite Hfiles in Ht0. simpl in Ht0.
  destruct (process_directory_calls env self (arg_directory args) webhook_endpoint
              (arg_max_files args) w _ _ Hfiles)
    as (calls & results & w1 & evs1 & Hrun & Hres & Hcalls & Hchain & Hoks & _ & _
        & Ht1 & _ & _ & Hw1).
  assert (∃ w' evs,
    main env args w = (Ok (), w') ∧ trace w' = trace w ++ evs ∧
    (arg_list_files args = false → arg_test args = false →
     w' = match results with [] => w1 | _ :: _ => saved env results w1 end) ∧
    ∀ path c, EvWrite path c ∈ evs →
      arg_list_files args = false ∧ arg_test args = false ∧ c = results ∧ results ≠ [])
    as (w' & evs & Hmain & Ht & Hend & Hwrite).
  { destruct (arg_list_files args) eqn:Hlist; [|destruct (arg_test args) eqn:Htest].
    - destruct (main_other_modes env args w) as (w' & evs & Hm & Ht & Hw); [by left|].
      exists w', evs. split_and!; [done|done|done|].
      intros path c Hin. by apply no_write_not_elem_of in Hin.
    - destruct (main_other_modes env args w) as (w' & evs & Hm & Ht & Hw); [by right|].
      exists w', evs. split_and!; [done|done|done|].
      intros path c Hin. by apply no_write_not_elem_of in Hin.
    - rewrite (main_batch_cases args w Hlist Htest). fold self webhook_endpoint.
      rewrite Hrun. destruct results as [|entry results'] eqn:Hresults.
      + exists w1, (evs0 ++ evs1). split_and!; [done| |done|].
        * by rewrite Ht1, Ht0, <-app_assoc.
        * intros path c Hin. apply elem_of_app in Hin as [Hin|Hin];
            by apply no_write_not_elem_of in Hin.
      + eexists _, (evs0 ++ evs1 ++ [_; _]). split_and!; [done| |done|].
        * unfold saved. simpl. by rewrite Ht1, Ht0, <-!app_assoc.
        * intros path c Hin. apply elem_of_app in Hin as [Hin|Hin];
            [by apply no_write_not_elem_of in Hin|].
          apply elem_of_app in Hin as [Hin|Hin];
            [by apply no_write_not_elem_of in Hin|].
          apply elem_of_cons in Hin as [[= -> ->]|Hin]; [done|].
          apply elem_of_cons in Hin as [[=]|Hin]. by apply elem_of_nil in Hin. }
  assert ((∀ c, c ∈ calls → result_truthy (call_result c) = false) →
          results = [] ∧ ∀ path c, EvWrite path c ∉ evs) as Hfailed.
  { intros Hnone. assert (results = []) as Hnil by (rewrite Hres; by apply kept_none).
    split; [done|]. intros path c Hin.
    destruct (Hwrite path c Hin) as (_ & _ & _ & Hne). done. }
  exists l, w0, calls, results, w1, w', evs. cbn zeta.
  split_and!; try done.
  - intros path c Hin. destruct (Hwrite path c Hin) as (Hlist & Htest & -> & Hne).
    split_and!; [done|done|done|].
    destruct (concat (kept <$> calls)) as [|entry rest] eqn:Hkept; [by subst|].
    assert (entry ∈ concat (kept <$> calls)) as Hentry by (rewrite Hkept; left).
    apply kept_entries in Hentry as (call & Hcall & Htruthy & _). by exists call.
  - intros Hfail.
    assert (∀ c, c ∈ calls → call_result c = None) as Hnone.
    { intros c Hc. rewrite Forall_forall in Hoks. specialize (Hoks c Hc).
      eapply (transcribe_file_needs_transcoder env self); [|exact Hoks].
      intros tr output_file. apply Hfail.
      assert (call_file c ∈ call_file <$> calls) as Hin by (by apply list_elem_of_fmap_2).
      rewrite Hcalls in Hin. destruct l as [|f l']; [by apply elem_of_nil in Hin|].
      destruct (int_truthy (arg_max_files args)); [|done].
      eapply elem_of_sublist; [exact Hin|apply slice_to_Z_sublist]. }
    split; [done|]. apply Hfailed. intros c Hc. by rewrite (Hnone c Hc).
Qed.
End TopLevel.

Lemma results_written_only_after_success_witness :
  let env :=
    {| env_rglob := env_rglob (batch_env (Ok 0%Z) demo_ok demo_ok);
       env_mkstemp := env_mkstemp (batch_env (Ok 0%Z) demo_ok demo_ok);
       env_run := λ _ cmd,
         if String.prefix "batch/" (default "" (cmd !! 2)) then Ok 1%Z else Ok 0%Z;
       env_getsize := λ _ _, 4096;
       env_api := λ _ _, demo_ok;
       env_webhook := λ _ _ _, demo_ok;
       env_time := λ tr, (1700000000 + Z.of_nat (length tr))%Z |} in
  let args := {| arg_directory := "batch"; arg_api_key := Some "k";
                 arg_webhook := None; arg_max_files := None; arg_test := false;
                 arg_no_preset := false; arg_list_files := false |} in
  ∃ w1 w' evs,
    process_directory env demo_self "batch" None None batch_world = (Ok [], w1) ∧
    main env args batch_world = (Ok (), w') ∧
    w' = w1 ∧
    trace w' = trace batch_world ++ evs ∧
    ∀ path c, EvWrite path c ∉ evs.
Proof.
  intros env args.
  destruct (results_written_only_after_success env args batch_world)
    as (unique_files & w0 & calls & results & w1 & w' & evs & Hfiles & Hrun & _ & _
        & _ & Hmain & Htr & Hend & _ & _ & Hfail).
  assert (unique_files
          = ["batch/c1.mp3"; "batch/c2.mp3"; "batch/c3.wav"; "batch/c4.flac";
             "batch/c5.ogg"]) as Hunique.
  { assert (get_unique_files env "batch" batch_world
            = (Ok ["batch/c1.mp3"; "batch/c2.mp3"; "batch/c3.wav"; "batch/c4.flac";
                   "batch/c5.ogg"],
               (get_unique_files env "batch" batch_world).2)) as Hcomputed
      by (vm_compute; reflexivity).
    change (get_unique_files env "batch" batch_world = (Ok unique_files, w0))
      in Hfiles.
    rewrite Hcomputed in Hfiles. clear -Hfiles.
    injection Hfiles as Heq _. symmetry. exact Heq. }
  assert (∀ f tr output_file,
            f ∈ unique_files →
            env_run env tr (ffmpeg_cmd f output_file) ≠ Ok 0%Z) as Hfails.
  { clear -Hunique. intros f tr output_file Hf. rewrite Hunique in Hf.
    repeat (apply elem_of_cons in Hf as [->|Hf]);
      [simpl; intros Heq; discriminate Heq..|].
    exfalso. exact (proj1 (elem_of_nil f) Hf). }
  destruct (Hfail Hfails) as (_ & Hnil & Hnowrite).
  rewrite Hnil in Hrun, Hend.
  exists w1, w', evs.
  exact (conj Hrun (conj Hmain (conj (Hend eq_refl eq_refl) (conj Htr Hnowrite)))).
Defined.
